(** * Zadig: Helm environment merge and testing-job compilation

    A shallow embedding of
    - [pkg/microservice/aslan/core/common/service/helm/helm.go]
      (module [Helm]): the three commit operations that rebuild the grouped
      service list of an environment from the project template, and
    - the workflow testing job, [TestingJob] of package [job] (module
      [Testing]): preset, target resolution, compilation to job tasks, lint
      and output keys.

    Go maps are [gmap]s; a [range] over a map visits its entries in an order
    the language leaves open, which is a parameter here.  Calls into storage,
    the lock service and the clock are recorded as events of a trace, and
    their results are read from a record of collaborator answers. *)

From Stdlib Require Import ZArith Lia Ascii String.
From stdpp Require Import gmap strings list fin_maps.

Local Open Scope string_scope.
Local Open Scope list_scope.

(* ===================================================================== *)
(** * Results, panics and traces *)
(* ===================================================================== *)

(** How a Go function call ends: it returns a value, returns a non-nil
    [error], or panics (an index out of range). *)
Inductive outcome (A : Type) : Type :=
| Ret (a : A)
| Err (e : string)
| Panic.
Arguments Ret {A} a.
Arguments Err {A} e.
Arguments Panic {A}.

Module Helm.

(* --------------------------------------------------------------------- *)
(** ** Data model *)
(* --------------------------------------------------------------------- *)

Definition UpdateHelmEnvLockKey : string := "UpdateHelmEnv".

(** Modelled from the spec: [commonmodels.ProductService] is declared in the
    models package, outside the sources at hand.  The fields are the ones
    helm.go reads and writes; [Native] carries the classification of the
    spec (a Zadig-native service, keyed by service name, against an
    externally-imported chart release, keyed by release name). *)
Record ProductService : Type := mkProductService {
  ServiceName : string;
  ReleaseName : string;
  Native : bool;
  DeployStrategy : string;
  UpdateTime : Z
}.

(** Modelled from the spec: [ProductService.FromZadig], the classifier of
    the spec's Service Classifier. *)
Definition FromZadig (svc : ProductService) : bool := Native svc.

(** [svc.UpdateTime = t] *)
Definition setUpdateTime (t : Z) (svc : ProductService) : ProductService :=
  {| ServiceName := ServiceName svc;
     ReleaseName := ReleaseName svc;
     Native := Native svc;
     DeployStrategy := DeployStrategy svc;
     UpdateTime := t |}.

Record Product : Type := mkProduct {
  ProductName : string;
  EnvName : string;
  Production : bool;
  Services : list (list ProductService);
  ServiceDeployStrategy : gmap string string
}.

Definition setServices (svcs : list (list ProductService)) (p : Product) : Product :=
  {| ProductName := ProductName p;
     EnvName := EnvName p;
     Production := Production p;
     Services := svcs;
     ServiceDeployStrategy := ServiceDeployStrategy p |}.

Definition setServiceDeployStrategy (s : gmap string string) (p : Product) : Product :=
  {| ProductName := ProductName p;
     EnvName := EnvName p;
     Production := Production p;
     Services := Services p;
     ServiceDeployStrategy := s |}.

(** [&commonmodels.Product{Services: services}] *)
Definition dummyProduct (svcs : list (list ProductService)) : Product :=
  {| ProductName := "";
     EnvName := "";
     Production := false;
     Services := svcs;
     ServiceDeployStrategy := ∅ |}.

(** The project template: the canonical orchestration, one list of service
    names per group, in a test and a production variant. *)
Record TemplateProduct : Type := mkTemplateProduct {
  TemplateServices : list (list string);
  ProductionServices : list (list string)
}.

(** Modelled from the spec: [Product.GetServiceMap], the native half of
    the Service Classifier: every Zadig-native service of the grouped list,
    keyed by its service name (a later entry of the same name overwrites an
    earlier one, as a Go map assignment does). *)
Definition GetServiceMap (p : Product) : gmap string ProductService :=
  fold_left
    (fun m svc => if FromZadig svc then <[ServiceName svc := svc]> m else m)
    (concat (Services p)) ∅.

(** Modelled from the spec: [Product.GetChartServiceMap], the imported
    half of the Service Classifier: every externally-imported chart release
    of the grouped list, keyed by its release name. *)
Definition GetChartServiceMap (p : Product) : gmap string ProductService :=
  fold_left
    (fun m svc => if FromZadig svc then m else <[ReleaseName svc := svc]> m)
    (concat (Services p)) ∅.

(* --------------------------------------------------------------------- *)
(** ** Events and the run monad *)
(* --------------------------------------------------------------------- *)

Inductive event : Type :=
| EvSession
| EvEndSession
| EvStartTransaction
| EvAbortTransaction
| EvCommitTransaction
| EvLock (key : string)
| EvUnlock (key : string)
| EvCreateEnvServiceVersion (p : Product) (svc : ProductService) (user : string)
| EvLog (msg : string)
| EvFindProduct (name env : string)
| EvFindTemplate (name : string)
| EvUpdate (p : Product)
| EvUpdateAllServices (name env : string) (svcs : list (list ProductService))
| EvUpdateServicesGroup (name env : string) (index : Z) (group : list ProductService).

(** A run: the events performed, in order, and how the call ended. *)
Definition Run (A : Type) : Type := (list event * outcome A)%type.

Definition ret {A} (a : A) : Run A := ([], Ret a).
Definition throw {A} (e : string) : Run A := ([], Err e).
Definition panic {A} : Run A := ([], Panic).
Definition emit (ev : event) : Run unit := ([ev], Ret tt).

Definition bind {A B} (m : Run A) (f : A → Run B) : Run B :=
  match m with
  | (tr, Ret a) => let '(tr', r) := f a in (tr ++ tr', r)
  | (tr, Err e) => (tr, Err e)
  | (tr, Panic) => (tr, Panic)
  end.

(** [defer ev; body]: the deferred call runs when the function leaves, on a
    return, an error return and a panic alike. *)
Definition defer {A} (ev : event) (body : Run A) : Run A :=
  (body.1 ++ [ev], body.2).

(** A value that exists unless the code panicked. *)
Definition orPanic {A} (o : option A) : Run A :=
  match o with Some a => ret a | None => panic end.

Declare Scope run_scope.
Delimit Scope run_scope with run.
Notation "x <- m ;; k" := (bind m (fun x => k))
  (at level 100, m at next level, right associativity) : run_scope.
Notation "m ;;; k" := (bind m (fun _ => k))
  (at level 100, right associativity) : run_scope.

(* --------------------------------------------------------------------- *)
(** ** Collaborators *)
(* --------------------------------------------------------------------- *)

(** What lies outside helm.go: the answers of the storage layer, the clock,
    the helpers of [commonutil] and [models], the two deploy-strategy
    constants, and the order in which [range] visits a Go map. *)
Class Collaborators : Type := {
  (** [mongo.StartTransaction]: [Some e] is a non-nil error *)
  startTransaction : option string;
  commitTransaction : option string;
  createEnvServiceVersion : option string;
  productFind : string → string → string + Product;
  templateFind : string → string + TemplateProduct;
  productUpdate : Product → option string;
  updateAllServices : string → string → list (list ProductService) → option string;
  updateServicesGroup : string → string → Z → list ProductService → option string;
  (** [time.Now().Unix()] *)
  now : Z;
  (** [Product.LintServices], which rewrites the grouped list in place *)
  LintServices : Product → Product;
  ServiceDeployStrategyDeploy : string;
  ServiceDeployStrategyImport : string;
  SetServiceDeployStrategyDepoly : gmap string string → string → gmap string string;
  SetChartServiceDeployStrategyDepoly : gmap string string → string → gmap string string;
  SetServiceDeployStrategyImport : gmap string string → string → gmap string string;
  SetChartServiceDeployStrategyImport : gmap string string → string → gmap string string;
  (** the order of [for _, v := range m] *)
  rangeOrder : gmap string ProductService → list (string * ProductService);
  rangeOrder_perm : ∀ m, rangeOrder m ≡ₚ map_to_list m
}.

(* --------------------------------------------------------------------- *)
(** ** The reconciliation loops *)
(* --------------------------------------------------------------------- *)

(** [groups[i] = append(groups[i], svc)]: an index outside
    [0 .. len(groups)-1] is a run-time panic, [None] here. *)
Definition appendAt (groups : list (list ProductService)) (i : Z)
    (svc : ProductService) : option (list (list ProductService)) :=
  if decide (0 ≤ i)%Z then
    match groups !! Z.to_nat i with
    | Some g => Some (<[Z.to_nat i := g ++ [svc]]> groups)
    | None => None
    end
  else None.

(** The inner loop, "set services in order": every name of the template
    group that the native map holds is appended to group [i]. *)
Fixpoint fillGroup (productSvcMap : gmap string ProductService) (i : nat)
    (svcGroup : list string) (groups : list (list ProductService))
    : option (list (list ProductService)) :=
  match svcGroup with
  | [] => Some groups
  | svc :: rest =>
      match productSvcMap !! svc with
      | Some s =>
          match appendAt groups (Z.of_nat i) s with
          | Some groups' => fillGroup productSvcMap i rest groups'
          | None => None
          end
      | None => fillGroup productSvcMap i rest groups
      end
  end.

(** [for i, svcGroup := range serviceOrchestration], started at index [i]
    with the groups built so far. *)
Fixpoint replayOrchestration (productSvcMap : gmap string ProductService)
    (i : nat) (serviceOrchestration : list (list string))
    (groups : list (list ProductService))
    : option (list (list ProductService)) :=
  match serviceOrchestration with
  | [] => Some groups
  | svcGroup :: rest =>
      (* init slice: if len(groups) >= i *)
      let groups := if decide (i ≤ length groups)%nat then groups ++ [[]] else groups in
      match fillGroup productSvcMap i svcGroup groups with
      | Some groups' => replayOrchestration productSvcMap (S i) rest groups'
      | None => None
      end
  end.

(** The index the chart services are appended at: [len(groups)-1]. *)
Definition lastIndex (groups : list (list ProductService)) : Z :=
  (Z.of_nat (length groups) - 1)%Z.

(** "append chart services to the last group", over the chart services in
    the order the [range] visits them. *)
Fixpoint appendChartServices (charts : list ProductService)
    (groups : list (list ProductService))
    : option (list (list ProductService)) :=
  match charts with
  | [] => Some groups
  | service :: rest =>
      match appendAt groups (lastIndex groups) service with
      | Some groups' => appendChartServices rest groups'
      | None => None
      end
  end.

(** The rebuilt grouped list of [UpdateHelmServiceInEnv] (lines 163-186) and
    of [UpdateHelmAllServicesInEnv] (lines 245-263): the two functions carry
    the same two loops. *)
Definition rebuildServices (serviceOrchestration : list (list string))
    (productSvcMap : gmap string ProductService)
    (charts : list ProductService) : option (list (list ProductService)) :=
  match replayOrchestration productSvcMap 0 serviceOrchestration [] with
  | Some groups => appendChartServices charts groups
  | None => None
  end.

(** The single group of [UpdateHelmServicesGroupInEnv] (lines 309-322). *)
Fixpoint fillFlat (productSvcMap : gmap string ProductService)
    (svcGroup : list string) (newGroup : list ProductService)
    : list ProductService :=
  match svcGroup with
  | [] => newGroup
  | svc :: rest =>
      match productSvcMap !! svc with
      | Some s => fillFlat productSvcMap rest (newGroup ++ [s])
      | None => fillFlat productSvcMap rest newGroup
      end
  end.

Fixpoint replayFlat (productSvcMap : gmap string ProductService)
    (serviceOrchestration : list (list string))
    (newGroup : list ProductService) : list ProductService :=
  match serviceOrchestration with
  | [] => newGroup
  | svcGroup :: rest =>
      replayFlat productSvcMap rest (fillFlat productSvcMap svcGroup newGroup)
  end.

Definition rebuildGroup (serviceOrchestration : list (list string))
    (productSvcMap : gmap string ProductService)
    (charts : list ProductService) : list ProductService :=
  fold_left (fun newGroup service => newGroup ++ [service]) charts
    (replayFlat productSvcMap serviceOrchestration []).

(** The loop of lines 149-154: the first native entry, in the order of the
    [range], that carries the release name is deleted under its service
    name, and the loop is left. *)
Fixpoint dropFirstRelease (releaseName : string)
    (visit : list (string * ProductService))
    (productSvcMap : gmap string ProductService)
    : gmap string ProductService :=
  match visit with
  | [] => productSvcMap
  | (_, svc) :: rest =>
      if decide (ReleaseName svc = releaseName)
      then delete (ServiceName svc) productSvcMap
      else dropFirstRelease releaseName rest productSvcMap
  end.

(** [templateProduct.Services], or [ProductionServices] for a production
    environment. *)
Definition selectOrchestration (templateProduct : TemplateProduct)
    (production : bool) : list (list string) :=
  if production then ProductionServices templateProduct
  else TemplateServices templateProduct.

(** [fmt.Sprintf("%s:%s:%s", UpdateHelmEnvLockKey, productName, envName)] *)
Definition lockName (productName envName : string) : string :=
  UpdateHelmEnvLockKey +:+ ":" +:+ productName +:+ ":" +:+ envName.

Section Commit.
Context `{C : Collaborators}.

Local Open Scope run_scope.

Definition StartTransaction : Run (option string) :=
  emit EvStartTransaction ;;; ret startTransaction.

Definition AbortTransaction : Run unit := emit EvAbortTransaction.

Definition CommitTransaction : Run unit :=
  emit EvCommitTransaction ;;;
  match commitTransaction with
  | Some e => throw e
  | None => ret tt
  end.

(** Lines 140-155: the updated service enters the map of its own kind and
    the competing entry leaves the other map. *)
Definition mergeProductSvc (productSvc : ProductService)
    (productSvcMap productChartSvcMap : gmap string ProductService)
    : gmap string ProductService * gmap string ProductService :=
  if FromZadig productSvc then
    (<[ServiceName productSvc := setUpdateTime now productSvc]> productSvcMap,
     delete (ReleaseName productSvc) productChartSvcMap)
  else
    (dropFirstRelease (ReleaseName productSvc) (rangeOrder productSvcMap) productSvcMap,
     <[ReleaseName productSvc := setUpdateTime now productSvc]> productChartSvcMap).

(** Lines 188-200. *)
Definition applyDeployStrategy (productSvc : ProductService)
    (strategy : gmap string string) : gmap string string :=
  if decide (DeployStrategy productSvc = ServiceDeployStrategyDeploy) then
    if FromZadig productSvc
    then SetServiceDeployStrategyDepoly strategy (ServiceName productSvc)
    else SetChartServiceDeployStrategyDepoly strategy (ReleaseName productSvc)
  else if decide (DeployStrategy productSvc = ServiceDeployStrategyImport) then
    if FromZadig productSvc
    then SetServiceDeployStrategyImport strategy (ServiceName productSvc)
    else SetChartServiceDeployStrategyImport strategy (ReleaseName productSvc)
  else strategy.

(** The chart services in the order [range productChartSvcMap] yields. *)
Definition chartServices (productChartSvcMap : gmap string ProductService)
    : list ProductService :=
  (rangeOrder productChartSvcMap).*2.

Definition UpdateHelmServiceInEnv (product : Product)
    (productSvc : ProductService) (user : string) : Run unit :=
  emit EvSession ;;;
  defer EvEndSession (
    err <- StartTransaction ;;
    match err with
    | Some e => throw e
    | None =>
      let product := LintServices product in
      emit (EvCreateEnvServiceVersion product productSvc user) ;;;
      (match createEnvServiceVersion with
       | Some e => emit (EvLog ("failed to create helm service version, err: " +:+ e))
       | None => ret tt
       end) ;;;
      let envLock := lockName (ProductName product) (EnvName product) in
      emit (EvLock envLock) ;;;
      defer (EvUnlock envLock) (
        emit (EvFindProduct (ProductName product) (EnvName product)) ;;;
        match productFind (ProductName product) (EnvName product) with
        | inl e =>
            AbortTransaction ;;;
            throw ("failed to find product " +:+ ProductName product +:+ ": " +:+ e)
        | inr newProductInfo =>
            let newProductInfo := LintServices newProductInfo in
            let '(productSvcMap, productChartSvcMap) :=
              mergeProductSvc productSvc (GetServiceMap newProductInfo)
                (GetChartServiceMap newProductInfo) in
            emit (EvFindTemplate (ProductName product)) ;;;
            match templateFind (ProductName product) with
            | inl e =>
                AbortTransaction ;;;
                throw ("failed to find template product " +:+ ProductName product +:+ ": " +:+ e)
            | inr templateProduct =>
                let serviceOrchestration :=
                  selectOrchestration templateProduct (Production product) in
                services <- orPanic (rebuildServices serviceOrchestration productSvcMap
                                       (chartServices productChartSvcMap)) ;;
                let newProductInfo := setServices services newProductInfo in
                let newProductInfo :=
                  setServiceDeployStrategy
                    (applyDeployStrategy productSvc (ServiceDeployStrategy newProductInfo))
                    newProductInfo in
                emit (EvUpdate newProductInfo) ;;;
                match productUpdate newProductInfo with
                | Some e =>
                    emit (EvLog ("update product " +:+ ProductName newProductInfo +:+ " error: " +:+ e)) ;;;
                    AbortTransaction ;;;
                    throw ("failed to update product info, name " +:+ ProductName newProductInfo)
                | None => CommitTransaction
                end
            end
        end)
    end).

Definition UpdateHelmAllServicesInEnv (productName envName : string)
    (services : list (list ProductService)) (production : bool) : Run unit :=
  emit EvSession ;;;
  defer EvEndSession (
    err <- StartTransaction ;;
    match err with
    | Some e => throw e
    | None =>
      let envLock := lockName productName envName in
      emit (EvLock envLock) ;;;
      defer (EvUnlock envLock) (
        emit (EvFindTemplate productName) ;;;
        match templateFind productName with
        | inl e =>
            AbortTransaction ;;;
            throw ("failed to find template product " +:+ productName +:+ ": " +:+ e)
        | inr templateProduct =>
            let serviceOrchestration := selectOrchestration templateProduct production in
            let dummyEnv := LintServices (dummyProduct services) in
            let productSvcMap := GetServiceMap dummyEnv in
            let productChartSvcMap := GetChartServiceMap dummyEnv in
            newServices <- orPanic (rebuildServices serviceOrchestration productSvcMap
                                      (chartServices productChartSvcMap)) ;;
            emit (EvUpdateAllServices productName envName newServices) ;;;
            match updateAllServices productName envName newServices with
            | Some e =>
                let err := "failed to update " +:+ productName +:+ "/" +:+ envName
                             +:+ " product services, err " +:+ e in
                AbortTransaction ;;;
                emit (EvLog err) ;;;
                throw err
            | None => CommitTransaction
            end
        end)
    end).

Definition UpdateHelmServicesGroupInEnv (productName envName : string)
    (index : Z) (group : list ProductService) (production : bool) : Run unit :=
  emit EvSession ;;;
  defer EvEndSession (
    err <- StartTransaction ;;
    match err with
    | Some e => throw e
    | None =>
      let envLock := lockName productName envName in
      emit (EvLock envLock) ;;;
      defer (EvUnlock envLock) (
        emit (EvFindTemplate productName) ;;;
        match templateFind productName with
        | inl e =>
            AbortTransaction ;;;
            throw ("failed to find template product " +:+ productName +:+ ": " +:+ e)
        | inr templateProduct =>
            let serviceOrchestration := selectOrchestration templateProduct production in
            let dummyEnv := LintServices (dummyProduct [group]) in
            let productSvcMap := GetServiceMap dummyEnv in
            let productChartSvcMap := GetChartServiceMap dummyEnv in
            let newGroup :=
              rebuildGroup serviceOrchestration productSvcMap
                (chartServices productChartSvcMap) in
            emit (EvUpdateServicesGroup productName envName index newGroup) ;;;
            match updateServicesGroup productName envName index newGroup with
            | Some e =>
                let err := "failed to update " +:+ productName +:+ "/" +:+ envName
                             +:+ " product services, err " +:+ e in
                AbortTransaction ;;;
                emit (EvLog err) ;;;
                throw err
            | None => CommitTransaction
            end
        end)
    end).

End Commit.

(* --------------------------------------------------------------------- *)
(** ** Vocabulary of the statements *)
(* --------------------------------------------------------------------- *)

(** The template-declared names of one group that the native map holds, in
    declaration order. *)
Definition nativesOf (m : gmap string ProductService) (names : list string)
    : list ProductService :=
  omap (m !!.) names.


Definition keyedByServiceName (m : gmap string ProductService) : Prop :=
  ∀ k s, m !! k = Some s → ServiceName s = k ∧ FromZadig s = true.

Definition keyedByReleaseName (m : gmap string ProductService) : Prop :=
  ∀ k s, m !! k = Some s → ReleaseName s = k ∧ FromZadig s = false.



(** Every Zadig-native service of the grouped list is named by the
    orchestration. *)
Definition nativesFromTemplate (orch : list (list string))
    (groups : list (list ProductService)) : Prop :=
  ∀ s, s ∈ concat groups → FromZadig s = true → ServiceName s ∈ concat orch.

(** The grouped list a storage write persists. *)
Definition persistedServices (ev : event) : option (list (list ProductService)) :=
  match ev with
  | EvUpdate p => Some (Services p)
  | EvUpdateAllServices _ _ svcs => Some svcs
  | EvUpdateServicesGroup _ _ _ group => Some [group]
  | _ => None
  end.

Definition isStartTransaction (ev : event) : bool :=
  match ev with EvStartTransaction => true | _ => false end.

Definition isTransactionEnd (ev : event) : bool :=
  match ev with EvCommitTransaction | EvAbortTransaction => true | _ => false end.

Definition isAcquire (ev : event) : bool :=
  match ev with EvLock _ => true | _ => false end.

Definition isLockEvent (ev : event) : bool :=
  match ev with EvLock _ | EvUnlock _ => true | _ => false end.

Fixpoint countEvents (f : event → bool) (tr : list event) : nat :=
  match tr with
  | [] => 0
  | ev :: rest => (if f ev then 1 else 0) + countEvents f rest
  end.

(** An event of kind [P] occurs, and no event of kind [Q] occurs before the
    first of them. *)
Fixpoint precedes (P Q : event → bool) (tr : list event) : bool :=
  match tr with
  | [] => false
  | ev :: rest => if P ev then true else if Q ev then false else precedes P Q rest
  end.

(** The lock is acquired before the storage transaction is begun. *)
Definition lockBeforeTransaction (tr : list event) : bool :=
  precedes isAcquire isStartTransaction tr.

(** The storage transaction is begun before the lock is acquired. *)
Definition transactionBeforeLock (tr : list event) : bool :=
  precedes isStartTransaction isAcquire tr.

(** The shape of a run that got its transaction: the transaction is begun
    in [pre]; the lock [key] is then taken once and released once, last but
    for the end of the session; no transaction is begun, committed or
    aborted outside the locked stretch [body] except the begin in [pre]; and
    unless the call panicked, the transaction is committed or aborted,
    once, while the lock is held. *)
Definition lockDiscipline (key : string) (r : Run unit) : Prop :=
  ∃ pre body,
    r.1 = pre ++ [EvLock key] ++ body ++ [EvUnlock key; EvEndSession] ∧
    countEvents isStartTransaction pre = 1%nat ∧
    countEvents isTransactionEnd pre = 0%nat ∧
    countEvents isLockEvent (pre ++ body) = 0%nat ∧
    countEvents isStartTransaction body = 0%nat ∧
    (r.2 ≠ Panic → countEvents isTransactionEnd body = 1%nat).

(* --------------------------------------------------------------------- *)
(** ** A small world for the examples *)
(* --------------------------------------------------------------------- *)

(** Storage that always answers, holding one environment and one template;
    [range] visits a map in the order of [map_to_list]. *)
Definition demoCollaborators (env : Product) (tmpl : TemplateProduct) : Collaborators :=
  {| startTransaction := None;
     commitTransaction := None;
     createEnvServiceVersion := None;
     productFind := λ _ _, inr env;
     templateFind := λ _, inr tmpl;
     productUpdate := λ _, None;
     updateAllServices := λ _ _ _, None;
     updateServicesGroup := λ _ _ _ _, None;
     now := 1700000000%Z;
     LintServices := λ p, p;
     ServiceDeployStrategyDeploy := "deploy";
     ServiceDeployStrategyImport := "import";
     SetServiceDeployStrategyDepoly := λ m _, m;
     SetChartServiceDeployStrategyDepoly := λ m _, m;
     SetServiceDeployStrategyImport := λ m _, m;
     SetChartServiceDeployStrategyImport := λ m _, m;
     rangeOrder := map_to_list;
     rangeOrder_perm := λ m, reflexivity (map_to_list m) |}.

Definition svcA : ProductService := mkProductService "a" "rel-a" true "deploy" 1.
Definition svcB : ProductService := mkProductService "b" "rel-b" true "deploy" 2.
Definition svcB' : ProductService := mkProductService "b" "rel-b" true "deploy" 3.
Definition svcC : ProductService := mkProductService "c" "rel-c" true "deploy" 4.
Definition chartR : ProductService := mkProductService "" "r" false "import" 5.
Definition svcX : ProductService := mkProductService "x" "rel-x" true "deploy" 6.

Definition demoTemplate : TemplateProduct :=
  {| TemplateServices := [["a"; "b"]; ["c"]]; ProductionServices := [] |}.

Definition demoEnv : Product :=
  {| ProductName := "proj"; EnvName := "dev"; Production := false;
     Services := [[svcA; svcB]; [svcC; chartR]];
     ServiceDeployStrategy := ∅ |}.

Definition demo : Collaborators := demoCollaborators demoEnv demoTemplate.

Definition emptyTemplate : TemplateProduct :=
  {| TemplateServices := []; ProductionServices := [] |}.

Definition demoEmpty : Collaborators := demoCollaborators demoEnv emptyTemplate.



(* --------------------------------------------------------------------- *)
(** ** Listing the helm repositories *)
(* --------------------------------------------------------------------- *)

(** [commonmodels.HelmRepo] with the two fields helm.go writes; what else a
    repository carries is kept as it is. *)
Record HelmRepo (Details : Type) : Type := mkHelmRepo {
  HelmRepo_Password : string;
  HelmRepo_Projects : list string;
  HelmRepo_Details : Details
}.
Arguments mkHelmRepo {Details} _ _ _.
Arguments HelmRepo_Password {Details} _.
Arguments HelmRepo_Projects {Details} _.
Arguments HelmRepo_Details {Details} _.

(** The repository collection and the two crypto helpers. *)
Class RepoCollaborators : Type := {
  RepoDetails : Type;
  (** [commonutil.GetAesKeyFromEncryptedKey]: the plain text of the key *)
  GetAesKeyFromEncryptedKey : string → string + string;
  (** [commonrepo.NewHelmRepoColl().List()] *)
  helmRepoList : string + list (HelmRepo RepoDetails);
  (** [commonrepo.NewHelmRepoColl().ListByProject(projectName)] *)
  helmRepoListByProject : string → string + list (HelmRepo RepoDetails);
  (** [crypto.AesEncryptByKey(password, key)] *)
  AesEncryptByKey : string → string → string + string
}.

Section Repos.
Context `{R : RepoCollaborators}.

Definition setPassword (password : string) (helmRepo : HelmRepo RepoDetails)
    : HelmRepo RepoDetails :=
  mkHelmRepo password (HelmRepo_Projects helmRepo) (HelmRepo_Details helmRepo).

(** Lines 58-64: the passwords are encrypted one repository after the
    other; the first failure ends the call. *)
Fixpoint encryptPasswords (key : string) (helmRepos : list (HelmRepo RepoDetails))
    : string + list (HelmRepo RepoDetails) :=
  match helmRepos with
  | [] => inr []
  | helmRepo :: rest =>
      match AesEncryptByKey (HelmRepo_Password helmRepo) key with
      | inl err => inl err
      | inr password =>
          match encryptPasswords key rest with
          | inl err => inl err
          | inr rest' => inr (setPassword password helmRepo :: rest')
          end
      end
  end.

(** [ListHelmRepos]: the lines logged and the result, [inl err] for
    [(nil, err)] and [inr repos] for [(repos, nil)]. *)
Definition ListHelmRepos (encryptedKey : string)
    : list string * (string + list (HelmRepo RepoDetails)) :=
  match GetAesKeyFromEncryptedKey encryptedKey with
  | inl err => (["ListHelmRepos GetAesKeyFromEncryptedKey err:" +:+ err], inl err)
  | inr plainText =>
      match helmRepoList with
      | inl err => (["ListHelmRepos err:" +:+ err], inr [])
      | inr helmRepos =>
          match encryptPasswords plainText helmRepos with
          | inl err => (["ListHelmRepos AesEncryptByKey err:" +:+ err], inl err)
          | inr encrypted => ([], inr encrypted)
          end
      end
  end.

Definition ListHelmReposByProject (projectName : string)
    : list string * (string + list (HelmRepo RepoDetails)) :=
  match helmRepoListByProject projectName with
  | inl err => (["ListHelmRepos err:" +:+ err], inr [])
  | inr helmRepos =>
      ([], inr ((λ helmRepo, mkHelmRepo "" [] (HelmRepo_Details helmRepo)) <$> helmRepos))
  end.

Definition ListHelmReposPublic : string + list (HelmRepo RepoDetails) := helmRepoList.

End Repos.

(* --------------------------------------------------------------------- *)
(** ** Vocabulary of the statements about runs *)
(* --------------------------------------------------------------------- *)

Definition isCommit (ev : event) : bool :=
  match ev with EvCommitTransaction => true | _ => false end.

Definition isAbort (ev : event) : bool :=
  match ev with EvAbortTransaction => true | _ => false end.

(** A storage write of the grouped list. *)
Definition isWrite (ev : event) : bool :=
  match persistedServices ev with Some _ => true | None => false end.

(** A repository collection for the examples: it answers with the given
    key and list, and encryption refuses the empty password. *)
Definition demoRepos (key : string + string)
    (stored : string + list (HelmRepo unit)) : RepoCollaborators :=
  {| RepoDetails := unit;
     GetAesKeyFromEncryptedKey := λ _, key;
     helmRepoList := stored;
     helmRepoListByProject := λ _, stored;
     AesEncryptByKey := λ password key,
       if decide (password = "") then inl "empty input"
       else inr (key +:+ ":" +:+ password) |}.

(** Storage whose lookups answer as given: an environment or the error of
    the product collection, a template or the error of the template
    collection. *)
Definition demoStorage (env : string + Product) (tmpl : string + TemplateProduct)
    : Collaborators :=
  {| startTransaction := None;
     commitTransaction := None;
     createEnvServiceVersion := None;
     productFind := λ _ _, env;
     templateFind := λ _, tmpl;
     productUpdate := λ _, None;
     updateAllServices := λ _ _ _, None;
     updateServicesGroup := λ _ _ _ _, None;
     now := 1700000000%Z;
     LintServices := λ p, p;
     ServiceDeployStrategyDeploy := "deploy";
     ServiceDeployStrategyImport := "import";
     SetServiceDeployStrategyDepoly := λ m _, m;
     SetChartServiceDeployStrategyDepoly := λ m _, m;
     SetServiceDeployStrategyImport := λ m _, m;
     SetChartServiceDeployStrategyImport := λ m _, m;
     rangeOrder := map_to_list;
     rangeOrder_perm := λ m, reflexivity (map_to_list m) |}.

(** The caller's copy of the demo environment: the same names, other
    services. *)
Definition callerEnv : Product :=
  {| ProductName := "proj"; EnvName := "dev"; Production := false;
     Services := [[svcX]];
     ServiceDeployStrategy := ∅ |}.

(** Two stored repositories with passwords, and one without. *)
Definition demoHelmRepos : list (HelmRepo unit) :=
  [mkHelmRepo "s3cret" ["proj"] (); mkHelmRepo "hunter2" [] ()].

Definition blankHelmRepos : list (HelmRepo unit) :=
  [mkHelmRepo "s3cret" ["proj"] (); mkHelmRepo "" [] ()].

End Helm.

(* ===================================================================== *)
(** * The workflow testing job *)
(* ===================================================================== *)

Module Testing.

(* --------------------------------------------------------------------- *)
(** ** Data model *)
(* --------------------------------------------------------------------- *)

(** Types of other packages whose contents the testing job hands on without
    looking inside. *)
Class Models : Type := {
  Repository : Type;
  RegistryNamespace : Type;
  S3Storage : Type;
  StepS3 : Type;
  ResourceRequest : Type;
  ResourceSpec : Type;
  ShareStorage : Type;
  ShareStorageInfo : Type;
  ShareStorageDetail : Type;
  JobErrorPolicy : Type;
  (** [&commonmodels.S3Storage{}] *)
  emptyS3Storage : S3Storage
}.

(** The dynamic type of [Job.Spec], an [interface{}] in the source. *)
Class Dynamic : Type := { Payload : Type }.

Section Types.
Context {M : Models} {D : Dynamic}.

Record KeyVal : Type := mkKeyVal {
  Key : string;
  Value : string;
  IsCredential : bool
}.

Record Output : Type := mkOutput { Output_Name : string }.

(** An entry of [PreTest.Installs] and a [step.Tool]. *)
Record Tool : Type := mkTool { Tool_Name : string; Tool_Version : string }.

(** An entry of [ObjectStorageUpload.UploadDetail] and a [step.Upload]. *)
Record Upload : Type := mkUpload {
  Upload_FilePath : string;
  Upload_DestinationPath : string
}.

(** [types.Cache], with the fields the job reads. *)
Record Cache : Type := mkCache {
  Cache_MediumType : string;
  Cache_ObjectProperties_ID : string;
  Cache_NFSProperties_Subpath : string
}.

Definition emptyCache : Cache := mkCache "" "" "".

Record K8SCluster : Type := mkK8SCluster { K8SCluster_Cache : Cache }.

Record BasicImage : Type := mkBasicImage { BasicImage_Value : string }.

Record PreTest : Type := mkPreTest {
  PreTest_ImageID : string;
  PreTest_ImageFrom : string;
  PreTest_ResReq : ResourceRequest;
  PreTest_ResReqSpec : ResourceSpec;
  PreTest_ClusterID : string;
  PreTest_StrategyID : string;
  PreTest_Envs : list KeyVal;
  PreTest_Installs : list Tool
}.

Record ObjectStorageUpload : Type := mkObjectStorageUpload {
  OSU_Enabled : bool;
  OSU_ObjectStorageID : string;
  OSU_UploadDetail : list Upload
}.

Record PostTest : Type := mkPostTest {
  PostTest_ObjectStorageUpload : option ObjectStorageUpload
}.

(** The catalog definition of a test suite, [commonmodels.Testing]. *)
Record TestingInfo : Type := mkTestingInfo {
  Testing_Name : string;
  Testing_Timeout : Z;
  Testing_Outputs : list Output;
  Testing_Infrastructure : string;
  Testing_VMLabels : list string;
  Testing_PreTest : PreTest;
  Testing_PostTest : option PostTest;
  Testing_Repos : list Repository;
  Testing_CacheEnable : bool;
  Testing_CacheDirType : string;
  Testing_CacheUserDir : string;
  Testing_ScriptType : string;
  Testing_Scripts : string;
  Testing_TestReportPath : string;
  Testing_ArtifactPaths : list string;
  Testing_TestResultPath : string
}.

Record TestModule : Type := mkTestModule {
  TestModule_Name : string;
  TestModule_ProjectName : string;
  TestModule_KeyVals : list KeyVal;
  TestModule_Repos : list Repository;
  TestModule_ShareStorageInfo : ShareStorageInfo
}.

Record ServiceAndTest : Type := mkServiceAndTest {
  SAT_ServiceName : string;
  SAT_ServiceModule : string;
  (** the embedded [TestModule] *)
  SAT_TestModule : TestModule
}.

Record ServiceTestTarget : Type := mkServiceTestTarget {
  Target_ServiceName : string;
  Target_ServiceModule : string
}.

Record ZadigTestingJobSpec : Type := mkZadigTestingJobSpec {
  Spec_TestType : string;
  Spec_Source : string;
  Spec_JobName : string;
  Spec_OriginJobName : string;
  Spec_TargetServices : list ServiceTestTarget;
  Spec_TestModules : list TestModule;
  Spec_ServiceAndTests : list ServiceAndTest
}.

(** [&commonmodels.ZadigTestingJobSpec{}] *)
Definition emptySpec : ZadigTestingJobSpec := mkZadigTestingJobSpec "" "" "" "" [] [] [].

Record ServiceAndBuild : Type := mkServiceAndBuild {
  SAB_ServiceName : string;
  SAB_ServiceModule : string
}.

Record ZadigBuildJobSpec : Type := mkZadigBuildJobSpec {
  Build_ServiceAndBuilds : list ServiceAndBuild
}.

Record DistributeTarget : Type := mkDistributeTarget {
  Distribute_ServiceName : string;
  Distribute_ServiceModule : string
}.

Record ZadigDistributeImageJobSpec : Type := mkZadigDistributeImageJobSpec {
  Distribute_Targets : list DistributeTarget
}.

Record DeployModule : Type := mkDeployModule { DeployModule_ServiceModule : string }.

Record DeployService : Type := mkDeployService {
  Deploy_ServiceName : string;
  Deploy_Modules : list DeployModule
}.

Record ZadigDeployJobSpec : Type := mkZadigDeployJobSpec {
  Deploy_Services : list DeployService
}.

Record ZadigScanningJobSpec : Type := mkZadigScanningJobSpec {
  Scanning_TargetServices : list ServiceTestTarget
}.

Record Job : Type := mkJob {
  Job_Name : string;
  Job_JobType : string;
  Job_Spec : Payload;
  Job_ErrorPolicy : JobErrorPolicy
}.

Record WorkflowStage : Type := mkWorkflowStage { Stage_Jobs : list Job }.

Record WorkflowV4 : Type := mkWorkflowV4 {
  Workflow_Name : string;
  Workflow_DisplayName : string;
  Workflow_Project : string;
  Workflow_Stages : list WorkflowStage;
  Workflow_ShareStorages : list ShareStorage
}.

Record TestingJob : Type := mkTestingJob {
  job : Job;
  workflow : WorkflowV4;
  spec : ZadigTestingJobSpec
}.

(** The step payloads the assembler emits. *)
Record StepDownloadArchiveSpec : Type := mkStepDownloadArchiveSpec {
  DA_UnTar : bool;
  DA_IgnoreErr : bool;
  DA_FileName : string;
  DA_ObjectPath : string;
  DA_DestDir : string;
  DA_S3 : StepS3
}.

Record StepArchiveSpec : Type := mkStepArchiveSpec {
  Archive_UploadDetail : list Upload;
  Archive_ObjectStorageID : string;
  Archive_S3 : StepS3
}.

Record StepTarArchiveSpec : Type := mkStepTarArchiveSpec {
  Tar_ResultDirs : list string;
  Tar_AbsResultDir : bool;
  Tar_S3DestDir : string;
  Tar_FileName : string;
  Tar_DestDir : string;
  Tar_TarDir : string;
  Tar_ChangeTarDir : bool;
  Tar_IgnoreErr : bool;
  Tar_S3Storage : option StepS3
}.

Record StepJunitReportSpec : Type := mkStepJunitReportSpec {
  Junit_SourceWorkflow : string;
  Junit_SourceJobKey : string;
  Junit_TaskID : Z;
  Junit_ReportDir : string;
  Junit_S3DestDir : string;
  Junit_TestName : string;
  Junit_TestProject : string;
  Junit_DestDir : string;
  Junit_FileName : string;
  Junit_ServiceName : string;
  Junit_ServiceModule : string
}.

Inductive StepSpec : Type :=
| NoSpec
| ToolInstallSpec (installs : list Tool)
| DownloadArchiveSpec (s : StepDownloadArchiveSpec)
| GitSpec (repos : list Repository)
| ShellSpec (scripts : list string)
| BatchFileSpec (scripts : list string)
| PowerShellSpec (scripts : list string)
| ArchiveSpec (s : StepArchiveSpec)
| TarArchiveSpec (s : StepTarArchiveSpec)
| JunitReportSpec (s : StepJunitReportSpec).

Record StepTask : Type := mkStepTask {
  Step_Name : string;
  Step_JobName : string;
  Step_StepType : string;
  Step_Onfailure : bool;
  Step_Spec : StepSpec
}.

Record JobProperties : Type := mkJobProperties {
  Props_Timeout : Z;
  Props_ResourceRequest : ResourceRequest;
  Props_ResReqSpec : ResourceSpec;
  Props_CustomEnvs : list KeyVal;
  Props_Envs : list KeyVal;
  Props_ClusterID : string;
  Props_StrategyID : string;
  Props_BuildOS : string;
  Props_ImageFrom : string;
  Props_Registries : list RegistryNamespace;
  Props_ShareStorageDetails : list ShareStorageDetail;
  Props_Cache : Cache;
  Props_CacheEnable : bool;
  Props_CacheDirType : string;
  Props_CacheUserDir : string
}.

Record JobTaskFreestyleSpec : Type := mkJobTaskFreestyleSpec {
  Properties : JobProperties;
  Steps : list StepTask
}.

Record JobTask : Type := mkJobTask {
  Task_Name : string;
  Task_Key : string;
  Task_JobInfo : gmap string string;
  Task_JobType : string;
  Task_Spec : JobTaskFreestyleSpec;
  Task_Timeout : Z;
  Task_Outputs : list Output;
  Task_Infrastructure : string;
  Task_VMLabels : list string;
  Task_ErrorPolicy : JobErrorPolicy
}.

(** What [toJobtask] returns: a task and a nil error, or an error next to
    the task as far as it was built ([None] for a nil task). *)
Inductive compiled : Type :=
| Compiled (jobTask : JobTask)
| Failed (jobTask : option JobTask) (err : string).

End Types.

(** The constants of [config], [setting] and [types] the job names. *)
Class Settings : Type := {
  ProductTestType : string;
  ServiceTestType : string;
  SourceFromJob : string;
  JobZadigBuild : string;
  JobZadigDistributeImage : string;
  JobZadigDeploy : string;
  JobZadigScanning : string;
  JobZadigTesting : string;
  JobNameKey : string;
  JobVMInfrastructure : string;
  ObjectMedium : string;
  NFSMedium : string;
  UserDefinedCacheDir : string;
  ScriptTypeShell : string;
  ScriptTypeBatchFile : string;
  ScriptTypePowerShell : string;
  StepTools : string;
  StepDownloadArchive : string;
  StepGit : string;
  StepDebugBefore : string;
  StepShell : string;
  StepBatchFile : string;
  StepPowerShell : string;
  StepDebugAfter : string;
  StepArchive : string;
  StepTarArchive : string;
  StepJunitReport : string;
  TestJobHTMLReportStepName : string;
  TestJobArchiveResultStepName : string;
  TestJobJunitReportStepName : string;
  TestJobObjectStorageStepName : string;
  TestingOSSCacheFileName : string;
  ArtifactResultOut : string
}.

(** The catalog stores and the helpers of the job package that lie outside
    the sources at hand.  A lookup answers [inl err] or [inr value]. *)
Class Catalog {M : Models} {D : Dynamic} : Type := {
  (** [commonrepo.NewTestingColl().Find(name, "")] *)
  findTesting : string → string + TestingInfo;
  (** [commonrepo.NewTestingColl().List(&ListTestOption{TestNames: names})] *)
  listTesting : list string → string + list TestingInfo;
  findBasicImage : string → string + BasicImage;
  listRegistryNamespaces : string + list RegistryNamespace;
  findDefaultS3 : string + S3Storage;
  findS3 : string → string + S3Storage;
  getCluster : string → string + K8SCluster;
  (** [rand.String(5)], by the number of the draw *)
  randString : nat → string;
  (** [commonmodels.IToi] and [IToiYaml] into each typed spec, and the typed
      spec stored back into [Job.Spec] *)
  IToi : Payload → string + ZadigTestingJobSpec;
  IToiYaml : Payload → string + ZadigTestingJobSpec;
  IToiBuild : Payload → string + ZadigBuildJobSpec;
  IToiDistribute : Payload → string + ZadigDistributeImageJobSpec;
  IToiDeploy : Payload → string + ZadigDeployJobSpec;
  IToiScanning : Payload → string + ZadigScanningJobSpec;
  boxSpec : ZadigTestingJobSpec → Payload;
  mergeRepos : list Repository → list Repository → list Repository;
  renderKeyVals : list KeyVal → list KeyVal → list KeyVal;
  getOriginJobName : WorkflowV4 → string → string;
  jobNameFormat : string → string;
  getShareStorageDetail :
    list ShareStorage → ShareStorageInfo → string → Z → list ShareStorageDetail;
  renderEnv : string → list KeyVal → string;
  renderRepos : list Repository → list Repository → list KeyVal → list Repository;
  modelS3toS3 : S3Storage → StepS3;
  (** [s3.Subfolder = ""] *)
  clearSubfolder : StepS3 → StepS3;
  replaceWrapLine : string → string;
  outputScript : list Output → string → list string;
  PrepareDefaultWorkflowTaskEnvs : string → string → string → string → Z → list KeyVal;
  getReposVariables : list Repository → list KeyVal;
  SystemAddress : string;
  QueryEscape : string → string;
  (** [strings.Split], [path.Join], and [fmt.Sprint] of an integer *)
  Split : string → string → list string;
  pathJoin : list string → string;
  Sprint : Z → string;
  (** the key under which one output of a job is addressed *)
  GetJobOutputKey : string → string → string
}.

Section Compiler.
Context {M : Models} {D : Dynamic} {S : Settings} {K : @Catalog M D}.

(** The line feed, the separator of [strings.Split(script, "\n")]. *)
Definition newline : string := String "010"%char "".

(** [strings.Join(elems, ".")] *)
Definition joinDot (elems : list string) : string := String.concat "." elems.

Definition setSpec (sp : ZadigTestingJobSpec) (j : TestingJob) : TestingJob :=
  {| job := job j; workflow := workflow j; spec := sp |}.

(** [j.job.Spec = j.spec]: the payload of the job is the typed spec. *)
Definition storeSpec (sp : ZadigTestingJobSpec) (j : TestingJob) : TestingJob :=
  {| job := {| Job_Name := Job_Name (job j);
               Job_JobType := Job_JobType (job j);
               Job_Spec := boxSpec sp;
               Job_ErrorPolicy := Job_ErrorPolicy (job j) |};
     workflow := workflow j;
     spec := sp |}.

Definition setTargetServices (targets : list ServiceTestTarget)
    (sp : ZadigTestingJobSpec) : ZadigTestingJobSpec :=
  {| Spec_TestType := Spec_TestType sp;
     Spec_Source := Spec_Source sp;
     Spec_JobName := Spec_JobName sp;
     Spec_OriginJobName := Spec_OriginJobName sp;
     Spec_TargetServices := targets;
     Spec_TestModules := Spec_TestModules sp;
     Spec_ServiceAndTests := Spec_ServiceAndTests sp |}.

Definition setJobNames (jobName originJobName : string)
    (sp : ZadigTestingJobSpec) : ZadigTestingJobSpec :=
  {| Spec_TestType := Spec_TestType sp;
     Spec_Source := Spec_Source sp;
     Spec_JobName := jobName;
     Spec_OriginJobName := originJobName;
     Spec_TargetServices := Spec_TargetServices sp;
     Spec_TestModules := Spec_TestModules sp;
     Spec_ServiceAndTests := Spec_ServiceAndTests sp |}.

Definition setModules (tms : list TestModule) (sats : list ServiceAndTest)
    (sp : ZadigTestingJobSpec) : ZadigTestingJobSpec :=
  {| Spec_TestType := Spec_TestType sp;
     Spec_Source := Spec_Source sp;
     Spec_JobName := Spec_JobName sp;
     Spec_OriginJobName := Spec_OriginJobName sp;
     Spec_TargetServices := Spec_TargetServices sp;
     Spec_TestModules := tms;
     Spec_ServiceAndTests := sats |}.

(* --------------------------------------------------------------------- *)
(** ** SetPreset *)
(* --------------------------------------------------------------------- *)

(** The body of the two lookup loops of [SetPreset] for one test module:
    the module merged with its catalog definition, or, when the lookup
    fails, the module as it was and the line that is logged. *)
Definition presetModule (testing : TestModule) : TestModule * list string :=
  match findTesting (TestModule_Name testing) with
  | inl err =>
      (testing, ["find testing: " +:+ TestModule_Name testing +:+ " error: " +:+ err])
  | inr testingInfo =>
      ({| TestModule_Name := TestModule_Name testing;
          TestModule_ProjectName := TestModule_ProjectName testing;
          TestModule_KeyVals :=
            renderKeyVals (TestModule_KeyVals testing)
              (PreTest_Envs (Testing_PreTest testingInfo));
          TestModule_Repos :=
            mergeRepos (Testing_Repos testingInfo) (TestModule_Repos testing);
          TestModule_ShareStorageInfo := TestModule_ShareStorageInfo testing |},
       [])
  end.

Definition presetServiceAndTest (testing : ServiceAndTest) : ServiceAndTest * list string :=
  let '(tm, logs) := presetModule (SAT_TestModule testing) in
  ({| SAT_ServiceName := SAT_ServiceName testing;
      SAT_ServiceModule := SAT_ServiceModule testing;
      SAT_TestModule := tm |}, logs).

(** [fmt.Sprintf("%s/%s", serviceName, serviceModule)] *)
Definition serviceKey (serviceName serviceModule : string) : string :=
  serviceName +:+ "/" +:+ serviceModule.

(** [SetPreset]: the job afterwards, the lines logged, and the error. *)
Definition SetPreset (j : TestingJob) : TestingJob * list string * option string :=
  match IToi (Job_Spec (job j)) with
  | inl err => (setSpec emptySpec j, [], Some err)
  | inr sp =>
      let '(testModules, logs1) :=
        if decide (Spec_TestType sp = ProductTestType) then
          let r := presetModule <$> Spec_TestModules sp in
          (r.*1, concat r.*2)
        else (Spec_TestModules sp, []) in
      let sp := setModules testModules (Spec_ServiceAndTests sp) sp in
      (* if quoted job quote another job, then use the service and image of
         the quoted job *)
      let sp :=
        if decide (Spec_Source sp = SourceFromJob) then
          setJobNames (getOriginJobName (workflow j) (Spec_JobName sp)) (Spec_JobName sp) sp
        else sp in
      let '(sp, logs2) :=
        if decide (Spec_TestType sp = ServiceTestType) then
          let serviceMap : gset string :=
            list_to_set ((λ testing, serviceKey (SAT_ServiceName testing)
                                       (SAT_ServiceModule testing))
                           <$> Spec_ServiceAndTests sp) in
          let r := presetServiceAndTest <$> Spec_ServiceAndTests sp in
          let filteredTargets :=
            filter (λ target, serviceKey (Target_ServiceName target)
                                (Target_ServiceModule target) ∈ serviceMap)
              (Spec_TargetServices sp) in
          (setTargetServices filteredTargets (setModules (Spec_TestModules sp) r.*1 sp),
           concat r.*2)
        else (sp, []) in
      (storeSpec sp j, logs1 ++ logs2, None)
  end.

(* --------------------------------------------------------------------- *)
(** ** getOriginReferedJobTargets *)
(* --------------------------------------------------------------------- *)

Definition buildTargets (buildSpec : ZadigBuildJobSpec) : list ServiceTestTarget :=
  (λ build, {| Target_ServiceName := SAB_ServiceName build;
               Target_ServiceModule := SAB_ServiceModule build |})
    <$> Build_ServiceAndBuilds buildSpec.

Definition distributeTargets (distributeSpec : ZadigDistributeImageJobSpec)
    : list ServiceTestTarget :=
  (λ distribute, {| Target_ServiceName := Distribute_ServiceName distribute;
                    Target_ServiceModule := Distribute_ServiceModule distribute |})
    <$> Distribute_Targets distributeSpec.

Definition deployTargets (deploySpec : ZadigDeployJobSpec) : list ServiceTestTarget :=
  concat ((λ svc,
             (λ module, {| Target_ServiceName := Deploy_ServiceName svc;
                           Target_ServiceModule := DeployModule_ServiceModule module |})
               <$> Deploy_Modules svc)
            <$> Deploy_Services deploySpec).

(** The scan over the jobs of all stages, in declaration order. *)
Fixpoint scanJobs (jobName : string) (jobs : list Job) : string + list ServiceTestTarget :=
  match jobs with
  | [] => inl ("build job " +:+ jobName +:+ " not found")
  | job :: rest =>
      if decide (Job_Name job ≠ jobName) then scanJobs jobName rest
      else if decide (Job_JobType job = JobZadigBuild) then
        match IToiBuild (Job_Spec job) with
        | inl err => inl err
        | inr buildSpec => inr (buildTargets buildSpec)
        end
      else if decide (Job_JobType job = JobZadigDistributeImage) then
        match IToiDistribute (Job_Spec job) with
        | inl err => inl err
        | inr distributeSpec => inr (distributeTargets distributeSpec)
        end
      else if decide (Job_JobType job = JobZadigDeploy) then
        match IToiDeploy (Job_Spec job) with
        | inl err => inl err
        | inr deploySpec => inr (deployTargets deploySpec)
        end
      else if decide (Job_JobType job = JobZadigScanning) then
        match IToiScanning (Job_Spec job) with
        | inl err => inl err
        | inr scanningSpec => inr (Scanning_TargetServices scanningSpec)
        end
      else scanJobs jobName rest
  end.

(** The jobs of the workflow, stage by stage. *)
Definition allJobs (w : WorkflowV4) : list Job :=
  concat (Stage_Jobs <$> Workflow_Stages w).

Definition getOriginReferedJobTargets (j : TestingJob) (jobName : string)
    : string + list ServiceTestTarget :=
  scanJobs jobName (allJobs (workflow j)).

(* --------------------------------------------------------------------- *)
(** ** toJobtask *)
(* --------------------------------------------------------------------- *)

Definition getTestingJobCacheObjectPath (workflowName testingName : string) : string :=
  workflowName +:+ "/cache/" +:+ testingName.

Definition getTestingJobVariables (repos : list Repository) (taskID : Z)
    (project workflowName workflowDisplayName testingProject testingName
     testType serviceName serviceModule infrastructure : string) : list KeyVal :=
  let buildURL :=
    SystemAddress +:+ "/v1/projects/detail/" +:+ project +:+ "/pipelines/custom/"
      +:+ workflowName +:+ "/" +:+ Sprint taskID +:+ "?display_name="
      +:+ QueryEscape workflowDisplayName in
  PrepareDefaultWorkflowTaskEnvs project workflowName workflowDisplayName infrastructure taskID
    ++ getReposVariables repos
    ++ [ mkKeyVal "TESTING_PROJECT" testingProject false;
         mkKeyVal "TESTING_NAME" testingName false;
         mkKeyVal "TESTING_TYPE" testType false;
         mkKeyVal "SERVICE" serviceName false;
         mkKeyVal "SERVICE_NAME" serviceName false;
         mkKeyVal "SERVICE_MODULE" serviceModule false;
         mkKeyVal "BUILD_URL" buildURL false ].

Definition setCache (cache : Cache) (enable : bool) (dirType userDir : string)
    (p : JobProperties) : JobProperties :=
  {| Props_Timeout := Props_Timeout p;
     Props_ResourceRequest := Props_ResourceRequest p;
     Props_ResReqSpec := Props_ResReqSpec p;
     Props_CustomEnvs := Props_CustomEnvs p;
     Props_Envs := Props_Envs p;
     Props_ClusterID := Props_ClusterID p;
     Props_StrategyID := Props_StrategyID p;
     Props_BuildOS := Props_BuildOS p;
     Props_ImageFrom := Props_ImageFrom p;
     Props_Registries := Props_Registries p;
     Props_ShareStorageDetails := Props_ShareStorageDetails p;
     Props_Cache := cache;
     Props_CacheEnable := enable;
     Props_CacheDirType := dirType;
     Props_CacheUserDir := userDir |}.

Definition setEnvs (envs : list KeyVal) (p : JobProperties) : JobProperties :=
  {| Props_Timeout := Props_Timeout p;
     Props_ResourceRequest := Props_ResourceRequest p;
     Props_ResReqSpec := Props_ResReqSpec p;
     Props_CustomEnvs := Props_CustomEnvs p;
     Props_Envs := envs;
     Props_ClusterID := Props_ClusterID p;
     Props_StrategyID := Props_StrategyID p;
     Props_BuildOS := Props_BuildOS p;
     Props_ImageFrom := Props_ImageFrom p;
     Props_Registries := Props_Registries p;
     Props_ShareStorageDetails := Props_ShareStorageDetails p;
     Props_Cache := Props_Cache p;
     Props_CacheEnable := Props_CacheEnable p;
     Props_CacheDirType := Props_CacheDirType p;
     Props_CacheUserDir := Props_CacheUserDir p |}.

Definition setSubpath (subpath : string) (c : Cache) : Cache :=
  {| Cache_MediumType := Cache_MediumType c;
     Cache_ObjectProperties_ID := Cache_ObjectProperties_ID c;
     Cache_NFSProperties_Subpath := subpath |}.

(** The job task as it stands: [jobTask.Spec] points at the freestyle spec,
    so the task carries whatever properties and steps have been set. *)
Definition taskWith (base : JobTask) (props : JobProperties) (steps : list StepTask)
    : JobTask :=
  {| Task_Name := Task_Name base;
     Task_Key := Task_Key base;
     Task_JobInfo := Task_JobInfo base;
     Task_JobType := Task_JobType base;
     Task_Spec := {| Properties := props; Steps := steps |};
     Task_Timeout := Task_Timeout base;
     Task_Outputs := Task_Outputs base;
     Task_Infrastructure := Task_Infrastructure base;
     Task_VMLabels := Task_VMLabels base;
     Task_ErrorPolicy := Task_ErrorPolicy base |}.

(** Lines 432-637: the environment variables and the step pipeline. *)
Definition assembleSteps (j : TestingJob) (testing : TestModule)
    (testingInfo : TestingInfo) (defaultS3 : S3Storage) (taskID : Z)
    (testType serviceName serviceModule : string)
    (jobTask : JobTask) (props : JobProperties) (cacheS3 : S3Storage)
    : compiled :=
  let w := workflow j in
  let name := TestModule_Name testing in
  let props :=
    setEnvs (Props_CustomEnvs props ++
             getTestingJobVariables (TestModule_Repos testing) taskID
               (Workflow_Project w) (Workflow_Name w) (Workflow_DisplayName w)
               (TestModule_ProjectName testing) name testType serviceName serviceModule
               (Task_Infrastructure jobTask)) props in
  let objectCache :=
    Props_CacheEnable props
    && bool_decide (Cache_MediumType (Props_Cache props) = ObjectMedium) in
  let cacheDir :=
    if decide (Props_CacheDirType props = UserDefinedCacheDir)
    then Props_CacheUserDir props else "/workspace" in
  let scripts :=
    Split (replaceWrapLine (Testing_Scripts testingInfo)) newline
    ++ outputScript (Testing_Outputs testingInfo) (Task_Infrastructure jobTask) in
  (* init tools install step *)
  let toolInstallStep :=
    mkStepTask (name +:+ "-tool-install") (Task_Name jobTask) StepTools false
      (ToolInstallSpec ((λ tool, mkTool (Tool_Name tool) (Tool_Version tool))
                          <$> PreTest_Installs (Testing_PreTest testingInfo))) in
  (* init download object cache step *)
  let downloadArchiveStep :=
    mkStepTask (name +:+ "-download-archive") (Task_Name jobTask) StepDownloadArchive false
      (DownloadArchiveSpec
         {| DA_UnTar := true;
            DA_IgnoreErr := true;
            DA_FileName := TestingOSSCacheFileName;
            DA_ObjectPath := getTestingJobCacheObjectPath (Workflow_Name w) name;
            DA_DestDir := cacheDir;
            DA_S3 := modelS3toS3 cacheS3 |}) in
  (* init git clone step *)
  let gitStep :=
    mkStepTask (name +:+ "-git") (Task_Name jobTask) StepGit false
      (GitSpec (renderRepos (TestModule_Repos testing) (Testing_Repos testingInfo)
                  (Props_Envs props))) in
  (* init debug before step *)
  let debugBeforeStep :=
    mkStepTask (name +:+ "-debug_before") (Task_Name jobTask) StepDebugBefore false NoSpec in
  let scriptStep :=
    if decide (Testing_ScriptType testingInfo = ScriptTypeShell
               ∨ Testing_ScriptType testingInfo = "") then
      mkStepTask (name +:+ "-shell") (Task_Name jobTask) StepShell false (ShellSpec scripts)
    else if decide (Testing_ScriptType testingInfo = ScriptTypeBatchFile) then
      mkStepTask (name +:+ "-batchfile") (Task_Name jobTask) StepBatchFile false
        (BatchFileSpec scripts)
    else if decide (Testing_ScriptType testingInfo = ScriptTypePowerShell) then
      mkStepTask (name +:+ "-powershell") (Task_Name jobTask) StepPowerShell false
        (PowerShellSpec scripts)
    else mkStepTask "" (Task_Name jobTask) "" false NoSpec in
  (* init debug after step *)
  let debugAfterStep :=
    mkStepTask (name +:+ "-debug_after") (Task_Name jobTask) StepDebugAfter false NoSpec in
  (* init archive html step *)
  let archiveStep :=
    mkStepTask TestJobHTMLReportStepName (Task_Name jobTask) StepArchive true
      (ArchiveSpec
         {| Archive_UploadDetail :=
              [ mkUpload (Testing_TestReportPath testingInfo)
                  (pathJoin [Workflow_Name w; Sprint taskID; Task_Name jobTask; "html"]) ];
            Archive_ObjectStorageID := "";
            Archive_S3 := modelS3toS3 defaultS3 |}) in
  let destDir :=
    if decide (Testing_ScriptType testingInfo = ScriptTypeBatchFile) then "%TMP%"
    else if decide (Testing_ScriptType testingInfo = ScriptTypePowerShell) then "%TMP%"
    else "/tmp" in
  (* init test result storage step *)
  let tarArchiveStep :=
    mkStepTask TestJobArchiveResultStepName (Task_Name jobTask) StepTarArchive true
      (TarArchiveSpec
         {| Tar_ResultDirs := Testing_ArtifactPaths testingInfo;
            Tar_AbsResultDir := false;
            Tar_S3DestDir :=
              pathJoin [Workflow_Name w; Sprint taskID; Task_Name jobTask; "test-result"];
            Tar_FileName := ArtifactResultOut;
            Tar_DestDir := destDir;
            Tar_TarDir := "";
            Tar_ChangeTarDir := false;
            Tar_IgnoreErr := false;
            Tar_S3Storage := None |}) in
  let artifactSteps :=
    match Testing_ArtifactPaths testingInfo with
    | [] => []
    | first :: more =>
        if decide ((1 < length (first :: more))%nat ∨ first ≠ "")
        then [tarArchiveStep] else []
    end in
  (* init junit report step *)
  let junitStep :=
    mkStepTask TestJobJunitReportStepName (Task_Name jobTask) StepJunitReport true
      (JunitReportSpec
         {| Junit_SourceWorkflow := Workflow_Name w;
            Junit_SourceJobKey := Job_Name (job j);
            Junit_TaskID := taskID;
            Junit_ReportDir := Testing_TestResultPath testingInfo;
            Junit_S3DestDir :=
              pathJoin [Workflow_Name w; Sprint taskID; Task_Name jobTask; "junit"];
            Junit_TestName := name;
            Junit_TestProject := TestModule_ProjectName testing;
            Junit_DestDir := destDir;
            Junit_FileName := "merged.xml";
            Junit_ServiceName := serviceName;
            Junit_ServiceModule := serviceModule |}) in
  (* init object cache step *)
  let cacheTarStep :=
    mkStepTask (name +:+ "-tar-archive") (Task_Name jobTask) StepTarArchive false
      (TarArchiveSpec
         {| Tar_ResultDirs := ["."];
            Tar_AbsResultDir := true;
            Tar_S3DestDir := getTestingJobCacheObjectPath (Workflow_Name w) name;
            Tar_FileName := TestingOSSCacheFileName;
            Tar_DestDir := "";
            Tar_TarDir := cacheDir;
            Tar_ChangeTarDir := true;
            Tar_IgnoreErr := true;
            Tar_S3Storage := Some (modelS3toS3 cacheS3) |}) in
  let steps :=
    [toolInstallStep]
    ++ (if objectCache then [downloadArchiveStep] else [])
    ++ [gitStep; debugBeforeStep; scriptStep; debugAfterStep]
    ++ (if decide (0 < String.length (Testing_TestReportPath testingInfo))%nat
        then [archiveStep] else [])
    ++ artifactSteps
    ++ (if decide (0 < String.length (Testing_TestResultPath testingInfo))%nat
        then [junitStep] else [])
    ++ (if objectCache then [cacheTarStep] else []) in
  (* init object storage step *)
  match Testing_PostTest testingInfo with
  | Some {| PostTest_ObjectStorageUpload := Some upload |} =>
      if OSU_Enabled upload then
        match findS3 (OSU_ObjectStorageID upload) with
        | inl err =>
            Failed (Some (taskWith jobTask props steps))
              ("find object storage: " +:+ OSU_ObjectStorageID upload
                 +:+ " failed, err: " +:+ err)
        | inr modelS3 =>
            let objectStorageStep :=
              mkStepTask TestJobObjectStorageStepName (Task_Name jobTask) StepArchive false
                (ArchiveSpec
                   {| Archive_UploadDetail :=
                        (λ detail, mkUpload (Upload_FilePath detail)
                                     (Upload_DestinationPath detail))
                          <$> OSU_UploadDetail upload;
                      Archive_ObjectStorageID := OSU_ObjectStorageID upload;
                      Archive_S3 := clearSubfolder (modelS3toS3 modelS3) |}) in
            Compiled (taskWith jobTask props (steps ++ [objectStorageStep]))
        end
      else Compiled (taskWith jobTask props steps)
  | _ => Compiled (taskWith jobTask props steps)
  end.

(** Lines 419-429: with the cache enabled on cluster infrastructure, the
    cache directory and sub-path are rendered and the object store is
    fetched. *)
Definition renderCache (j : TestingJob) (testing : TestModule)
    (testingInfo : TestingInfo) (defaultS3 : S3Storage) (taskID : Z)
    (testType serviceName serviceModule : string)
    (jobTask : JobTask) (props : JobProperties) (cacheS3 : S3Storage)
    : compiled :=
  let continue :=
    assembleSteps j testing testingInfo defaultS3 taskID testType serviceName
      serviceModule jobTask in
  if Props_CacheEnable props then
    let props :=
      setCache (Props_Cache props) (Props_CacheEnable props) (Props_CacheDirType props)
        (renderEnv (Props_CacheUserDir props) (Props_Envs props)) props in
    if decide (Cache_MediumType (Props_Cache props) = NFSMedium) then
      let cache :=
        setSubpath (renderEnv (Cache_NFSProperties_Subpath (Props_Cache props))
                      (Props_Envs props)) (Props_Cache props) in
      continue
        (setCache cache (Props_CacheEnable props) (Props_CacheDirType props)
           (Props_CacheUserDir props) props)
        cacheS3
    else if decide (Cache_MediumType (Props_Cache props) = ObjectMedium) then
      match findS3 (Cache_ObjectProperties_ID (Props_Cache props)) with
      | inl err =>
          Failed (Some (taskWith jobTask props []))
            ("find cache s3 storage: "
               +:+ Cache_ObjectProperties_ID (Props_Cache props)
               +:+ " error: " +:+ err)
      | inr s3 => continue props s3
      end
    else continue props cacheS3
  else continue props cacheS3.

Definition toJobtask (j : TestingJob) (testing : TestModule) (defaultS3 : S3Storage)
    (taskID : Z) (testType serviceName serviceModule : string) (randStr : string)
    : compiled :=
  let name := TestModule_Name testing in
  match findTesting name with
  | inl err => Failed None ("find testing: " +:+ name +:+ " error: " +:+ err)
  | inr testingInfo =>
  let preTest := Testing_PreTest testingInfo in
  match findBasicImage (PreTest_ImageID preTest) with
  | inl err =>
      Failed None
        ("find basic image: " +:+ PreTest_ImageID preTest +:+ " error: " +:+ err)
  | inr basicImage =>
  match listRegistryNamespaces with
  | inl err => Failed None ("list registries error: " +:+ err)
  | inr registries =>
  let jobName :=
    if decide (testType = ServiceTestType)
    then jobNameFormat (serviceName +:+ "-" +:+ serviceModule +:+ "-" +:+ Job_Name (job j))
    else jobNameFormat (name +:+ "-" +:+ Job_Name (job j) +:+ "-" +:+ randStr) in
  let jobInfo : gmap string string :=
    if decide (testType = ServiceTestType)
    then <[JobNameKey := Job_Name (job j)]>
           (<["test_type" := testType]>
              (<["service_name" := serviceName]>
                 (<["service_module" := serviceModule]> ∅)))
    else <[JobNameKey := Job_Name (job j)]>
           (<["test_type" := testType]>
              (<["testing_name" := name]>
                 (<["rand_str" := randStr]> ∅))) in
  let jobKey :=
    if decide (testType = ServiceTestType)
    then joinDot [Job_Name (job j); name; serviceName; serviceModule]
    else joinDot [Job_Name (job j); name] in
  let props :=
    {| Props_Timeout := Testing_Timeout testingInfo;
       Props_ResourceRequest := PreTest_ResReq preTest;
       Props_ResReqSpec := PreTest_ResReqSpec preTest;
       Props_CustomEnvs :=
         renderKeyVals (TestModule_KeyVals testing) (PreTest_Envs preTest);
       Props_Envs := [];
       Props_ClusterID := PreTest_ClusterID preTest;
       Props_StrategyID := PreTest_StrategyID preTest;
       Props_BuildOS := BasicImage_Value basicImage;
       Props_ImageFrom := PreTest_ImageFrom preTest;
       Props_Registries := registries;
       Props_ShareStorageDetails :=
         getShareStorageDetail (Workflow_ShareStorages (workflow j))
           (TestModule_ShareStorageInfo testing) (Workflow_Name (workflow j)) taskID;
       Props_Cache := emptyCache;
       Props_CacheEnable := false;
       Props_CacheDirType := "";
       Props_CacheUserDir := "" |} in
  let jobTask :=
    {| Task_Name := jobName;
       Task_Key := jobKey;
       Task_JobInfo := jobInfo;
       Task_JobType := JobZadigTesting;
       Task_Spec := {| Properties := props; Steps := [] |};
       Task_Timeout := Testing_Timeout testingInfo;
       Task_Outputs := Testing_Outputs testingInfo;
       Task_Infrastructure := Testing_Infrastructure testingInfo;
       Task_VMLabels := Testing_VMLabels testingInfo;
       Task_ErrorPolicy := Job_ErrorPolicy (job j) |} in
  let cacheS3 := emptyS3Storage in
  match getCluster (PreTest_ClusterID preTest) with
  | inl err =>
      Failed (Some jobTask)
        ("failed to find cluster: " +:+ PreTest_ClusterID preTest +:+ ", error: " +:+ err)
  | inr clusterInfo =>
  let continue :=
    assembleSteps j testing testingInfo defaultS3 taskID testType serviceName
      serviceModule jobTask in
  if decide (Task_Infrastructure jobTask = JobVMInfrastructure) then
    continue
      (setCache (Props_Cache props) (Testing_CacheEnable testingInfo)
         (Testing_CacheDirType testingInfo) (Testing_CacheUserDir testingInfo) props)
      cacheS3
  else
    if decide (Cache_MediumType (K8SCluster_Cache clusterInfo) = "") then
      renderCache j testing testingInfo defaultS3 taskID testType serviceName
        serviceModule jobTask
        (setCache (Props_Cache props) false (Props_CacheDirType props)
           (Props_CacheUserDir props) props)
        cacheS3
    else
      let props :=
        setCache (K8SCluster_Cache clusterInfo) (Testing_CacheEnable testingInfo)
          (Testing_CacheDirType testingInfo) (Testing_CacheUserDir testingInfo) props in
      if decide (Cache_MediumType (Props_Cache props) = ObjectMedium) then
        match findS3 (Cache_ObjectProperties_ID (Props_Cache props)) with
        | inl err =>
            Failed (Some (taskWith jobTask props []))
              ("find cache s3 storage: "
                 +:+ Cache_ObjectProperties_ID (Props_Cache props)
                 +:+ " error: " +:+ err)
        | inr s3 =>
            renderCache j testing testingInfo defaultS3 taskID testType serviceName
              serviceModule jobTask props s3
        end
      else
        renderCache j testing testingInfo defaultS3 taskID testType serviceName
          serviceModule jobTask props cacheS3
  end end end end.

(* --------------------------------------------------------------------- *)
(** ** ToJobs *)
(* --------------------------------------------------------------------- *)

(** Lines 229-235: one task per product-level test module.  The random
    suffix of a task is the next draw, one draw per task built so far. *)
Fixpoint compileModules (j : TestingJob) (defaultS3 : S3Storage) (taskID : Z)
    (testings : list TestModule) (resp : list JobTask)
    : list JobTask * option string :=
  match testings with
  | [] => (resp, None)
  | testing :: rest =>
      match toJobtask j testing defaultS3 taskID "" "" "" (randString (length resp)) with
      | Failed _ err => (resp, Some err)
      | Compiled jobTask => compileModules j defaultS3 taskID rest (resp ++ [jobTask])
      end
  end.

(** Lines 254-263: the tests configured for one target. *)
Fixpoint compileServiceTests (j : TestingJob) (defaultS3 : S3Storage) (taskID : Z)
    (testType : string) (target : ServiceTestTarget)
    (testings : list ServiceAndTest) (resp : list JobTask)
    : list JobTask * option string :=
  match testings with
  | [] => (resp, None)
  | testing :: rest =>
      if decide (SAT_ServiceName testing ≠ Target_ServiceName target
                 ∨ SAT_ServiceModule testing ≠ Target_ServiceModule target)
      then compileServiceTests j defaultS3 taskID testType target rest resp
      else
        match toJobtask j (SAT_TestModule testing) defaultS3 taskID testType
                (SAT_ServiceName testing) (SAT_ServiceModule testing)
                (randString (length resp)) with
        | Failed _ err => (resp, Some err)
        | Compiled jobTask =>
            compileServiceTests j defaultS3 taskID testType target rest (resp ++ [jobTask])
        end
  end.

(** Lines 253-264. *)
Fixpoint compileTargets (j : TestingJob) (defaultS3 : S3Storage) (taskID : Z)
    (testType : string) (targets : list ServiceTestTarget)
    (testings : list ServiceAndTest) (resp : list JobTask)
    : list JobTask * option string :=
  match targets with
  | [] => (resp, None)
  | target :: rest =>
      match compileServiceTests j defaultS3 taskID testType target testings resp with
      | (resp, Some err) => (resp, Some err)
      | (resp, None) => compileTargets j defaultS3 taskID testType rest testings resp
      end
  end.

(** [ToJobs]: the job afterwards and the pair [(resp, err)] returned. *)
Definition ToJobs (j : TestingJob) (taskID : Z)
    : TestingJob * (list JobTask * option string) :=
  match IToi (Job_Spec (job j)) with
  | inl err => (setSpec emptySpec j, ([], Some err))
  | inr sp =>
  let j := storeSpec sp j in
  match findDefaultS3 with
  | inl err => (j, ([], Some ("failed to find default s3 storage, error: " +:+ err)))
  | inr defaultS3 =>
  match (if decide (Spec_TestType sp = ProductTestType)
         then compileModules j defaultS3 taskID (Spec_TestModules sp) []
         else ([], None)) with
  | (resp, Some err) => (j, (resp, Some err))
  | (resp, None) =>
  (* get deploy info from previous build job *)
  let fromJob : ZadigTestingJobSpec * option string :=
    if decide (Spec_Source sp = SourceFromJob) then
      (* adapt to the front end, use the direct quoted job name *)
      let sp :=
        if decide (Spec_OriginJobName sp ≠ "")
        then setJobNames (Spec_OriginJobName sp) (Spec_OriginJobName sp) sp
        else sp in
      match getOriginReferedJobTargets j (Spec_JobName sp) with
      | inl err =>
          (sp, Some ("get origin refered job: " +:+ Spec_JobName sp
                       +:+ " targets failed, err: " +:+ err))
      | inr targets =>
          (* clear service and image list to prevent old data from remaining *)
          (setTargetServices targets sp, None)
      end
    else (sp, None) in
  match fromJob with
  | (sp, Some err) => (storeSpec sp j, (resp, Some err))
  | (sp, None) =>
      let j := storeSpec sp j in
      if decide (Spec_TestType sp = ServiceTestType) then
        (j, compileTargets j defaultS3 taskID (Spec_TestType sp)
              (Spec_TargetServices sp) (Spec_ServiceAndTests sp) resp)
      else (j, (resp, None))
  end end end end.

(* --------------------------------------------------------------------- *)
(** ** LintJob *)
(* --------------------------------------------------------------------- *)

(** Modelled from the spec: the rank of a job is its (stage index, job
    index); one rank is earlier than another in the order of the stages,
    and within a stage in the order of the jobs.  The rank of a name that
    is absent from a Go map is the zero value. *)
Definition Rank : Type := (nat * nat)%type.

(** Modelled from the spec: the zero value of a rank. *)
Definition zeroRank : Rank := (0, 0)%nat.

(** Modelled from the spec: [a] is strictly earlier than [b]. *)
Definition rankLtb (a b : Rank) : bool :=
  (a.1 <? b.1)%nat || ((a.1 =? b.1)%nat && (a.2 <? b.2)%nat).

(** [a >= b] *)
Definition rankGeb (a b : Rank) : bool := negb (rankLtb a b).

(** Modelled from the spec: every job name with its (stage index, job
    index), in declaration order. *)
Definition rankEntries (stages : list WorkflowStage) : list (string * Rank) :=
  concat (imap (λ stageIndex stage,
                  imap (λ jobIndex job, (Job_Name job, (stageIndex, jobIndex)))
                    (Stage_Jobs stage))
            stages).

(** Modelled from the spec: [getJobRankMap] of the job package lies outside
    the sources at hand.  The spec has it compute each job's rank as (stage
    index, job index); the map is filled in declaration order, a later job
    of the same name overwriting an earlier one. *)
Definition getJobRankMap (stages : list WorkflowStage) : gmap string Rank :=
  fold_left (λ m entry, <[entry.1 := entry.2]> m) (rankEntries stages) ∅.

Definition LintJob (j : TestingJob) : TestingJob * option string :=
  match IToiYaml (Job_Spec (job j)) with
  | inl err => (setSpec emptySpec j, Some err)
  | inr sp =>
      let j := setSpec sp j in
      if decide (Spec_Source sp ≠ SourceFromJob) then (j, None)
      else
        let jobRankMap := getJobRankMap (Workflow_Stages (workflow j)) in
        let quoteErr :=
          "can not quote job " +:+ Spec_JobName sp +:+ " in job " +:+ Job_Name (job j) in
        match jobRankMap !! Spec_JobName sp with
        | None => (j, Some quoteErr)
        | Some buildJobRank =>
            if rankGeb buildJobRank (default zeroRank (jobRankMap !! Job_Name (job j)))
            then (j, Some quoteErr)
            else (j, None)
        end
  end.

(* --------------------------------------------------------------------- *)
(** ** GetOutPuts *)
(* --------------------------------------------------------------------- *)

(** Modelled from the spec: [getOutputKey] of the job package lies outside
    the sources at hand; it maps each declared output name to its full
    addressed key under the job key. *)
Definition getOutputKey (jobKey : string) (outputs : list Output) : list string :=
  (λ output, GetJobOutputKey jobKey (Output_Name output)) <$> outputs.

(** Lines 672-682: the job key of one catalog definition; on a
    service-level job every matching (target, test) pair overwrites it. *)
Definition outputJobKey (j : TestingJob) (sp : ZadigTestingJobSpec)
    (testingInfo : TestingInfo) : string :=
  let jobKey := joinDot [Job_Name (job j); Testing_Name testingInfo] in
  if decide (Spec_TestType sp = ServiceTestType) then
    fold_left
      (λ jobKey target,
         fold_left
           (λ jobKey scanning,
              if decide (SAT_ServiceName scanning ≠ Target_ServiceName target
                         ∨ SAT_ServiceModule scanning ≠ Target_ServiceModule target)
              then jobKey
              else joinDot [Job_Name (job j); TestModule_Name (SAT_TestModule scanning);
                            Target_ServiceName target; Target_ServiceModule target])
           (Spec_ServiceAndTests sp) jobKey)
      (Spec_TargetServices sp) jobKey
  else jobKey.

Definition GetOutPuts (j : TestingJob) : TestingJob * list string :=
  match IToiYaml (Job_Spec (job j)) with
  | inl err => (setSpec emptySpec j, [])
  | inr sp =>
      let j := setSpec sp j in
      let testNames := TestModule_Name <$> Spec_TestModules sp in
      match listTesting testNames with
      | inl err => (j, [])
      | inr testingInfos =>
          (j, concat ((λ testingInfo,
                         getOutputKey (outputJobKey j sp testingInfo)
                           (Testing_Outputs testingInfo))
                        <$> testingInfos))
      end
  end.

(* --------------------------------------------------------------------- *)
(** ** Vocabulary of the statements *)
(* --------------------------------------------------------------------- *)

(** The job types the target resolver branches on. *)
Definition handledType (t : string) : Prop :=
  t = JobZadigBuild ∨ t = JobZadigDistributeImage ∨ t = JobZadigDeploy
  ∨ t = JobZadigScanning.

Definition taskOf (c : compiled) : option JobTask :=
  match c with
  | Compiled jobTask => Some jobTask
  | Failed jobTask _ => jobTask
  end.

(** A test configured for the target: the condition under which the loops
    of [ToJobs] and [GetOutPuts] do not [continue]. *)
Definition configuredFor (target : ServiceTestTarget) (testing : ServiceAndTest) : Prop :=
  SAT_ServiceName testing = Target_ServiceName target ∧
  SAT_ServiceModule testing = Target_ServiceModule target.

End Compiler.

(* --------------------------------------------------------------------- *)
(** ** The spec resolver: Instantiate, ClearSelectionField, GetRepos,
       MergeArgs, MergeWebhookRepo *)
(* --------------------------------------------------------------------- *)

Section SpecResolver.
Context {M : Models} {D : Dynamic} {S : Settings} {K : @Catalog M D}.

Definition Instantiate (j : TestingJob) : TestingJob * option string :=
  match IToiYaml (Job_Spec (job j)) with
  | inl err => (setSpec emptySpec j, Some err)
  | inr sp => (storeSpec sp j, None)
  end.

Definition SetOptions (j : TestingJob) : TestingJob * option string := (j, None).

Definition ClearSelectionField (j : TestingJob) : TestingJob * option string :=
  match IToiYaml (Job_Spec (job j)) with
  | inl err => (setSpec emptySpec j, Some err)
  | inr sp => (storeSpec (setTargetServices [] sp) j, None)
  end.

Definition UpdateWithLatestSetting (j : TestingJob) : TestingJob * option string :=
  match IToiYaml (Job_Spec (job j)) with
  | inl err => (setSpec emptySpec j, Some err)
  | inr sp => (storeSpec sp j, None)
  end.

(** The body of the two loops of [GetRepos] for one test module: the
    repositories it contributes and the line that is logged. *)
Definition moduleRepos (testing : TestModule) : list Repository * list string :=
  match findTesting (TestModule_Name testing) with
  | inl err =>
      ([], ["find testing: " +:+ TestModule_Name testing +:+ " error: " +:+ err])
  | inr testingInfo =>
      (mergeRepos (Testing_Repos testingInfo) (TestModule_Repos testing), [])
  end.

(** [GetRepos]: the job afterwards, the lines logged, and the pair
    [(resp, err)] returned. *)
Definition GetRepos (j : TestingJob)
    : TestingJob * list string * (list Repository * option string) :=
  match IToi (Job_Spec (job j)) with
  | inl err => (setSpec emptySpec j, [], ([], Some err))
  | inr sp =>
      let product :=
        if decide (Spec_TestType sp = ProductTestType)
        then moduleRepos <$> Spec_TestModules sp else [] in
      let service :=
        if decide (Spec_TestType sp = ServiceTestType)
        then (λ testing, moduleRepos (SAT_TestModule testing)) <$> Spec_ServiceAndTests sp
        else [] in
      (setSpec sp j, concat product.*2 ++ concat service.*2,
       (concat product.*1 ++ concat service.*1, None))
  end.

(** The merge of one override into a test module, lines 175-176 and
    188-189. *)
Definition mergeModule (testing argsTesting : TestModule) : TestModule :=
  {| TestModule_Name := TestModule_Name testing;
     TestModule_ProjectName := TestModule_ProjectName testing;
     TestModule_KeyVals :=
       renderKeyVals (TestModule_KeyVals argsTesting) (TestModule_KeyVals testing);
     TestModule_Repos :=
       mergeRepos (TestModule_Repos testing) (TestModule_Repos argsTesting);
     TestModule_ShareStorageInfo := TestModule_ShareStorageInfo testing |}.

(** Lines 173-179: the first override of the same name is merged, and the
    inner loop is left. *)
Fixpoint mergeTestModule (testing : TestModule) (argsTestings : list TestModule)
    : TestModule :=
  match argsTestings with
  | [] => testing
  | argsTesting :: rest =>
      if decide (TestModule_Name testing = TestModule_Name argsTesting)
      then mergeModule testing argsTesting
      else mergeTestModule testing rest
  end.

(** Lines 186-192: the first override of the same test name and service
    name is merged. *)
Fixpoint mergeServiceAndTest (testing : ServiceAndTest)
    (argsTestings : list ServiceAndTest) : ServiceAndTest :=
  match argsTestings with
  | [] => testing
  | argsTesting :: rest =>
      if decide (TestModule_Name (SAT_TestModule testing)
                   = TestModule_Name (SAT_TestModule argsTesting)
                 ∧ SAT_ServiceName testing = SAT_ServiceName argsTesting)
      then {| SAT_ServiceName := SAT_ServiceName testing;
              SAT_ServiceModule := SAT_ServiceModule testing;
              SAT_TestModule :=
                mergeModule (SAT_TestModule testing) (SAT_TestModule argsTesting) |}
      else mergeServiceAndTest testing rest
  end.

Definition MergeArgs (j : TestingJob) (args : Job) : TestingJob * option string :=
  if decide (Job_Name (job j) = Job_Name args ∧ Job_JobType (job j) = Job_JobType args) then
    match IToi (Job_Spec (job j)) with
    | inl err => (setSpec emptySpec j, Some err)
    | inr sp =>
        match IToi (Job_Spec args) with
        | inl err => (storeSpec sp j, Some err)
        | inr argsSpec =>
            let sp :=
              if decide (Spec_TestType sp = ProductTestType) then
                setModules
                  ((λ testing, mergeTestModule testing (Spec_TestModules argsSpec))
                     <$> Spec_TestModules sp)
                  (Spec_ServiceAndTests sp) sp
              else sp in
            let sp :=
              if decide (Spec_TestType sp = ServiceTestType) then
                setModules (Spec_TestModules sp)
                  ((λ testing, mergeServiceAndTest testing (Spec_ServiceAndTests argsSpec))
                     <$> Spec_ServiceAndTests sp)
                  (setTargetServices (Spec_TargetServices argsSpec) sp)
              else sp in
            (storeSpec sp j, None)
        end
    end
  else (j, None).

Definition MergeWebhookRepo (j : TestingJob) (webhookRepo : Repository)
    : TestingJob * option string :=
  match IToi (Job_Spec (job j)) with
  | inl err => (setSpec emptySpec j, Some err)
  | inr sp =>
      let testModules :=
        (λ testing,
           {| TestModule_Name := TestModule_Name testing;
              TestModule_ProjectName := TestModule_ProjectName testing;
              TestModule_KeyVals := TestModule_KeyVals testing;
              TestModule_Repos := mergeRepos (TestModule_Repos testing) [webhookRepo];
              TestModule_ShareStorageInfo := TestModule_ShareStorageInfo testing |})
          <$> Spec_TestModules sp in
      (storeSpec (setModules testModules (Spec_ServiceAndTests sp) sp) j, None)
  end.

(* --------------------------------------------------------------------- *)
(** ** Vocabulary of the statements about compiled tasks *)
(* --------------------------------------------------------------------- *)

(** The steps of the task [toJobtask] hands back, none for a nil task. *)
Definition stepsOf (c : compiled) : list StepTask :=
  match taskOf c with
  | Some jobTask => Steps (Task_Spec jobTask)
  | None => []
  end.

Definition isCacheDownload (st : StepTask) : bool :=
  match Step_Spec st with DownloadArchiveSpec _ => true | _ => false end.

(** The tar archive of the cache directory: the one tar step that carries
    an object store. *)
Definition isCacheUpload (st : StepTask) : bool :=
  match Step_Spec st with
  | TarArchiveSpec s => bool_decide (is_Some (Tar_S3Storage s))
  | _ => false
  end.

(** The tar archive of the test results. *)
Definition isResultArchive (st : StepTask) : bool :=
  match Step_Spec st with
  | TarArchiveSpec s => bool_decide (Tar_S3Storage s = None)
  | _ => false
  end.

Definition isJunitReport (st : StepTask) : bool :=
  match Step_Spec st with JunitReportSpec _ => true | _ => false end.

Definition isScript (st : StepTask) : bool :=
  match Step_Spec st with
  | ShellSpec _ | BatchFileSpec _ | PowerShellSpec _ => true
  | _ => false
  end.

(** The payloads of the steps that collect reports and artifacts. *)
Definition isCollector (st : StepTask) : bool :=
  match Step_Spec st with
  | ArchiveSpec _ | TarArchiveSpec _ | JunitReportSpec _ => true
  | _ => false
  end.

(** The key [toJobtask] gives the task of a suite. *)
Definition taskKey (j : TestingJob) (testType name serviceName serviceModule : string)
    : string :=
  if decide (testType = ServiceTestType)
  then joinDot [Job_Name (job j); name; serviceName; serviceModule]
  else joinDot [Job_Name (job j); name].

(** Every lookup [toJobtask] makes for the suite answers. *)
Definition compiles (j : TestingJob) (testing : TestModule) (defaultS3 : S3Storage)
    (taskID : Z) (testType serviceName serviceModule : string) : Prop :=
  ∀ randStr, ∃ jobTask,
    toJobtask j testing defaultS3 taskID testType serviceName serviceModule randStr
    = Compiled jobTask.

End SpecResolver.

(* --------------------------------------------------------------------- *)
(** ** A small world for the examples *)
(* --------------------------------------------------------------------- *)

(** The opaque types as plain strings and units. *)
Definition demoModels : Models :=
  {| Repository := string;
     RegistryNamespace := string;
     S3Storage := string;
     StepS3 := string;
     ResourceRequest := string;
     ResourceSpec := unit;
     ShareStorage := unit;
     ShareStorageInfo := unit;
     ShareStorageDetail := unit;
     JobErrorPolicy := unit;
     emptyS3Storage := "" |}.

(** A job payload that is one of the typed specs, or something else. *)
Inductive demoPayload : Type :=
| TestingPayload (sp : @ZadigTestingJobSpec demoModels)
| BuildPayload (sp : ZadigBuildJobSpec)
| DeployPayload (sp : ZadigDeployJobSpec)
| OtherPayload.

Definition demoDynamic : Dynamic := {| Payload := demoPayload |}.

(** Stand-in values for the constants of [config], [setting] and [types]:
    pairwise distinct where the job compares them. *)
Definition demoSettings : Settings :=
  {| ProductTestType := "";
     ServiceTestType := "service_test";
     SourceFromJob := "fromjob";
     JobZadigBuild := "zadig-build";
     JobZadigDistributeImage := "zadig-distribute-image";
     JobZadigDeploy := "zadig-deploy";
     JobZadigScanning := "zadig-scanning";
     JobZadigTesting := "zadig-test";
     JobNameKey := "job_name";
     JobVMInfrastructure := "vm";
     ObjectMedium := "object";
     NFSMedium := "nfs";
     UserDefinedCacheDir := "user_defined";
     ScriptTypeShell := "shell";
     ScriptTypeBatchFile := "batch_file";
     ScriptTypePowerShell := "powershell";
     StepTools := "tools";
     StepDownloadArchive := "download_archive";
     StepGit := "git";
     StepDebugBefore := "debug_before";
     StepShell := "shell";
     StepBatchFile := "batch_file";
     StepPowerShell := "powershell";
     StepDebugAfter := "debug_after";
     StepArchive := "archive";
     StepTarArchive := "tar_archive";
     StepJunitReport := "junit_report";
     TestJobHTMLReportStepName := "html-report";
     TestJobArchiveResultStepName := "archive-result";
     TestJobJunitReportStepName := "junit-report";
     TestJobObjectStorageStepName := "object-storage";
     TestingOSSCacheFileName := "zadig-cache";
     ArtifactResultOut := "artifactResultOut.tar.gz" |}.

Definition demoDecode {A} (pick : demoPayload → option A) (p : @Payload demoDynamic)
    : string + A :=
  match pick p with
  | Some a => inr a
  | None => inl "cannot decode the job spec"
  end.

(** A catalog holding the given suites and one cluster with the given cache
    configuration; the helpers are the simplest functions of their types. *)
Definition demoCatalog (suites : list (@TestingInfo demoModels)) (clusterCache : Cache)
    : @Catalog demoModels demoDynamic :=
  {| findTesting := λ name,
       match List.find (λ t, bool_decide (Testing_Name t = name)) suites with
       | Some t => inr t
       | None => inl "mongo: no documents in result"
       end;
     listTesting := λ names,
       inr (List.filter (λ t, bool_decide (Testing_Name t ∈ names)) suites);
     findBasicImage := λ _, inr (mkBasicImage "focal");
     listRegistryNamespaces := inr [];
     findDefaultS3 := inr "default-s3";
     findS3 := λ id, inr id;
     getCluster := λ _, inr (mkK8SCluster clusterCache);
     randString := λ _, "abcde";
     IToi := demoDecode (λ p, match p with TestingPayload sp => Some sp | _ => None end);
     IToiYaml := demoDecode (λ p, match p with TestingPayload sp => Some sp | _ => None end);
     IToiBuild := demoDecode (λ p, match p with BuildPayload sp => Some sp | _ => None end);
     IToiDistribute := demoDecode (λ _, None);
     IToiDeploy := demoDecode (λ p, match p with DeployPayload sp => Some sp | _ => None end);
     IToiScanning := demoDecode (λ _, None);
     boxSpec := TestingPayload;
     mergeRepos := λ catalog job, job ++ catalog;
     renderKeyVals := λ job catalog, job ++ catalog;
     getOriginJobName := λ _ name, name;
     jobNameFormat := λ name, name;
     getShareStorageDetail := λ _ _ _ _, [];
     renderEnv := λ s _, s;
     renderRepos := λ job _ _, job;
     modelS3toS3 := λ s, s;
     clearSubfolder := λ s, s;
     replaceWrapLine := λ s, s;
     outputScript := λ _ _, [];
     PrepareDefaultWorkflowTaskEnvs := λ _ _ _ _ _, [];
     getReposVariables := λ _, [];
     SystemAddress := "https://zadig.example";
     QueryEscape := λ s, s;
     Split := λ s _, [s];
     pathJoin := String.concat "/";
     Sprint := λ _, "1";
     GetJobOutputKey := λ jobKey name, jobKey +:+ ".output." +:+ name |}.

Definition demoSuite (name infrastructure : string) (cacheEnable : bool)
    (outputs : list string) : @TestingInfo demoModels :=
  {| Testing_Name := name;
     Testing_Timeout := 60;
     Testing_Outputs := mkOutput <$> outputs;
     Testing_Infrastructure := infrastructure;
     Testing_VMLabels := [];
     Testing_PreTest := mkPreTest (M:=demoModels) "image-1" "koderover" "low" () "cluster-1" "" [] [];
     Testing_PostTest := None;
     Testing_Repos := [];
     Testing_CacheEnable := cacheEnable;
     Testing_CacheDirType := "";
     Testing_CacheUserDir := "";
     Testing_ScriptType := "";
     Testing_Scripts := "make test";
     Testing_TestReportPath := "";
     Testing_ArtifactPaths := [];
     Testing_TestResultPath := "" |}.

Definition demoModule (name : string) : @TestModule demoModels :=
  mkTestModule (M:=demoModels) name "proj" [] [] ().

Definition demoWorld : @Catalog demoModels demoDynamic :=
  demoCatalog [demoSuite "t1" "kubernetes" true ["IMAGE"];
               demoSuite "t2" "kubernetes" true ["REPORT"]]
    emptyCache.

Definition demoJob (name jobType : string) (payload : demoPayload)
    : @Job demoModels demoDynamic :=
  mkJob (M:=demoModels) (D:=demoDynamic) name jobType payload ().

Definition demoBuildSpec : ZadigBuildJobSpec :=
  mkZadigBuildJobSpec [mkServiceAndBuild "svcA" "modA"; mkServiceAndBuild "svcB" "modB"].

Definition demoTestSpec (source jobName : string) : @ZadigTestingJobSpec demoModels :=
  mkZadigTestingJobSpec "" source jobName "" [] [demoModule "t1"] [].

(** Two stages: a build job, then a testing job. *)
Definition demoWorkflow (testPayload : demoPayload) : @WorkflowV4 demoModels demoDynamic :=
  mkWorkflowV4 "wf" "Workflow" "proj"
    [ mkWorkflowStage [demoJob "build1" "zadig-build" (BuildPayload demoBuildSpec)];
      mkWorkflowStage [demoJob "test" "zadig-test" testPayload] ]
    [].

Definition demoTestingJob (sp : @ZadigTestingJobSpec demoModels)
    : @TestingJob demoModels demoDynamic :=
  mkTestingJob (demoJob "test" "zadig-test" (TestingPayload sp))
    (demoWorkflow (TestingPayload sp)) emptySpec.

(** A service-level job with two suites configured for one service. *)
Definition twoSuitesSpec : @ZadigTestingJobSpec demoModels :=
  mkZadigTestingJobSpec "service_test" "" "" ""
    [mkServiceTestTarget "svcA" "modA"]
    [demoModule "t1"; demoModule "t2"]
    [mkServiceAndTest "svcA" "modA" (demoModule "t1");
     mkServiceAndTest "svcA" "modA" (demoModule "t2")].

(** A product-level job naming a suite the catalog does not hold. *)
Definition missingSuiteSpec : @ZadigTestingJobSpec demoModels :=
  mkZadigTestingJobSpec "" "" "" "" [] [demoModule "t1"; demoModule "gone"] [].

(* --------------------------------------------------------------------- *)
(** ** More worlds for the examples *)
(* --------------------------------------------------------------------- *)

(** A suite with everything the step pipeline branches on: the script
    type, the report path, the artifact paths, the result path and the
    object storage upload. *)
Definition richSuite (name infrastructure scriptType : string)
    (artifactPaths : list string) (resultPath : string)
    (upload : option ObjectStorageUpload) : @TestingInfo demoModels :=
  {| Testing_Name := name;
     Testing_Timeout := 60;
     Testing_Outputs := [mkOutput "IMAGE"];
     Testing_Infrastructure := infrastructure;
     Testing_VMLabels := [];
     Testing_PreTest :=
       mkPreTest (M:=demoModels) "image-1" "koderover" "low" () "cluster-1" "" [] [];
     Testing_PostTest := Some (mkPostTest upload);
     Testing_Repos := [];
     Testing_CacheEnable := true;
     Testing_CacheDirType := "user_defined";
     Testing_CacheUserDir := "/cache";
     Testing_ScriptType := scriptType;
     Testing_Scripts := "make test";
     Testing_TestReportPath := "report.html";
     Testing_ArtifactPaths := artifactPaths;
     Testing_TestResultPath := resultPath |}.

(** A cluster that caches on the object medium, in the store "cache-store". *)
Definition objectCache : Cache := mkCache "object" "cache-store" "".

(** The suites of the worlds below: a shell suite with artifacts, a JUnit
    result path and an upload; a suite of an unknown script type whose one
    artifact path is empty; and a suite on the VM infrastructure. *)
Definition richSuites : list (@TestingInfo demoModels) :=
  [ richSuite "full" "kubernetes" "shell" ["out"; "logs"] "results"
      (Some (mkObjectStorageUpload true "upload-store" [mkUpload "dist" "releases"]));
    richSuite "odd" "kubernetes" "python" [""] "" None;
    richSuite "onvm" "vm" "" [] "" None ].

(** The catalog of [richSuites] on a cluster with the object cache. *)
Definition objectWorld : @Catalog demoModels demoDynamic :=
  demoCatalog richSuites objectCache.

(** The same catalog with an object store collection that finds nothing. *)
Definition storelessWorld : @Catalog demoModels demoDynamic :=
  {| findTesting := findTesting (Catalog:=objectWorld);
     listTesting := listTesting (Catalog:=objectWorld);
     findBasicImage := findBasicImage (Catalog:=objectWorld);
     listRegistryNamespaces := listRegistryNamespaces (Catalog:=objectWorld);
     findDefaultS3 := findDefaultS3 (Catalog:=objectWorld);
     findS3 := λ _, inl "mongo: no documents in result";
     getCluster := getCluster (Catalog:=objectWorld);
     randString := randString (Catalog:=objectWorld);
     IToi := IToi (Catalog:=objectWorld);
     IToiYaml := IToiYaml (Catalog:=objectWorld);
     IToiBuild := IToiBuild (Catalog:=objectWorld);
     IToiDistribute := IToiDistribute (Catalog:=objectWorld);
     IToiDeploy := IToiDeploy (Catalog:=objectWorld);
     IToiScanning := IToiScanning (Catalog:=objectWorld);
     boxSpec := boxSpec (Catalog:=objectWorld);
     mergeRepos := mergeRepos (Catalog:=objectWorld);
     renderKeyVals := renderKeyVals (Catalog:=objectWorld);
     getOriginJobName := getOriginJobName (Catalog:=objectWorld);
     jobNameFormat := jobNameFormat (Catalog:=objectWorld);
     getShareStorageDetail := getShareStorageDetail (Catalog:=objectWorld);
     renderEnv := renderEnv (Catalog:=objectWorld);
     renderRepos := renderRepos (Catalog:=objectWorld);
     modelS3toS3 := modelS3toS3 (Catalog:=objectWorld);
     clearSubfolder := clearSubfolder (Catalog:=objectWorld);
     replaceWrapLine := replaceWrapLine (Catalog:=objectWorld);
     outputScript := outputScript (Catalog:=objectWorld);
     PrepareDefaultWorkflowTaskEnvs := PrepareDefaultWorkflowTaskEnvs (Catalog:=objectWorld);
     getReposVariables := getReposVariables (Catalog:=objectWorld);
     SystemAddress := SystemAddress (Catalog:=objectWorld);
     QueryEscape := QueryEscape (Catalog:=objectWorld);
     Split := Split (Catalog:=objectWorld);
     pathJoin := pathJoin (Catalog:=objectWorld);
     Sprint := Sprint (Catalog:=objectWorld);
     GetJobOutputKey := GetJobOutputKey (Catalog:=objectWorld) |}.

(** A world for the other job types the target resolver handles.  The
    payload of a job keeps the typed specs side by side, and each decoder
    picks its own. *)
Record typedPayload : Type := mkTypedPayload {
  asTesting : option (@ZadigTestingJobSpec demoModels);
  asDistribute : option ZadigDistributeImageJobSpec;
  asDeploy : option ZadigDeployJobSpec;
  asScanning : option ZadigScanningJobSpec
}.

Definition typedDynamic : Dynamic := {| Payload := typedPayload |}.

Definition decodeTyped {A} (pick : typedPayload → option A) (p : @Payload typedDynamic)
    : string + A :=
  match pick p with
  | Some a => inr a
  | None => inl "cannot decode the job spec"
  end.

Definition typedWorld : @Catalog demoModels typedDynamic :=
  {| findTesting := findTesting (Catalog:=demoWorld);
     listTesting := listTesting (Catalog:=demoWorld);
     findBasicImage := findBasicImage (Catalog:=demoWorld);
     listRegistryNamespaces := listRegistryNamespaces (Catalog:=demoWorld);
     findDefaultS3 := findDefaultS3 (Catalog:=demoWorld);
     findS3 := findS3 (Catalog:=demoWorld);
     getCluster := getCluster (Catalog:=demoWorld);
     randString := randString (Catalog:=demoWorld);
     IToi := decodeTyped asTesting;
     IToiYaml := decodeTyped asTesting;
     IToiBuild := decodeTyped (λ _, None);
     IToiDistribute := decodeTyped asDistribute;
     IToiDeploy := decodeTyped asDeploy;
     IToiScanning := decodeTyped asScanning;
     boxSpec := λ sp, mkTypedPayload (Some sp) None None None;
     mergeRepos := mergeRepos (Catalog:=demoWorld);
     renderKeyVals := renderKeyVals (Catalog:=demoWorld);
     getOriginJobName := λ _ name, name;
     jobNameFormat := jobNameFormat (Catalog:=demoWorld);
     getShareStorageDetail := λ _ _ _ _, [];
     renderEnv := renderEnv (Catalog:=demoWorld);
     renderRepos := renderRepos (Catalog:=demoWorld);
     modelS3toS3 := modelS3toS3 (Catalog:=demoWorld);
     clearSubfolder := clearSubfolder (Catalog:=demoWorld);
     replaceWrapLine := replaceWrapLine (Catalog:=demoWorld);
     outputScript := outputScript (Catalog:=demoWorld);
     PrepareDefaultWorkflowTaskEnvs := PrepareDefaultWorkflowTaskEnvs (Catalog:=demoWorld);
     getReposVariables := getReposVariables (Catalog:=demoWorld);
     SystemAddress := SystemAddress (Catalog:=demoWorld);
     QueryEscape := QueryEscape (Catalog:=demoWorld);
     Split := Split (Catalog:=demoWorld);
     pathJoin := pathJoin (Catalog:=demoWorld);
     Sprint := Sprint (Catalog:=demoWorld);
     GetJobOutputKey := GetJobOutputKey (Catalog:=demoWorld) |}.

Definition typedJob (name jobType : string) (payload : typedPayload)
    : @Job demoModels typedDynamic :=
  mkJob (M:=demoModels) (D:=typedDynamic) name jobType payload ().

Definition distributeJob : @Job demoModels typedDynamic :=
  typedJob "push" "zadig-distribute-image"
    (mkTypedPayload None
       (Some (mkZadigDistributeImageJobSpec [mkDistributeTarget "svcA" "modA"]))
       None None).

Definition deployJob : @Job demoModels typedDynamic :=
  typedJob "roll" "zadig-deploy"
    (mkTypedPayload None None
       (Some (mkZadigDeployJobSpec
                [mkDeployService "svcA" [mkDeployModule "modA"; mkDeployModule "modB"];
                 mkDeployService "svcB" [mkDeployModule "modC"]]))
       None).

Definition scanningJob : @Job demoModels typedDynamic :=
  typedJob "scan" "zadig-scanning"
    (mkTypedPayload None None None
       (Some (mkZadigScanningJobSpec [mkServiceTestTarget "svcB" "modB"]))).

(** A testing job in a workflow of three stages: a plugin job also named
    "push" ahead of the distribute job, then the deploy and the scanning
    job, then the testing job itself. *)
Definition typedTestingJob : @TestingJob demoModels typedDynamic :=
  let testing :=
    typedJob "test" "zadig-test" (mkTypedPayload (Some emptySpec) None None None) in
  mkTestingJob testing
    (mkWorkflowV4 "wf" "Workflow" "proj"
       [ mkWorkflowStage
           [typedJob "push" "plugin" (mkTypedPayload None None None None); distributeJob];
         mkWorkflowStage [deployJob; scanningJob];
         mkWorkflowStage [testing] ]
       [])
    emptySpec.

(** A build job whose payload does not decode, ahead of a sound one of the
    same name. *)
Definition brokenBuildJob : @TestingJob demoModels demoDynamic :=
  mkTestingJob (demoJob "test" "zadig-test" OtherPayload)
    (mkWorkflowV4 "wf" "Workflow" "proj"
       [ mkWorkflowStage [demoJob "build1" "zadig-build" OtherPayload;
                          demoJob "build1" "zadig-build" (BuildPayload demoBuildSpec)] ]
       [])
    emptySpec.

(** A product-level job over the suites of [richSuites]. *)
Definition richJob : @TestingJob demoModels demoDynamic :=
  demoTestingJob
    (mkZadigTestingJobSpec "" "" "" "" []
       [demoModule "full"; demoModule "odd"; demoModule "onvm"] []).

(** A service-level job quoted from the build job "build1": the target it
    holds is stale, and the build job declares (svcA, modA), for which the
    suite t1 is configured, and (svcB, modB), for which none is. *)
Definition quotedServiceSpec : @ZadigTestingJobSpec demoModels :=
  mkZadigTestingJobSpec "service_test" "fromjob" "older" "build1"
    [mkServiceTestTarget "stale" "stale"]
    []
    [mkServiceAndTest "svcA" "modA" (demoModule "t1");
     mkServiceAndTest "svcZ" "modZ" (demoModule "gone")].

(** A service-level job whose one test is configured for service "a" and
    module "b/c", while its targets are ("a/b", "c") and ("a", "b"). *)
Definition slashSpec : @ZadigTestingJobSpec demoModels :=
  mkZadigTestingJobSpec "service_test" "" "" ""
    [mkServiceTestTarget "a/b" "c"; mkServiceTestTarget "a" "b"]
    []
    [mkServiceAndTest "a" "b/c" (demoModule "t1")].

(** Arguments for the job "test": two overrides named t1, and for the
    service-level job an override of t1 for another module of svcA. *)
Definition overrideModule (name : string) (value : string) : @TestModule demoModels :=
  mkTestModule (M:=demoModels) name "proj" [mkKeyVal "LEVEL" value false] [value] ().

Definition productArgs : @Job demoModels demoDynamic :=
  demoJob "test" "zadig-test"
    (TestingPayload
       (mkZadigTestingJobSpec "" "" "" "" []
          [overrideModule "t2" "zero"; overrideModule "t1" "one"; overrideModule "t1" "two"]
          [])).

Definition serviceArgs : @Job demoModels demoDynamic :=
  demoJob "test" "zadig-test"
    (TestingPayload
       (mkZadigTestingJobSpec "service_test" "" "" ""
          [mkServiceTestTarget "svcB" "modB"]
          []
          [mkServiceAndTest "svcA" "other-module" (overrideModule "t1" "one")])).

End Testing.

(* ===================================================================== *)
(** * Facts about lists and maps *)
(* ===================================================================== *)

Lemma elem_of_concat {A} (x : A) (ls : list (list A)) :
  x ∈ concat ls ↔ ∃ l, l ∈ ls ∧ x ∈ l.
Proof.
  rewrite list_elem_of_In, in_concat. split.
  - intros (l & H1 & H2). exists l. by rewrite !list_elem_of_In.
  - intros (l & H1 & H2). exists l. by rewrite <- !list_elem_of_In.
Qed.

Lemma fmap_concat {A B} (f : A → B) (ls : list (list A)) :
  f <$> concat ls = concat ((fmap f : list A → list B) <$> ls).
Proof.
  induction ls as [|l ls IH]; simpl; [done|]. by rewrite fmap_app, IH.
Qed.


(** Filling a map entry by entry: with no key written twice, every entry
    is found under its key. *)
Lemma fill_lookup_notin {V} (l : list (string * V)) (m0 : gmap string V) k :
  k ∉ l.*1 →
  fold_left (λ m entry, <[entry.1 := entry.2]> m) l m0 !! k = m0 !! k.
Proof.
  revert m0. induction l as [|[k' v'] l IH]; intros m0 Hk; simpl; [done|].
  rewrite fmap_cons in Hk. apply not_elem_of_cons in Hk as [Hne Hk]. simpl in Hne.
  rewrite IH by done. by rewrite lookup_insert_ne.
Qed.

Lemma fill_lookup {V} (l : list (string * V)) (m0 : gmap string V) k v :
  NoDup l.*1 → (k, v) ∈ l →
  fold_left (λ m entry, <[entry.1 := entry.2]> m) l m0 !! k = Some v.
Proof.
  revert m0. induction l as [|[k' v'] l IH]; intros m0 Hnd Hin; simpl.
  - by apply elem_of_nil in Hin.
  - rewrite fmap_cons in Hnd. apply NoDup_cons in Hnd as [Hk' Hnd]. simpl in Hk'.
    apply elem_of_cons in Hin as [[= -> ->]|Hin].
    + rewrite fill_lookup_notin by done. by rewrite lookup_insert_eq.
    + by apply IH.
Qed.

(* ===================================================================== *)
(** * The Helm environment merge: facts *)
(* ===================================================================== *)

Module HelmFacts.
Import Helm.

(* --------------------------------------------------------------------- *)
(** ** The loops in closed form *)
(* --------------------------------------------------------------------- *)

Lemma appendAt_last pre g s :
  appendAt (pre ++ [g]) (Z.of_nat (length pre)) s = Some (pre ++ [g ++ [s]]).
Proof.
  unfold appendAt. rewrite decide_True by lia. rewrite Nat2Z.id.
  rewrite list_lookup_middle by done.
  f_equal. rewrite insert_app_r_alt by lia. by rewrite Nat.sub_diag.
Qed.

Lemma fillGroup_last m pre names g :
  fillGroup m (length pre) names (pre ++ [g]) = Some (pre ++ [g ++ nativesOf m names]).
Proof.
  revert g. induction names as [|n names IH]; intros g; simpl.
  - by rewrite app_nil_r.
  - unfold nativesOf; simpl. destruct (m !! n) as [s|] eqn:E; simpl.
    + rewrite appendAt_last, IH. by rewrite <- app_assoc.
    + apply IH.
Qed.

(** The guard [len(groups) >= i] holds at every turn: the loop opens one
    group per template group. *)
Lemma replayOrchestration_closed m orch groups :
  replayOrchestration m (length groups) orch groups
  = Some (groups ++ (nativesOf m <$> orch)).
Proof.
  revert groups. induction orch as [|names orch IH]; intros groups; simpl.
  - by rewrite app_nil_r.
  - rewrite decide_True by lia. rewrite fillGroup_last. simpl.
    specialize (IH (groups ++ [nativesOf m names])).
    rewrite length_app in IH. simpl in IH. rewrite Nat.add_1_r in IH.
    rewrite IH. by rewrite <- app_assoc.
Qed.

Lemma appendChartServices_last charts pre g :
  appendChartServices charts (pre ++ [g]) = Some (pre ++ [g ++ charts]).
Proof.
  revert g. induction charts as [|c charts IH]; intros g; simpl.
  - by rewrite app_nil_r.
  - replace (lastIndex (pre ++ [g])) with (Z.of_nat (length pre)).
    2:{ unfold lastIndex. rewrite length_app. simpl. lia. }
    rewrite appendAt_last, IH. by rewrite <- app_assoc.
Qed.

Lemma rebuildServices_snoc pre names m charts :
  rebuildServices (pre ++ [names]) m charts
  = Some ((nativesOf m <$> pre) ++ [nativesOf m names ++ charts]).
Proof.
  unfold rebuildServices.
  change 0%nat with (length (@nil (list ProductService))).
  rewrite replayOrchestration_closed. simpl.
  rewrite fmap_app. simpl. apply appendChartServices_last.
Qed.

Lemma rebuildServices_nil m charts :
  rebuildServices [] m charts = match charts with [] => Some [] | _ :: _ => None end.
Proof. by destruct charts. Qed.

Lemma rebuildServices_cases orch m charts :
  (orch = [] ∧ rebuildServices orch m charts = match charts with [] => Some [] | _ :: _ => None end)
  ∨ (∃ pre names, orch = pre ++ [names] ∧
       rebuildServices orch m charts
       = Some ((nativesOf m <$> pre) ++ [nativesOf m names ++ charts])).
Proof.
  destruct orch as [|g orch] using rev_ind.
  - left. split; [done|]. apply rebuildServices_nil.
  - right. exists orch, g. split; [done|]. apply rebuildServices_snoc.
Qed.



Lemma elem_of_nativesOf m names s :
  s ∈ nativesOf m names ↔ ∃ n, n ∈ names ∧ m !! n = Some s.
Proof. unfold nativesOf. apply list_elem_of_omap. Qed.

Lemma rebuildServices_elem orch m charts out s :
  rebuildServices orch m charts = Some out →
  s ∈ concat out →
  (∃ n, n ∈ concat orch ∧ m !! n = Some s) ∨ s ∈ charts.
Proof.
  destruct (rebuildServices_cases orch m charts) as [[-> E]|(pre & names & -> & E)];
    rewrite E.
  - destruct charts; [|done]. intros [= <-]. simpl. by intros ?%elem_of_nil.
  - intros [= <-]. rewrite !concat_app. simpl. rewrite !app_nil_r.
    rewrite !elem_of_app. intros [Hs|[Hs|Hs]].
    + left. apply elem_of_concat in Hs as (g & Hg & Hs).
      apply list_elem_of_fmap in Hg as (ns & -> & Hns).
      apply elem_of_nativesOf in Hs as (n & Hn & Hm).
      exists n. split; [|done]. apply elem_of_app. left.
      apply elem_of_concat. by exists ns.
    + left. apply elem_of_nativesOf in Hs as (n & Hn & Hm).
      exists n. split; [|done]. apply elem_of_app. by right.
    + by right.
Qed.

Lemma rebuildGroup_eq orch m charts :
  rebuildGroup orch m charts = concat (nativesOf m <$> orch) ++ charts.
Proof.
  unfold rebuildGroup.
  assert (Hfill : ∀ names acc, fillFlat m names acc = acc ++ nativesOf m names).
  { induction names as [|n names IH]; intros acc; simpl.
    - by rewrite app_nil_r.
    - unfold nativesOf. simpl. destruct (m !! n); simpl.
      + rewrite IH. by rewrite <- app_assoc.
      + apply IH. }
  assert (Hreplay : ∀ o acc, replayFlat m o acc = acc ++ concat (nativesOf m <$> o)).
  { induction o as [|g o IH]; intros acc; simpl.
    - by rewrite app_nil_r.
    - rewrite IH, Hfill. by rewrite <- app_assoc. }
  rewrite Hreplay. simpl.
  generalize (concat (nativesOf m <$> orch)) as acc.
  induction charts as [|c charts IH]; intros acc; simpl.
  - by rewrite app_nil_r.
  - rewrite IH. by rewrite <- app_assoc.
Qed.

Lemma rebuildGroup_elem orch m charts s :
  s ∈ rebuildGroup orch m charts →
  (∃ n, n ∈ concat orch ∧ m !! n = Some s) ∨ s ∈ charts.
Proof.
  rewrite rebuildGroup_eq, elem_of_app. intros [Hs|Hs]; [left|by right].
  apply elem_of_concat in Hs as (g & Hg & Hs).
  apply list_elem_of_fmap in Hg as (ns & -> & Hns).
  apply elem_of_nativesOf in Hs as (n & Hn & Hm).
  exists n. split; [|done]. apply elem_of_concat. by exists ns.
Qed.

(* --------------------------------------------------------------------- *)
(** ** The two maps of the classifier *)
(* --------------------------------------------------------------------- *)

Lemma GetServiceMap_keyed p : keyedByServiceName (GetServiceMap p).
Proof.
  unfold GetServiceMap.
  assert (H : ∀ l m0, keyedByServiceName m0 →
    keyedByServiceName (fold_left
      (λ m svc, if FromZadig svc then <[ServiceName svc:=svc]> m else m) l m0)).
  { induction l as [|x l IH]; intros m0 H0; simpl; [done|].
    apply IH. destruct (FromZadig x) eqn:E; [|done].
    intros k s. rewrite lookup_insert. case_decide; [|by apply H0].
    intros [= <-]. done. }
  apply H. intros k s. by rewrite lookup_empty.
Qed.

Lemma GetChartServiceMap_keyed p : keyedByReleaseName (GetChartServiceMap p).
Proof.
  unfold GetChartServiceMap.
  assert (H : ∀ l m0, keyedByReleaseName m0 →
    keyedByReleaseName (fold_left
      (λ m svc, if FromZadig svc then m else <[ReleaseName svc:=svc]> m) l m0)).
  { induction l as [|x l IH]; intros m0 H0; simpl; [done|].
    apply IH. destruct (FromZadig x) eqn:E; [done|].
    intros k s. rewrite lookup_insert. case_decide; [|by apply H0].
    intros [= <-]. done. }
  apply H. intros k s. by rewrite lookup_empty.
Qed.


Lemma dropFirstRelease_cases rel visit m :
  (dropFirstRelease rel visit m = m ∧ ∀ k s, (k, s) ∈ visit → ReleaseName s ≠ rel)
  ∨ (∃ k svc, (k, svc) ∈ visit ∧ ReleaseName svc = rel ∧
       dropFirstRelease rel visit m = delete (ServiceName svc) m).
Proof.
  induction visit as [|[k svc] visit IH]; simpl.
  - left. split; [done|]. by intros k s ?%elem_of_nil.
  - case_decide as Hrel.
    + right. exists k, svc. split; [left|done].
    + destruct IH as [[E Hno]|(k' & svc' & Hin & Hr & E)].
      * left. split; [done|]. intros k' s' [[= -> ->]|Hin]%elem_of_cons; [done|].
        by eapply Hno.
      * right. exists k', svc'. split; [by right|done].
Qed.

Lemma dropFirstRelease_lookup rel visit m k s :
  dropFirstRelease rel visit m !! k = Some s → m !! k = Some s.
Proof.
  destruct (dropFirstRelease_cases rel visit m) as [[-> _]|(k' & svc & _ & _ & ->)];
    [done|].
  rewrite lookup_delete. by case_decide.
Qed.

(* --------------------------------------------------------------------- *)
(** ** Runs *)
(* --------------------------------------------------------------------- *)

Ltac run_eval :=
  unfold StartTransaction, CommitTransaction, AbortTransaction, orPanic,
    defer, emit, ret, throw, panic, bind; cbn.

(** The locked stretch of a trace that is known event by event. *)
Ltac give_body :=
  first
    [ exists []; split; [reflexivity|]
    | eexists [_]; split; [reflexivity|]
    | eexists [_; _]; split; [reflexivity|]
    | eexists [_; _; _]; split; [reflexivity|]
    | eexists [_; _; _; _]; split; [reflexivity|]
    | eexists [_; _; _; _; _]; split; [reflexivity|]
    | eexists [_; _; _; _; _; _]; split; [reflexivity|] ].

Ltac solve_discipline :=
  unfold lockDiscipline; cbn;
  first
    [ eexists [_; _]; give_body
    | eexists [_; _; _]; give_body
    | eexists [_; _; _; _]; give_body ];
  cbn; repeat split; first [done | intros; congruence].

Ltac find_event :=
  solve [ repeat first [ apply list_elem_of_here | apply list_elem_of_further ] ].

Ltac only_write Hin :=
  repeat (apply elem_of_cons in Hin as [->|Hin]; [cbn; try done; congruence|]);
  by apply elem_of_nil in Hin.

Section Facts.
Context `{C : Collaborators}.

Lemma elem_of_rangeOrder (m : gmap string ProductService) k s :
  (k, s) ∈ rangeOrder m ↔ m !! k = Some s.
Proof. rewrite (rangeOrder_perm m). apply elem_of_map_to_list. Qed.


Lemma elem_of_chartServices (m : gmap string ProductService) s :
  s ∈ chartServices m ↔ ∃ k, m !! k = Some s.
Proof.
  unfold chartServices. rewrite list_elem_of_fmap. split.
  - intros ([k s'] & -> & H). exists k. by apply elem_of_rangeOrder.
  - intros [k H]. exists (k, s). split; [done|]. by apply elem_of_rangeOrder.
Qed.

Lemma chartServices_nil (m : gmap string ProductService) :
  chartServices m = [] ↔ m = ∅.
Proof.
  split.
  - intros E. apply map_empty. intros k. destruct (m !! k) as [s|] eqn:Hk; [|done].
    assert (s ∈ chartServices m) as Hs by (apply elem_of_chartServices; eauto).
    rewrite E in Hs. by apply elem_of_nil in Hs.
  - intros ->. destruct (chartServices ∅) as [|s l] eqn:E; [done|].
    assert (s ∈ chartServices ∅) as Hs by (rewrite E; left).
    apply elem_of_chartServices in Hs as [k Hk]. by rewrite lookup_empty in Hk.
Qed.

Lemma mergeProductSvc_keyed productSvc m c :
  keyedByServiceName m → keyedByReleaseName c →
  keyedByServiceName (mergeProductSvc productSvc m c).1 ∧
  keyedByReleaseName (mergeProductSvc productSvc m c).2.
Proof.
  intros Hm Hc. unfold mergeProductSvc. destruct (FromZadig productSvc) eqn:E; simpl; split.
  - intros k s. rewrite lookup_insert. case_decide; [|by apply Hm].
    intros [= <-]. done.
  - intros k s. rewrite lookup_delete. case_decide; [done|]. apply Hc.
  - intros k s Hk. apply dropFirstRelease_lookup in Hk. by apply Hm.
  - intros k s. rewrite lookup_insert. case_decide; [|by apply Hc].
    intros [= <-]. done.
Qed.


Lemma rebuilt_natives orch (sm cm : gmap string ProductService) out :
  keyedByServiceName sm → keyedByReleaseName cm →
  rebuildServices orch sm (chartServices cm) = Some out →
  nativesFromTemplate orch out.
Proof.
  intros Hs Hc Hr s Hin Hnat.
  destruct (rebuildServices_elem _ _ _ _ _ Hr Hin) as [(n & Hn & Hm)|Hch].
  - destruct (Hs _ _ Hm) as [-> _]. done.
  - apply elem_of_chartServices in Hch as [k Hk].
    destruct (Hc _ _ Hk) as [_ Himp]. congruence.
Qed.

Lemma rebuiltGroup_natives orch (sm cm : gmap string ProductService) :
  keyedByServiceName sm → keyedByReleaseName cm →
  nativesFromTemplate orch [rebuildGroup orch sm (chartServices cm)].
Proof.
  intros Hs Hc s Hin Hnat. simpl in Hin. rewrite app_nil_r in Hin.
  destruct (rebuildGroup_elem _ _ _ _ Hin) as [(n & Hn & Hm)|Hch].
  - destruct (Hs _ _ Hm) as [-> _]. done.
  - apply elem_of_chartServices in Hch as [k Hk].
    destruct (Hc _ _ Hk) as [_ Himp]. congruence.
Qed.

(** A native service the orchestration does not name leaves no native of
    its name in the grouped list. *)
Lemma nativesFromTemplate_drops orch groups s :
  nativesFromTemplate orch groups →
  ServiceName s ∉ concat orch →
  ∀ s', s' ∈ concat groups → FromZadig s' = true → ServiceName s' ≠ ServiceName s.
Proof. intros H Hs s' Hin Hnat E. apply Hs. rewrite <- E. by apply H. Qed.

(* --------------------------------------------------------------------- *)
(** ** The claims about the commit operations *)
(* --------------------------------------------------------------------- *)

(** C1, as the code has it.  In each of [UpdateHelmServiceInEnv],
    [UpdateHelmAllServicesInEnv] and [UpdateHelmServicesGroupInEnv] the
    storage transaction is begun first and the lock named after
    (productName, envName) is acquired after it.  When the transaction
    cannot be begun the call returns with no lock taken.  Otherwise the
    lock is taken once, every commit or abort of the transaction happens
    while it is held (exactly one, unless the call panics), and the lock is
    released on every exit path, last but for the end of the session. *)
Theorem lock_taken_inside_transaction :
  (∀ product productSvc user,
     let r := UpdateHelmServiceInEnv product productSvc user in
     let key := lockName (ProductName (LintServices product))
                  (EnvName (LintServices product)) in
     transactionBeforeLock r.1 = true ∧
     match startTransaction with
     | Some e => r = ([EvSession; EvStartTransaction; EvEndSession], Err e)
     | None => lockDiscipline key r
     end)
  ∧ (∀ productName envName services production,
     let r := UpdateHelmAllServicesInEnv productName envName services production in
     transactionBeforeLock r.1 = true ∧
     match startTransaction with
     | Some e => r = ([EvSession; EvStartTransaction; EvEndSession], Err e)
     | None => lockDiscipline (lockName productName envName) r
     end)
  ∧ (∀ productName envName index group production,
     let r := UpdateHelmServicesGroupInEnv productName envName index group production in
     transactionBeforeLock r.1 = true ∧
     match startTransaction with
     | Some e => r = ([EvSession; EvStartTransaction; EvEndSession], Err e)
     | None => lockDiscipline (lockName productName envName) r
     end).
Proof.
  split; [|split].
  - intros product productSvc user r key. subst r key.
    unfold UpdateHelmServiceInEnv.
    destruct startTransaction as [e|] eqn:E1; run_eval; rewrite ?E1; cbn; [done|].
    split.
    { destruct createEnvServiceVersion; reflexivity. }
    destruct createEnvServiceVersion; cbn;
      (destruct (productFind _ _) as [e1|info]; cbn; [solve_discipline|]);
      (destruct (mergeProductSvc _ _ _) as [sm cm]; cbn);
      (destruct (templateFind _) as [e2|t]; cbn; [solve_discipline|]);
      (destruct (rebuildServices _ _ _) as [svcs|]; cbn; [|solve_discipline]);
      (destruct (productUpdate _); cbn; [solve_discipline|]);
      (destruct commitTransaction; cbn; solve_discipline).
  - intros productName envName services production r. subst r.
    unfold UpdateHelmAllServicesInEnv.
    destruct startTransaction as [e|] eqn:E1; run_eval; rewrite ?E1; cbn; [done|].
    split; [reflexivity|].
    destruct (templateFind _) as [e2|t]; cbn; [solve_discipline|].
    destruct (rebuildServices _ _ _) as [svcs|]; cbn; [|solve_discipline].
    destruct (updateAllServices _ _ _); cbn; [solve_discipline|].
    destruct commitTransaction; cbn; solve_discipline.
  - intros productName envName index group production r. subst r.
    unfold UpdateHelmServicesGroupInEnv.
    destruct startTransaction as [e|] eqn:E1; run_eval; rewrite ?E1; cbn; [done|].
    split; [reflexivity|].
    destruct (templateFind _) as [e2|t]; cbn; [solve_discipline|].
    destruct (updateServicesGroup _ _ _ _); cbn; [solve_discipline|].
    destruct commitTransaction; cbn; solve_discipline.
Qed.



(** C9.  After the replay the rebuilt list has one group per template
    group, so the chart services are appended at index (number of groups -
    1).  With at least one template group the index is in bounds and the
    append goes through; with an empty orchestration and a chart service to
    append the index is -1 and the append panics.  So in
    [UpdateHelmServiceInEnv] and [UpdateHelmAllServicesInEnv], once the
    transaction is begun and the lookups have answered, a non-empty
    orchestration never panics and an empty one panics whenever the chart
    map is not empty. *)
Theorem chart_append_index_bounds :
  (∀ orch (m : gmap string ProductService) charts,
     ∃ groups,
       replayOrchestration m 0 orch [] = Some groups ∧
       lastIndex groups = (Z.of_nat (length orch) - 1)%Z ∧
       (orch ≠ [] →
          (0 ≤ lastIndex groups < Z.of_nat (length groups))%Z ∧
          is_Some (appendChartServices charts groups)) ∧
       (orch = [] → charts ≠ [] →
          lastIndex groups = (-1)%Z ∧
          (∀ service, appendAt groups (lastIndex groups) service = None) ∧
          appendChartServices charts groups = None))
  ∧ (∀ product productSvc user info t,
       let product' := LintServices product in
       let maps := mergeProductSvc productSvc (GetServiceMap (LintServices info))
                     (GetChartServiceMap (LintServices info)) in
       let r := UpdateHelmServiceInEnv product productSvc user in
       startTransaction = None →
       productFind (ProductName product') (EnvName product') = inr info →
       templateFind (ProductName product') = inr t →
       (selectOrchestration t (Production product') ≠ [] → r.2 ≠ Panic) ∧
       (selectOrchestration t (Production product') = [] → maps.2 ≠ ∅ → r.2 = Panic))
  ∧ (∀ productName envName services production t,
       let env := LintServices (dummyProduct services) in
       let r := UpdateHelmAllServicesInEnv productName envName services production in
       startTransaction = None →
       templateFind productName = inr t →
       (selectOrchestration t production ≠ [] → r.2 ≠ Panic) ∧
       (selectOrchestration t production = [] → GetChartServiceMap env ≠ ∅ → r.2 = Panic)).
Proof.
  split; [|split].
  - intros orch m charts. exists (nativesOf m <$> orch).
    change 0%nat with (length (@nil (list ProductService))).
    rewrite replayOrchestration_closed. simpl.
    split; [done|]. unfold lastIndex. rewrite length_fmap. split; [done|]. split.
    + intros Hne. split; [destruct orch; [done|simpl; lia]|].
      destruct orch as [|g orch _] using rev_ind; [done|].
      rewrite fmap_app. simpl. rewrite appendChartServices_last. eauto.
    + intros -> Hc. simpl. split; [done|]. split; [done|]. by destruct charts.
  - intros product productSvc user info t product' maps r E1 E2 E3. subst product' maps r.
    unfold UpdateHelmServiceInEnv. run_eval. rewrite E1. cbn.
    destruct (rebuildServices_cases (selectOrchestration t (Production (LintServices product)))
      (mergeProductSvc productSvc (GetServiceMap (LintServices info))
         (GetChartServiceMap (LintServices info))).1
      (chartServices (mergeProductSvc productSvc (GetServiceMap (LintServices info))
         (GetChartServiceMap (LintServices info))).2))
      as [[E Hr]|(pre & names & E & Hr)].
    + split; [done|]. intros _ Hne.
      apply (not_iff_compat (chartServices_nil _)) in Hne.
      destruct createEnvServiceVersion; cbn; rewrite E2; cbn;
        (destruct (mergeProductSvc _ _ _) as [sm cm]; cbn in *; rewrite E3; cbn;
         rewrite Hr; by destruct (chartServices cm)).
    + split; [|intros E'; rewrite E' in E; by destruct pre]. intros _.
      destruct createEnvServiceVersion; cbn; rewrite E2; cbn;
        (destruct (mergeProductSvc _ _ _) as [sm cm]; cbn in *; rewrite E3; cbn;
         rewrite Hr; cbn;
         destruct (productUpdate _); cbn; [|destruct commitTransaction; cbn]; done).
  - intros productName envName services production t env r E1 E3. subst env r.
    unfold UpdateHelmAllServicesInEnv. run_eval. rewrite E1. cbn. rewrite E3. cbn.
    destruct (rebuildServices_cases (selectOrchestration t production)
      (GetServiceMap (LintServices (dummyProduct services)))
      (chartServices (GetChartServiceMap (LintServices (dummyProduct services)))))
      as [[E Hr]|(pre & names & E & Hr)]; rewrite Hr.
    + split; [done|]. intros _ Hne.
      apply (not_iff_compat (chartServices_nil _)) in Hne.
      by destruct (chartServices _).
    + split; [|intros E'; rewrite E' in E; by destruct pre]. intros _. cbn.
      destruct (updateAllServices _ _ _); cbn; [|destruct commitTransaction; cbn]; done.
Qed.

(** C10.  When a commit operation returns without error, its run holds
    exactly one storage write, and every Zadig-native service of the
    grouped list that write persists is named by the selected template
    orchestration.  A native service whose name no template group lists is
    therefore absent from the committed list, with no error reported. *)
Theorem committed_natives_come_from_template :
  (∀ product productSvc user,
     let product' := LintServices product in
     let r := UpdateHelmServiceInEnv product productSvc user in
     r.2 = Ret tt →
     ∃ t p,
       templateFind (ProductName product') = inr t ∧
       EvUpdate p ∈ r.1 ∧
       (∀ ev groups, ev ∈ r.1 → persistedServices ev = Some groups → groups = Services p) ∧
       nativesFromTemplate (selectOrchestration t (Production product')) (Services p))
  ∧ (∀ productName envName services production,
     let r := UpdateHelmAllServicesInEnv productName envName services production in
     r.2 = Ret tt →
     ∃ t out,
       templateFind productName = inr t ∧
       EvUpdateAllServices productName envName out ∈ r.1 ∧
       (∀ ev groups, ev ∈ r.1 → persistedServices ev = Some groups → groups = out) ∧
       nativesFromTemplate (selectOrchestration t production) out)
  ∧ (∀ productName envName index group production,
     let r := UpdateHelmServicesGroupInEnv productName envName index group production in
     r.2 = Ret tt →
     ∃ t newGroup,
       templateFind productName = inr t ∧
       EvUpdateServicesGroup productName envName index newGroup ∈ r.1 ∧
       (∀ ev groups, ev ∈ r.1 → persistedServices ev = Some groups → groups = [newGroup]) ∧
       nativesFromTemplate (selectOrchestration t production) [newGroup]).
Proof.
  split; [|split].
  - intros product productSvc user product' r. subst product' r.
    unfold UpdateHelmServiceInEnv.
    destruct startTransaction eqn:E1; run_eval; rewrite ?E1; cbn; [done|].
    destruct createEnvServiceVersion; cbn;
      (destruct (productFind _ _) as [e1|info] eqn:E2; cbn; [done|]);
      (pose proof (mergeProductSvc_keyed productSvc _ _
         (GetServiceMap_keyed (LintServices info))
         (GetChartServiceMap_keyed (LintServices info))) as [Hks Hkc]);
      (destruct (mergeProductSvc _ _ _) as [sm cm]; cbn in *);
      (destruct (templateFind _) as [e2|t] eqn:E3; cbn; [done|]);
      (destruct (rebuildServices _ _ _) as [svcs|] eqn:E4; cbn; [|done]);
      (destruct (productUpdate _); cbn; [done|]);
      (destruct commitTransaction; cbn; [done|]);
      intros _; exists t; eexists; (split; [done|]);
      (split; [find_event|]);
      (split; [|by eapply rebuilt_natives]);
      intros ev groups Hin; only_write Hin.
  - intros productName envName services production r. subst r.
    unfold UpdateHelmAllServicesInEnv.
    destruct startTransaction eqn:E1; run_eval; rewrite ?E1; cbn; [done|].
    destruct (templateFind _) as [e2|t] eqn:E3; cbn; [done|].
    destruct (rebuildServices _ _ _) as [svcs|] eqn:E4; cbn; [|done].
    destruct (updateAllServices _ _ _); cbn; [done|].
    destruct commitTransaction; cbn; [done|].
    intros _. exists t, svcs. split; [done|]. split; [find_event|].
    split.
    + intros ev groups Hin. only_write Hin.
    + eapply rebuilt_natives; [apply GetServiceMap_keyed|apply GetChartServiceMap_keyed|done].
  - intros productName envName index group production r. subst r.
    unfold UpdateHelmServicesGroupInEnv.
    destruct startTransaction eqn:E1; run_eval; rewrite ?E1; cbn; [done|].
    destruct (templateFind _) as [e2|t] eqn:E3; cbn; [done|].
    destruct (updateServicesGroup _ _ _ _); cbn; [done|].
    destruct commitTransaction; cbn; [done|].
    intros _. exists t. eexists. split; [done|]. split; [find_event|].
    split.
    + intros ev groups Hin. only_write Hin.
    + apply rebuiltGroup_natives; [apply GetServiceMap_keyed|apply GetChartServiceMap_keyed].
Qed.

End Facts.

(* --------------------------------------------------------------------- *)
(** ** The claims at concrete inputs *)
(* --------------------------------------------------------------------- *)

(** The example of the spec: template [[a,b],[c]], the native update [b'],
    one imported release [r]. *)
Example reconcile_example :
  ∃ tr,
    UpdateHelmServiceInEnv (C:=demo) demoEnv svcB' "alice" = (tr, Ret tt) ∧
    EvUpdate (setServices [[svcA; setUpdateTime (@now demo) svcB']; [svcC; chartR]] demoEnv)
      ∈ tr.
Proof. eexists. split; [vm_compute; reflexivity|]. find_event. Qed.

(** A native service the template does not name is dropped, silently. *)
Example unlisted_native_dropped :
  ∃ tr,
    UpdateHelmAllServicesInEnv (C:=demo) "proj" "dev" [[svcA; svcX]; [chartR]] false
    = (tr, Ret tt) ∧
    EvUpdateAllServices "proj" "dev" [[svcA]; [chartR]] ∈ tr.
Proof. eexists. split; [vm_compute; reflexivity|]. find_event. Qed.

(** C1 fails as stated: in a run of [UpdateHelmAllServicesInEnv] the lock
    is not acquired before the transaction is begun. *)
Lemma lock_before_transaction_counterexample :
  lockBeforeTransaction
    (UpdateHelmAllServicesInEnv (C:=demo) "proj" "dev" [] false).1 = false.
Proof. vm_compute. reflexivity. Qed.




Lemma chart_append_index_bounds_witness :
  (UpdateHelmAllServicesInEnv (C:=demo) "proj" "dev" [[chartR]] false).2 ≠ Panic
  ∧ (UpdateHelmAllServicesInEnv (C:=demoEmpty) "proj" "dev" [[chartR]] false).2 = Panic.
Proof.
  split.
  - apply (proj2 (proj2 (chart_append_index_bounds (C:=demo))) "proj" "dev" [[chartR]] false
             demoTemplate eq_refl eq_refl).
    discriminate.
  - apply (proj2 (proj2 (chart_append_index_bounds (C:=demoEmpty))) "proj" "dev" [[chartR]]
             false emptyTemplate eq_refl eq_refl).
    + reflexivity.
    + intros E. apply (f_equal (lookup "r")) in E. vm_compute in E. discriminate.
Defined.

Lemma committed_natives_come_from_template_witness :
  ∃ t out,
    templateFind (Collaborators := demo) "proj" = inr t ∧
    EvUpdateAllServices "proj" "dev" out
      ∈ (UpdateHelmAllServicesInEnv (C:=demo) "proj" "dev" [[svcA; svcX]; [chartR]] false).1 ∧
    (∀ ev groups,
       ev ∈ (UpdateHelmAllServicesInEnv (C:=demo) "proj" "dev" [[svcA; svcX]; [chartR]] false).1 →
       persistedServices ev = Some groups → groups = out) ∧
    nativesFromTemplate (selectOrchestration t false) out.
Proof.
  apply (proj1 (proj2 (committed_natives_come_from_template (C:=demo))) "proj" "dev"
           [[svcA; svcX]; [chartR]] false).
  vm_compute. reflexivity.
Defined.

(* --------------------------------------------------------------------- *)
(** ** Further properties of the commit operations *)
(* --------------------------------------------------------------------- *)

Ltac tally := repeat split; first [done | lia].

Section MoreFacts.
Context `{C : Collaborators}.

(** X1.  How a commit operation leaves its transaction.  A nil return
    follows exactly one storage write and one commit, with no abort.  An
    error return follows either a failed begin (nothing else happened), or
    exactly one abort and no commit, or the commit call itself failing
    after the one write.  A panic leaves the transaction neither committed
    nor aborted, with nothing written. *)
Theorem transaction_settled_by_outcome :
  ∀ r : Run unit,
    (∃ product productSvc user, r = UpdateHelmServiceInEnv product productSvc user)
    ∨ (∃ productName envName services production,
         r = UpdateHelmAllServicesInEnv productName envName services production)
    ∨ (∃ productName envName index group production,
         r = UpdateHelmServicesGroupInEnv productName envName index group production) →
    let commits := countEvents isCommit r.1 in
    let aborts := countEvents isAbort r.1 in
    let writes := countEvents isWrite r.1 in
    match r.2 with
    | Ret _ => commits = 1%nat ∧ aborts = 0%nat ∧ writes = 1%nat ∧ commitTransaction = None
    | Err e =>
        (startTransaction = Some e ∧ commits = 0%nat ∧ aborts = 0%nat ∧ writes = 0%nat)
        ∨ (commits = 0%nat ∧ aborts = 1%nat ∧ (writes ≤ 1)%nat)
        ∨ (commitTransaction = Some e ∧ commits = 1%nat ∧ aborts = 0%nat ∧ writes = 1%nat)
    | Panic => commits = 0%nat ∧ aborts = 0%nat ∧ writes = 0%nat
    end.
Proof.
  intros r [(product & productSvc & user & ->)
           |[(productName & envName & services & production & ->)
            |(productName & envName & index & group & production & ->)]]; cbn zeta.
  - unfold UpdateHelmServiceInEnv.
    destruct startTransaction as [e|] eqn:E1; run_eval; rewrite ?E1; cbn; [left; tally|].
    destruct createEnvServiceVersion; cbn;
      (destruct (productFind _ _) as [e1|info]; cbn; [right; left; tally|]);
      (destruct (mergeProductSvc _ _ _) as [sm cm]; cbn);
      (destruct (templateFind _) as [e2|t]; cbn; [right; left; tally|]);
      (destruct (rebuildServices _ _ _) as [svcs|]; cbn; [|tally]);
      (destruct (productUpdate _); cbn; [right; left; tally|]);
      (destruct commitTransaction eqn:E5; cbn; [right; right; tally|tally]).
  - unfold UpdateHelmAllServicesInEnv.
    destruct startTransaction as [e|] eqn:E1; run_eval; rewrite ?E1; cbn; [left; tally|].
    destruct (templateFind _) as [e2|t]; cbn; [right; left; tally|].
    destruct (rebuildServices _ _ _) as [svcs|]; cbn; [|tally].
    destruct (updateAllServices _ _ _); cbn; [right; left; tally|].
    destruct commitTransaction eqn:E5; cbn; [right; right; tally|tally].
  - unfold UpdateHelmServicesGroupInEnv.
    destruct startTransaction as [e|] eqn:E1; run_eval; rewrite ?E1; cbn; [left; tally|].
    destruct (templateFind _) as [e2|t]; cbn; [right; left; tally|].
    destruct (updateServicesGroup _ _ _ _); cbn; [right; left; tally|].
    destruct commitTransaction eqn:E5; cbn; [right; right; tally|tally].
Qed.

(** X2.  When the transaction is begun and a lookup fails, nothing is
    written: the run aborts the transaction once, writes no grouped list and
    returns the error of the lookup wrapped with the product name.  This
    holds for the environment lookup of [UpdateHelmServiceInEnv] and for the
    template lookup of all three operations. *)
Theorem failed_lookup_writes_nothing :
  (∀ product productSvc user e,
     let name := ProductName (LintServices product) in
     let r := UpdateHelmServiceInEnv product productSvc user in
     startTransaction = None →
     productFind name (EnvName (LintServices product)) = inl e →
     r.2 = Err ("failed to find product " +:+ name +:+ ": " +:+ e) ∧
     countEvents isWrite r.1 = 0%nat ∧ countEvents isAbort r.1 = 1%nat ∧
     countEvents isCommit r.1 = 0%nat)
  ∧ (∀ product productSvc user info e,
     let name := ProductName (LintServices product) in
     let r := UpdateHelmServiceInEnv product productSvc user in
     startTransaction = None →
     productFind name (EnvName (LintServices product)) = inr info →
     templateFind name = inl e →
     r.2 = Err ("failed to find template product " +:+ name +:+ ": " +:+ e) ∧
     countEvents isWrite r.1 = 0%nat ∧ countEvents isAbort r.1 = 1%nat ∧
     countEvents isCommit r.1 = 0%nat)
  ∧ (∀ productName envName services production e,
     let r := UpdateHelmAllServicesInEnv productName envName services production in
     startTransaction = None →
     templateFind productName = inl e →
     r.2 = Err ("failed to find template product " +:+ productName +:+ ": " +:+ e) ∧
     countEvents isWrite r.1 = 0%nat ∧ countEvents isAbort r.1 = 1%nat ∧
     countEvents isCommit r.1 = 0%nat)
  ∧ (∀ productName envName index group production e,
     let r := UpdateHelmServicesGroupInEnv productName envName index group production in
     startTransaction = None →
     templateFind productName = inl e →
     r.2 = Err ("failed to find template product " +:+ productName +:+ ": " +:+ e) ∧
     countEvents isWrite r.1 = 0%nat ∧ countEvents isAbort r.1 = 1%nat ∧
     countEvents isCommit r.1 = 0%nat).
Proof.
  split; [|split; [|split]].
  - intros product productSvc user e name r E1 E2. subst name r.
    unfold UpdateHelmServiceInEnv. run_eval. rewrite E1. cbn.
    destruct createEnvServiceVersion; cbn; rewrite E2; cbn; tally.
  - intros product productSvc user info e name r E1 E2 E3. subst name r.
    unfold UpdateHelmServiceInEnv. run_eval. rewrite E1. cbn.
    destruct createEnvServiceVersion; cbn; rewrite E2; cbn;
      (destruct (mergeProductSvc _ _ _) as [sm cm]; cbn; rewrite E3; cbn; tally).
  - intros productName envName services production e r E1 E3. subst r.
    unfold UpdateHelmAllServicesInEnv. run_eval. rewrite E1. cbn. rewrite E3. cbn. tally.
  - intros productName envName index group production e r E1 E3. subst r.
    unfold UpdateHelmServicesGroupInEnv. run_eval. rewrite E1. cbn. rewrite E3. cbn. tally.
Qed.

(** X3.  [UpdateHelmServiceInEnv] rebuilds the environment it reads inside
    the transaction, not the caller's copy: of the caller's product only
    the product name, the environment name and the production flag (after
    [LintServices]) reach the result.  Two calls that agree on these return
    the same outcome and perform the same storage writes, and a written
    document keeps the names of the stored environment. *)
Theorem update_uses_stored_environment :
  (∀ product product' productSvc user user',
     ProductName (LintServices product) = ProductName (LintServices product') →
     EnvName (LintServices product) = EnvName (LintServices product') →
     Production (LintServices product) = Production (LintServices product') →
     let r := UpdateHelmServiceInEnv product productSvc user in
     let r' := UpdateHelmServiceInEnv product' productSvc user' in
     r.2 = r'.2 ∧ List.filter isWrite r.1 = List.filter isWrite r'.1)
  ∧ (∀ product productSvc user p,
     EvUpdate p ∈ (UpdateHelmServiceInEnv product productSvc user).1 →
     ∃ info,
       productFind (ProductName (LintServices product)) (EnvName (LintServices product))
       = inr info ∧
       ProductName p = ProductName (LintServices info) ∧
       EnvName p = EnvName (LintServices info) ∧
       Production p = Production (LintServices info)).
Proof.
  split.
  - intros product product' productSvc user user' Hn He Hp r r'. subst r r'.
    unfold UpdateHelmServiceInEnv. run_eval. rewrite <- Hn, <- He, <- Hp.
    destruct startTransaction as [e|]; cbn; [done|].
    destruct createEnvServiceVersion; cbn;
      (destruct (productFind _ _) as [e1|info]; cbn; [done|]);
      (destruct (mergeProductSvc _ _ _) as [sm cm]; cbn);
      (destruct (templateFind _) as [e2|t]; cbn; [done|]);
      (destruct (rebuildServices _ _ _) as [svcs|]; cbn; [|done]);
      (destruct (productUpdate _); cbn; [done|]);
      (destruct commitTransaction; cbn; done).
  - intros product productSvc user p. unfold UpdateHelmServiceInEnv. run_eval.
    destruct startTransaction as [e|]; cbn;
      [intros Hin; repeat (apply elem_of_cons in Hin as [?|Hin]; [done|]);
       by apply elem_of_nil in Hin|].
    destruct createEnvServiceVersion; cbn;
      (destruct (productFind _ _) as [e1|info]; cbn;
       [intros Hin; repeat (apply elem_of_cons in Hin as [?|Hin]; [done|]);
        by apply elem_of_nil in Hin|]);
      (destruct (mergeProductSvc _ _ _) as [sm cm]; cbn);
      (destruct (templateFind _) as [e2|t]; cbn;
       [intros Hin; repeat (apply elem_of_cons in Hin as [?|Hin]; [done|]);
        by apply elem_of_nil in Hin|]);
      (destruct (rebuildServices _ _ _) as [svcs|]; cbn;
       [|intros Hin; repeat (apply elem_of_cons in Hin as [?|Hin]; [done|]);
         by apply elem_of_nil in Hin]);
      (destruct (productUpdate _); cbn; [|destruct commitTransaction; cbn]);
      intros Hin; exists info; (split; [done|]);
      repeat (apply elem_of_cons in Hin as [Heq|Hin];
              [first [discriminate Heq | by injection Heq as ->]|]);
      by apply elem_of_nil in Hin.
Qed.

(** X4.  Flattened, the grouped list the full rebuild writes is the single
    group the group rebuild writes: the natives of all template names in
    declaration order (a name listed twice is taken twice) followed by the
    chart services.  So for a non-empty orchestration
    [UpdateHelmServicesGroupInEnv] called with one group writes the
    concatenation of what [UpdateHelmAllServicesInEnv] writes for that
    group. *)
Theorem group_rebuild_is_flattened_rebuild :
  (∀ orch (m : gmap string ProductService) charts,
     rebuildGroup orch m charts = nativesOf m (concat orch) ++ charts ∧
     (orch ≠ [] →
      ∃ out, rebuildServices orch m charts = Some out ∧
             concat out = rebuildGroup orch m charts))
  ∧ (∀ productName envName index group production t,
     startTransaction = None →
     templateFind productName = inr t →
     selectOrchestration t production ≠ [] →
     ∃ out newGroup,
       EvUpdateAllServices productName envName out
         ∈ (UpdateHelmAllServicesInEnv productName envName [group] production).1 ∧
       EvUpdateServicesGroup productName envName index newGroup
         ∈ (UpdateHelmServicesGroupInEnv productName envName index group production).1 ∧
       newGroup = concat out).
Proof.
  assert (Hflat : ∀ (m : gmap string ProductService) orch,
            concat (nativesOf m <$> orch) = nativesOf m (concat orch)).
  { intros m orch. induction orch as [|g orch IH]; [done|].
    rewrite fmap_cons. cbn [concat]. rewrite IH. unfold nativesOf. by rewrite omap_app. }
  assert (Hcore : ∀ orch (m : gmap string ProductService) charts,
            orch ≠ [] →
            ∃ out, rebuildServices orch m charts = Some out ∧
                   concat out = rebuildGroup orch m charts).
  { intros orch m charts Hne.
    destruct (rebuildServices_cases orch m charts) as [[E _]|(pre & names & -> & Hr)];
      [done|].
    eexists. split; [exact Hr|].
    rewrite rebuildGroup_eq, fmap_app, !concat_app. simpl.
    rewrite !app_nil_r. by rewrite <- app_assoc. }
  split.
  - intros orch m charts. split; [|by apply Hcore].
    rewrite rebuildGroup_eq. f_equal. apply Hflat.
  - intros productName envName index group production t E1 E3 Hne.
    destruct (Hcore (selectOrchestration t production)
                (GetServiceMap (LintServices (dummyProduct [group])))
                (chartServices (GetChartServiceMap (LintServices (dummyProduct [group]))))
                Hne) as (out & Hr & Hcat).
    exists out. eexists. split; [|split; [|symmetry; exact Hcat]].
    + unfold UpdateHelmAllServicesInEnv. run_eval. rewrite E1. cbn. rewrite E3. cbn.
      rewrite Hr. cbn.
      destruct (updateAllServices _ _ _); cbn; [|destruct commitTransaction; cbn];
        find_event.
    + unfold UpdateHelmServicesGroupInEnv. run_eval. rewrite E1. cbn. rewrite E3. cbn.
      destruct (updateServicesGroup _ _ _ _); cbn; [|destruct commitTransaction; cbn];
        find_event.
Qed.

(** X5.  [UpdateHelmServicesGroupInEnv] never panics.  With an empty
    orchestration it drops every Zadig-native service of the group and
    writes the chart services alone. *)
Theorem group_update_never_panics :
  (∀ productName envName index group production,
     (UpdateHelmServicesGroupInEnv productName envName index group production).2 ≠ Panic)
  ∧ (∀ productName envName index group production t,
     let env := LintServices (dummyProduct [group]) in
     startTransaction = None →
     templateFind productName = inr t →
     selectOrchestration t production = [] →
     EvUpdateServicesGroup productName envName index
       (chartServices (GetChartServiceMap env))
       ∈ (UpdateHelmServicesGroupInEnv productName envName index group production).1).
Proof.
  split.
  - intros productName envName index group production.
    unfold UpdateHelmServicesGroupInEnv.
    destruct startTransaction as [e|] eqn:E1; run_eval; rewrite ?E1; cbn; [done|].
    destruct (templateFind _) as [e2|t]; cbn; [done|].
    destruct (updateServicesGroup _ _ _ _); cbn; [done|].
    destruct commitTransaction; cbn; done.
  - intros productName envName index group production t env E1 E3 Hnil. subst env.
    unfold UpdateHelmServicesGroupInEnv. run_eval. rewrite E1. cbn. rewrite E3. cbn.
    rewrite Hnil.
    replace (rebuildGroup [] _ _)
      with (chartServices (GetChartServiceMap (LintServices (dummyProduct [group]))))
      by (by rewrite rebuildGroup_eq).
    destruct (updateServicesGroup _ _ _ _); cbn; [|destruct commitTransaction; cbn];
      find_event.
Qed.

(** X6.  With an empty orchestration and no chart service the full rebuild
    does not fail: [UpdateHelmAllServicesInEnv] writes the empty grouped
    list, whatever native services it was given. *)
Theorem empty_orchestration_writes_empty_list :
  ∀ productName envName services production t,
    let env := LintServices (dummyProduct services) in
    startTransaction = None →
    templateFind productName = inr t →
    selectOrchestration t production = [] →
    GetChartServiceMap env = ∅ →
    EvUpdateAllServices productName envName []
      ∈ (UpdateHelmAllServicesInEnv productName envName services production).1.
Proof.
  intros productName envName services production t env E1 E3 Hnil Hc. subst env.
  unfold UpdateHelmAllServicesInEnv. run_eval. rewrite E1. cbn. rewrite E3. cbn.
  rewrite Hnil, Hc. rewrite (proj2 (chartServices_nil ∅) eq_refl). cbn.
  destruct (updateAllServices _ _ _); cbn; [|destruct commitTransaction; cbn];
    find_event.
Qed.

(** X7.  The merge of lines 140-155 touches one key of each map.  A native
    update changes the native map only under its service name and the chart
    map only under its release name.  An imported update changes the chart
    map only under its release name; every entry left in the native map was
    there before, at most one entry is gone, and it carried the release
    name. *)
Theorem merge_is_local :
  ∀ productSvc (m c : gmap string ProductService),
    let maps := mergeProductSvc productSvc m c in
    (FromZadig productSvc = true →
       (∀ k, k ≠ ServiceName productSvc → maps.1 !! k = m !! k) ∧
       (∀ k, k ≠ ReleaseName productSvc → maps.2 !! k = c !! k))
    ∧ (FromZadig productSvc = false →
       (∀ k, k ≠ ReleaseName productSvc → maps.2 !! k = c !! k) ∧
       (maps.1 = m ∨
        ∃ k svc, m !! k = Some svc ∧ ReleaseName svc = ReleaseName productSvc ∧
                 maps.1 = delete (ServiceName svc) m)).
Proof.
  intros productSvc m c maps. subst maps. unfold mergeProductSvc.
  split; intros E; rewrite E; simpl.
  - split; intros k Hk.
    + by rewrite lookup_insert_ne.
    + by rewrite lookup_delete_ne.
  - split.
    + intros k Hk. by rewrite lookup_insert_ne.
    + destruct (dropFirstRelease_cases (ReleaseName productSvc) (rangeOrder m) m)
        as [[-> _]|(k & svc & Hin & Hr & ->)]; [by left|].
      right. exists k, svc. split; [by apply elem_of_rangeOrder|done].
Qed.

End MoreFacts.

(* --------------------------------------------------------------------- *)
(** ** Listing the helm repositories *)
(* --------------------------------------------------------------------- *)

Section RepoFacts.
Context `{R : RepoCollaborators}.

Lemma encryptPasswords_inr key (stored out : list (HelmRepo RepoDetails)) :
  encryptPasswords key stored = inr out →
  length out = length stored ∧
  ∀ i helmRepo, stored !! i = Some helmRepo →
    ∃ password,
      AesEncryptByKey (HelmRepo_Password helmRepo) key = inr password ∧
      out !! i = Some (setPassword password helmRepo).
Proof.
  revert out. induction stored as [|r stored IH]; intros out; simpl.
  - intros [= <-]. split; [done|]. intros i helmRepo Hi. done.
  - destruct (AesEncryptByKey _ _) as [e|p] eqn:Ep; [done|].
    destruct (encryptPasswords key stored) as [e|rest] eqn:Er; [done|].
    intros [= <-]. destruct (IH rest eq_refl) as [Hlen Hall].
    split; [simpl; by rewrite Hlen|].
    intros [|i] helmRepo Hi; simpl in *.
    + injection Hi as <-. eauto.
    + by apply Hall.
Qed.

Lemma encryptPasswords_inl key (stored : list (HelmRepo RepoDetails)) helmRepo e :
  helmRepo ∈ stored →
  AesEncryptByKey (HelmRepo_Password helmRepo) key = inl e →
  ∃ e', encryptPasswords key stored = inl e'.
Proof.
  intros Hin He. induction stored as [|r stored IH]; [by apply elem_of_nil in Hin|].
  simpl. apply elem_of_cons in Hin as [<-|Hin].
  - rewrite He. by eexists.
  - destruct (AesEncryptByKey (HelmRepo_Password r) key); [by eexists|].
    destruct (IH Hin) as [e' ->]. by eexists.
Qed.

(** X8.  [ListHelmReposByProject] never returns an error: when the
    collection fails, the failure is logged and the empty list is returned.
    Otherwise it returns one repository per stored repository, in order,
    with the rest of the record untouched, and every returned repository
    has an empty password and no project list. *)
Theorem project_repos_are_scrubbed :
  ∀ projectName,
    ∃ helmRepos,
      (ListHelmReposByProject projectName).2 = inr helmRepos ∧
      Forall (λ helmRepo, HelmRepo_Password helmRepo = "" ∧ HelmRepo_Projects helmRepo = [])
        helmRepos ∧
      match helmRepoListByProject projectName with
      | inl err =>
          helmRepos = [] ∧ (ListHelmReposByProject projectName).1 = ["ListHelmRepos err:" +:+ err]
      | inr stored =>
          HelmRepo_Details <$> helmRepos = HelmRepo_Details <$> stored ∧
          (ListHelmReposByProject projectName).1 = []
      end.
Proof.
  intros projectName. unfold ListHelmReposByProject.
  destruct (helmRepoListByProject projectName) as [err|stored]; cbn.
  - exists []. done.
  - eexists. split; [done|]. split.
    + apply Forall_fmap, Forall_true. done.
    + split; [|done]. rewrite <- list_fmap_compose. done.
Qed.

(** X9.  The error policy of [ListHelmRepos].  A key that cannot be
    recovered is an error.  A failing collection is not: it is logged and
    the empty list is returned with no error.  With the key and the stored
    list at hand, the call returns one repository per stored one, in order,
    each with its password replaced by its encryption under the key; and
    if the encryption of any stored password fails, the call returns an
    error and no list. *)
Theorem list_repos_error_policy :
  ∀ encryptedKey,
    (∀ e, GetAesKeyFromEncryptedKey encryptedKey = inl e →
       (ListHelmRepos encryptedKey).2 = inl e)
    ∧ (∀ plainText e,
       GetAesKeyFromEncryptedKey encryptedKey = inr plainText →
       helmRepoList = inl e →
       ListHelmRepos encryptedKey = (["ListHelmRepos err:" +:+ e], inr []))
    ∧ (∀ plainText stored,
       GetAesKeyFromEncryptedKey encryptedKey = inr plainText →
       helmRepoList = inr stored →
       (∀ out, (ListHelmRepos encryptedKey).2 = inr out →
          length out = length stored ∧
          ∀ i helmRepo, stored !! i = Some helmRepo →
            ∃ password,
              AesEncryptByKey (HelmRepo_Password helmRepo) plainText = inr password ∧
              out !! i = Some (setPassword password helmRepo))
       ∧ (∀ helmRepo e,
          helmRepo ∈ stored →
          AesEncryptByKey (HelmRepo_Password helmRepo) plainText = inl e →
          ∃ e', (ListHelmRepos encryptedKey).2 = inl e')
       ∧ ((∀ helmRepo, helmRepo ∈ stored →
            ∃ password,
              AesEncryptByKey (HelmRepo_Password helmRepo) plainText = inr password) →
          ∃ out, (ListHelmRepos encryptedKey).2 = inr out)).
Proof.
  intros encryptedKey. unfold ListHelmRepos. split; [|split].
  - intros e ->. done.
  - intros plainText e -> ->. done.
  - intros plainText stored -> ->. split; [|split].
    + intros out. destruct (encryptPasswords plainText stored) as [e|enc] eqn:E; [done|].
      cbn. intros [= <-]. by apply encryptPasswords_inr.
    + intros helmRepo e Hin He.
      destruct (encryptPasswords_inl plainText stored helmRepo e Hin He) as [e' ->].
      cbn. eauto.
    + intros Hall. destruct (encryptPasswords plainText stored) as [e|enc] eqn:E;
        [|cbn; eauto].
      exfalso. clear -E Hall. induction stored as [|r stored IH]; [done|].
      simpl in E. pose proof (Hall r ltac:(left)) as Hr.
      destruct Hr as [p Hr]. rewrite Hr in E.
      destruct (encryptPasswords plainText stored) as [e2|rest]; [|done].
      apply IH; [|done]. intros helmRepo Hin. apply Hall. by right.
Qed.

End RepoFacts.

(* --------------------------------------------------------------------- *)
(** ** The further properties at concrete inputs *)
(* --------------------------------------------------------------------- *)

(** A full rebuild in the demo world returns nil: one write, one commit. *)
Lemma transaction_settled_by_outcome_witness :
  countEvents isCommit
    (UpdateHelmAllServicesInEnv (C:=demo) "proj" "dev" [[svcA; svcB]] false).1 = 1%nat
  ∧ countEvents isAbort
      (UpdateHelmAllServicesInEnv (C:=demo) "proj" "dev" [[svcA; svcB]] false).1 = 0%nat
  ∧ countEvents isWrite
      (UpdateHelmAllServicesInEnv (C:=demo) "proj" "dev" [[svcA; svcB]] false).1 = 1%nat.
Proof.
  pose proof (transaction_settled_by_outcome (C:=demo)
                (UpdateHelmAllServicesInEnv (C:=demo) "proj" "dev" [[svcA; svcB]] false)
                (or_intror (or_introl
                   (ex_intro _ "proj" (ex_intro _ "dev" (ex_intro _ [[svcA; svcB]]
                      (ex_intro _ false eq_refl))))))) as Hsettled.
  cbn zeta in Hsettled.
  assert (Hret : (UpdateHelmAllServicesInEnv (C:=demo) "proj" "dev" [[svcA; svcB]] false).2
                 = Ret tt) by (vm_compute; reflexivity).
  rewrite Hret in Hsettled. destruct Hsettled as (Hcommit & Habort & Hwrite & _).
  repeat split; assumption.
Defined.

(** The template collection has no document for the project. *)
Lemma failed_lookup_writes_nothing_witness :
  (UpdateHelmAllServicesInEnv (C:=demoStorage (inr demoEnv) (inl "no documents"))
     "proj" "dev" [[svcA]] false).2
  = Err "failed to find template product proj: no documents"
  ∧ (UpdateHelmServiceInEnv (C:=demoStorage (inl "no documents") (inr demoTemplate))
       demoEnv svcA "alice").2
    = Err "failed to find product proj: no documents".
Proof.
  split.
  - refine (proj1 (proj1 (proj2 (proj2 (failed_lookup_writes_nothing
                                          (C:=demoStorage (inr demoEnv) (inl "no documents")))))
                     "proj" "dev" [[svcA]] false "no documents" _ _));
      reflexivity.
  - refine (proj1 (proj1 (failed_lookup_writes_nothing
                            (C:=demoStorage (inl "no documents") (inr demoTemplate)))
                     demoEnv svcA "alice" "no documents" _ _));
      reflexivity.
Defined.

(** The caller hands in another grouped list under the same names. *)
Lemma update_uses_stored_environment_witness :
  (UpdateHelmServiceInEnv (C:=demo) callerEnv svcB' "alice").2
  = (UpdateHelmServiceInEnv (C:=demo) demoEnv svcB' "bob").2
  ∧ List.filter isWrite (UpdateHelmServiceInEnv (C:=demo) callerEnv svcB' "alice").1
    = List.filter isWrite (UpdateHelmServiceInEnv (C:=demo) demoEnv svcB' "bob").1.
Proof.
  refine (proj1 (update_uses_stored_environment (C:=demo))
            callerEnv demoEnv svcB' "alice" "bob" _ _ _); reflexivity.
Defined.

Lemma group_rebuild_is_flattened_rebuild_witness :
  ∃ out newGroup,
    EvUpdateAllServices "proj" "dev" out
      ∈ (UpdateHelmAllServicesInEnv (C:=demo) "proj" "dev" [[svcA; svcB; chartR]] false).1
    ∧ EvUpdateServicesGroup "proj" "dev" 0 newGroup
        ∈ (UpdateHelmServicesGroupInEnv (C:=demo) "proj" "dev" 0 [svcA; svcB; chartR]
             false).1
    ∧ newGroup = concat out.
Proof.
  refine (proj2 (group_rebuild_is_flattened_rebuild (C:=demo))
            "proj" "dev" 0%Z [svcA; svcB; chartR] false demoTemplate _ _ _).
  - reflexivity.
  - reflexivity.
  - discriminate.
Defined.

(** With the empty template the group keeps its chart release alone. *)
Lemma group_update_never_panics_witness :
  EvUpdateServicesGroup "proj" "dev" 0 [chartR]
    ∈ (UpdateHelmServicesGroupInEnv (C:=demoEmpty) "proj" "dev" 0 [svcA; chartR] false).1.
Proof.
  refine (proj2 (group_update_never_panics (C:=demoEmpty))
            "proj" "dev" 0%Z [svcA; chartR] false emptyTemplate _ _ _); reflexivity.
Defined.

Lemma empty_orchestration_writes_empty_list_witness :
  EvUpdateAllServices "proj" "dev" []
    ∈ (UpdateHelmAllServicesInEnv (C:=demoEmpty) "proj" "dev" [[svcA; svcB]] false).1.
Proof.
  refine (empty_orchestration_writes_empty_list (C:=demoEmpty)
            "proj" "dev" [[svcA; svcB]] false emptyTemplate _ _ _ _); reflexivity.
Defined.

(** The native update of "b" leaves the entry of "a" alone. *)
Lemma merge_is_local_witness :
  (mergeProductSvc (C:=demo) svcB' (<["a" := svcA]> (<["b" := svcB]> ∅)) ∅).1 !! "a"
  = Some svcA.
Proof.
  refine (proj1 (proj1 (merge_is_local (C:=demo) svcB'
                          (<["a" := svcA]> (<["b" := svcB]> ∅)) ∅) _) "a" _).
  - reflexivity.
  - discriminate.
Defined.

(** One stored password is empty, and the encryption refuses it; and a
    key that cannot be recovered is an error. *)
Lemma list_repos_error_policy_witness :
  (∃ e, (ListHelmRepos (R:=demoRepos (inr "k") (inr blankHelmRepos)) "enc").2 = inl e)
  ∧ (ListHelmRepos (R:=demoRepos (inl "bad key") (inr demoHelmRepos)) "enc").2
    = inl "bad key"
  ∧ ListHelmRepos (R:=demoRepos (inr "k") (inl "connection refused")) "enc"
    = (["ListHelmRepos err:connection refused"], inr []).
Proof.
  split; [|split].
  - refine (proj1 (proj2 (proj2 (proj2 (list_repos_error_policy
                                          (R:=demoRepos (inr "k") (inr blankHelmRepos))
                                          "enc"))
                                   "k" blankHelmRepos _ _))
              (mkHelmRepo "" [] ()) "empty input" _ _).
    + reflexivity.
    + reflexivity.
    + apply list_elem_of_further, list_elem_of_here.
    + reflexivity.
  - refine (proj1 (list_repos_error_policy
                     (R:=demoRepos (inl "bad key") (inr demoHelmRepos)) "enc")
              "bad key" _).
    reflexivity.
  - refine (proj1 (proj2 (list_repos_error_policy
                            (R:=demoRepos (inr "k") (inl "connection refused")) "enc"))
              "k" "connection refused" _ _); reflexivity.
Defined.

End HelmFacts.

(* ===================================================================== *)
(** * The workflow testing job: facts *)
(* ===================================================================== *)

Module TestingFacts.
Import Testing.

Section Facts.
Context {M : Models} {D : Dynamic} {S : Settings} {K : @Catalog M D}.

(* --------------------------------------------------------------------- *)
(** ** The target resolver *)
(* --------------------------------------------------------------------- *)

(** Jobs of another name, and jobs of the name whose type is none of the
    four the resolver branches on, are passed over. *)
Lemma scanJobs_skip jobName pre rest :
  (∀ other, other ∈ pre → Job_Name other = jobName → ¬ handledType (Job_JobType other)) →
  scanJobs jobName (pre ++ rest) = scanJobs jobName rest.
Proof.
  induction pre as [|job pre IH]; intros Hpre; simpl; [done|].
  assert (Hrest : scanJobs jobName (pre ++ rest) = scanJobs jobName rest).
  { apply IH. intros other Hin. apply Hpre. by right. }
  case_decide as Hname; [done|].
  assert (Hn : Job_Name job = jobName) by (destruct (decide (Job_Name job = jobName)); tauto).
  pose proof (Hpre job ltac:(left) Hn) as Hty. unfold handledType in Hty.
  repeat (case_decide; [tauto|]). done.
Qed.

(** C4.  [getOriginReferedJobTargets] scans the jobs stage by stage in
    declaration order.  When the first job of the name whose type the
    resolver handles is a build job (its spec decoding), the result is one
    target per entry of that job's service-and-build list, carrying the
    entry's service and module, in declaration order.  When no job of the
    name has a handled type, in particular when no job has the name, the
    result is the not-found error. *)
Theorem resolve_build_targets :
  (∀ j jobName pre job post buildSpec,
     allJobs (workflow j) = pre ++ job :: post →
     (∀ other, other ∈ pre → Job_Name other = jobName →
        ¬ handledType (Job_JobType other)) →
     Job_Name job = jobName →
     Job_JobType job = JobZadigBuild →
     IToiBuild (Job_Spec job) = inr buildSpec →
     getOriginReferedJobTargets j jobName
     = inr ((λ build, mkServiceTestTarget (SAB_ServiceName build) (SAB_ServiceModule build))
              <$> Build_ServiceAndBuilds buildSpec))
  ∧ (∀ j jobName,
     (∀ job, job ∈ allJobs (workflow j) → Job_Name job = jobName →
        ¬ handledType (Job_JobType job)) →
     getOriginReferedJobTargets j jobName
     = inl ("build job " +:+ jobName +:+ " not found")).
Proof.
  split.
  - intros j jobName pre job post buildSpec Hjobs Hpre Hname Hty Hspec.
    unfold getOriginReferedJobTargets. rewrite Hjobs, scanJobs_skip by done. simpl.
    rewrite decide_False by tauto. rewrite decide_True by done. by rewrite Hspec.
  - intros j jobName Hall. unfold getOriginReferedJobTargets.
    rewrite <- (app_nil_r (allJobs (workflow j))). by rewrite scanJobs_skip.
Qed.

(* --------------------------------------------------------------------- *)
(** ** The task assembler *)
(* --------------------------------------------------------------------- *)

(** The step pipeline returns a task, and leaves the cache flag as the
    cache policy set it. *)
Lemma assembleSteps_CacheEnable j testing testingInfo defaultS3 taskID testType
    serviceName serviceModule jobTask props cacheS3 :
  ∃ task,
    taskOf (assembleSteps j testing testingInfo defaultS3 taskID testType serviceName
              serviceModule jobTask props cacheS3) = Some task ∧
    Props_CacheEnable (Properties (Task_Spec task)) = Props_CacheEnable props.
Proof.
  unfold assembleSteps.
  destruct (Testing_PostTest testingInfo) as [[[upload|]]|]; try (eexists; split; reflexivity).
  destruct (OSU_Enabled upload); [|eexists; split; reflexivity].
  destruct (findS3 _); eexists; split; reflexivity.
Qed.

(** C5.  When the suite, its image, the registries and the cluster are
    found, the suite's infrastructure is not the VM one and the cluster
    declares the empty cache medium, [toJobtask] returns a job task whose
    properties have [CacheEnable = false], whatever the suite's own
    [CacheEnable] is. *)
Theorem cluster_without_cache_medium_disables_cache :
  ∀ j testing defaultS3 taskID testType serviceName serviceModule randStr
    testingInfo basicImage registries clusterInfo,
    findTesting (TestModule_Name testing) = inr testingInfo →
    findBasicImage (PreTest_ImageID (Testing_PreTest testingInfo)) = inr basicImage →
    listRegistryNamespaces = inr registries →
    getCluster (PreTest_ClusterID (Testing_PreTest testingInfo)) = inr clusterInfo →
    Testing_Infrastructure testingInfo ≠ JobVMInfrastructure →
    Cache_MediumType (K8SCluster_Cache clusterInfo) = "" →
    ∃ jobTask,
      taskOf (toJobtask j testing defaultS3 taskID testType serviceName serviceModule
                randStr) = Some jobTask ∧
      Props_CacheEnable (Properties (Task_Spec jobTask)) = false.
Proof.
  intros j testing defaultS3 taskID testType serviceName serviceModule randStr
    testingInfo basicImage registries clusterInfo E1 E2 E3 E4 Hinfra Hmedium.
  unfold toJobtask. rewrite E1, E2, E3, E4. cbn zeta.
  rewrite decide_False by done. rewrite decide_True by done.
  unfold renderCache. cbn [Props_CacheEnable setCache].
  apply assembleSteps_CacheEnable.
Qed.

(* --------------------------------------------------------------------- *)
(** ** Lookup failures *)
(* --------------------------------------------------------------------- *)

Lemma toJobtask_lookup_failure j testing defaultS3 taskID testType serviceName
    serviceModule randStr err :
  findTesting (TestModule_Name testing) = inl err →
  toJobtask j testing defaultS3 taskID testType serviceName serviceModule randStr
  = Failed None ("find testing: " +:+ TestModule_Name testing +:+ " error: " +:+ err).
Proof. intros E. unfold toJobtask. by rewrite E. Qed.

Lemma compileModules_aborts j defaultS3 taskID testings resp testing err :
  testing ∈ testings →
  findTesting (TestModule_Name testing) = inl err →
  ∃ resp' err', compileModules j defaultS3 taskID testings resp = (resp', Some err').
Proof.
  intros Hin Hfind. revert resp.
  induction testings as [|t testings IH]; intros resp; [by apply elem_of_nil in Hin|].
  simpl. apply elem_of_cons in Hin as [<-|Hin].
  - rewrite (toJobtask_lookup_failure _ _ _ _ _ _ _ _ _ Hfind). eauto.
  - destruct (toJobtask _ _ _ _ _ _ _ _); [by apply IH|eauto].
Qed.

Lemma compileServiceTests_aborts j defaultS3 taskID testType target testings resp
    testing err :
  testing ∈ testings →
  configuredFor target testing →
  findTesting (TestModule_Name (SAT_TestModule testing)) = inl err →
  ∃ resp' err',
    compileServiceTests j defaultS3 taskID testType target testings resp
    = (resp', Some err').
Proof.
  intros Hin [Hs Hm] Hfind. revert resp.
  induction testings as [|t testings IH]; intros resp; [by apply elem_of_nil in Hin|].
  simpl. apply elem_of_cons in Hin as [<-|Hin].
  - rewrite decide_False by tauto.
    rewrite (toJobtask_lookup_failure _ _ _ _ _ _ _ _ _ Hfind). eauto.
  - case_decide; [by apply IH|].
    destruct (toJobtask _ _ _ _ _ _ _ _); [by apply IH|eauto].
Qed.

Lemma compileTargets_aborts j defaultS3 taskID testType targets testings resp
    target testing err :
  target ∈ targets →
  testing ∈ testings →
  configuredFor target testing →
  findTesting (TestModule_Name (SAT_TestModule testing)) = inl err →
  ∃ resp' err',
    compileTargets j defaultS3 taskID testType targets testings resp
    = (resp', Some err').
Proof.
  intros Hin Hin' Hc Hfind. revert resp.
  induction targets as [|t targets IH]; intros resp; [by apply elem_of_nil in Hin|].
  simpl. apply elem_of_cons in Hin as [<-|Hin].
  - destruct (compileServiceTests_aborts j defaultS3 taskID testType target testings
                resp testing err Hin' Hc Hfind) as (resp' & err' & ->). eauto.
  - destruct (compileServiceTests _ _ _ _ _ _ _) as [resp' [err'|]]; [eauto|by apply IH].
Qed.

Lemma presetModule_failure testing err :
  findTesting (TestModule_Name testing) = inl err →
  presetModule testing
  = (testing, ["find testing: " +:+ TestModule_Name testing +:+ " error: " +:+ err]).
Proof. intros E. unfold presetModule. by rewrite E. Qed.

(** C8.  Once the job spec decodes, [SetPreset] returns no error whatever
    the catalog answers, and a test module (product-level) or service test
    (service-level) whose suite the catalog does not find is left as it
    was.  In compilation the same lookup failure makes [toJobtask] return
    an error with no task, and [ToJobs] return an error: for a product-level
    job as soon as one of its test modules is not found, for a service-level
    job with its own target list as soon as a test configured for one of
    the targets is not found. *)
Theorem lookup_failure_policy :
  (∀ j sp,
     IToi (Job_Spec (job j)) = inr sp →
     (SetPreset j).2 = None ∧
     (Spec_TestType sp = ProductTestType →
      ∀ i testing err,
        Spec_TestModules sp !! i = Some testing →
        findTesting (TestModule_Name testing) = inl err →
        Spec_TestModules (spec (SetPreset j).1.1) !! i = Some testing) ∧
     (Spec_TestType sp = ServiceTestType →
      ∀ i testing err,
        Spec_ServiceAndTests sp !! i = Some testing →
        findTesting (TestModule_Name (SAT_TestModule testing)) = inl err →
        Spec_ServiceAndTests (spec (SetPreset j).1.1) !! i = Some testing))
  ∧ (∀ j testing defaultS3 taskID testType serviceName serviceModule randStr err,
     findTesting (TestModule_Name testing) = inl err →
     toJobtask j testing defaultS3 taskID testType serviceName serviceModule randStr
     = Failed None ("find testing: " +:+ TestModule_Name testing +:+ " error: " +:+ err))
  ∧ (∀ j taskID sp defaultS3 testing err,
     IToi (Job_Spec (job j)) = inr sp →
     findDefaultS3 = inr defaultS3 →
     Spec_TestType sp = ProductTestType →
     testing ∈ Spec_TestModules sp →
     findTesting (TestModule_Name testing) = inl err →
     ∃ resp err', (ToJobs j taskID).2 = (resp, Some err'))
  ∧ (∀ j taskID sp defaultS3 target testing err,
     IToi (Job_Spec (job j)) = inr sp →
     findDefaultS3 = inr defaultS3 →
     Spec_TestType sp = ServiceTestType →
     Spec_Source sp ≠ SourceFromJob →
     target ∈ Spec_TargetServices sp →
     testing ∈ Spec_ServiceAndTests sp →
     configuredFor target testing →
     findTesting (TestModule_Name (SAT_TestModule testing)) = inl err →
     ∃ resp err', (ToJobs j taskID).2 = (resp, Some err')).
Proof.
  split; [|split; [|split]].
  - intros j sp E. unfold SetPreset. rewrite E. split; [|split].
    + repeat (case_decide; cbn); done.
    + intros Hty i testing err Hi Hfind.
      rewrite decide_True by done. cbn.
      assert (Hmods : (presetModule <$> Spec_TestModules sp).*1 !! i = Some testing).
      { rewrite !list_lookup_fmap, Hi. cbn. by rewrite (presetModule_failure _ _ Hfind). }
      repeat (case_decide; cbn); done.
    + intros Hty i testing err Hi Hfind.
      assert (Hsat : (presetServiceAndTest <$> Spec_ServiceAndTests sp).*1 !! i
                     = Some testing).
      { rewrite !list_lookup_fmap, Hi. cbn. unfold presetServiceAndTest.
        rewrite (presetModule_failure _ _ Hfind). by destruct testing. }
      repeat (case_decide; cbn in *); first [done | congruence].
  - intros. by apply toJobtask_lookup_failure.
  - intros j taskID sp defaultS3 testing err E1 E2 Hty Hin Hfind.
    unfold ToJobs. rewrite E1, E2. rewrite decide_True by done.
    destruct (compileModules_aborts (storeSpec sp j) defaultS3 taskID
                (Spec_TestModules sp) [] testing err Hin Hfind) as (resp & err' & ->).
    cbn. eauto.
  - intros j taskID sp defaultS3 target testing err E1 E2 Hty Hsrc Hin Hin' Hc Hfind.
    unfold ToJobs. rewrite E1, E2.
    destruct (if decide (Spec_TestType sp = ProductTestType) then _ else _)
      as [resp [err'|]]; [cbn; eauto|].
    rewrite (decide_False (P := Spec_Source sp = SourceFromJob)) by done.
    rewrite decide_True by done. cbn.
    apply (compileTargets_aborts _ _ _ _ _ _ _ target testing err); done.
Qed.

(* --------------------------------------------------------------------- *)
(** ** Lint *)
(* --------------------------------------------------------------------- *)

Lemma rankEntries_elem stages si stage ji job :
  stages !! si = Some stage →
  Stage_Jobs stage !! ji = Some job →
  (Job_Name job, (si, ji)) ∈ rankEntries stages.
Proof.
  intros Hs Hj. unfold rankEntries. apply elem_of_concat.
  eexists. split.
  - apply elem_of_lookup_imap. exists si, stage. split; [reflexivity|done].
  - apply elem_of_lookup_imap. exists ji, job. split; [reflexivity|done].
Qed.

Lemma rankEntries_names stages :
  (rankEntries stages).*1 = Job_Name <$> concat (Stage_Jobs <$> stages).
Proof.
  unfold rankEntries. rewrite !fmap_concat. f_equal.
  rewrite fmap_imap. rewrite <- list_fmap_compose.
  rewrite <- (imap_const (fmap Job_Name ∘ Stage_Jobs)).
  apply imap_ext. intros i stage _. simpl.
  rewrite fmap_imap. rewrite <- (imap_const Job_Name).
  by apply imap_ext.
Qed.

(** With no job name used twice, the rank of a job is its position. *)
Lemma getJobRankMap_lookup stages si stage ji job :
  NoDup (Job_Name <$> concat (Stage_Jobs <$> stages)) →
  stages !! si = Some stage →
  Stage_Jobs stage !! ji = Some job →
  getJobRankMap stages !! Job_Name job = Some (si, ji).
Proof.
  intros Hnd Hs Hj. unfold getJobRankMap. apply fill_lookup.
  - by rewrite rankEntries_names.
  - by eapply rankEntries_elem.
Qed.

Lemma rankLtb_irrefl r : rankLtb r r = false.
Proof.
  unfold rankLtb. rewrite !Nat.ltb_irrefl. by rewrite andb_false_r.
Qed.

(** C6.  Once the job spec decodes, [LintJob] returns no error when the
    source is not "from job".  When it is, [LintJob] returns no error
    exactly when the referred job has a rank and that rank is strictly
    earlier than the rank of the current job: so a self-reference is an
    error, and, job names being unique in the workflow, a reference to a
    job of a later stage is an error and a reference to a job of an earlier
    stage is none. *)
Theorem lint_only_backward_references :
  ∀ j sp,
    IToiYaml (Job_Spec (job j)) = inr sp →
    let stages := Workflow_Stages (workflow j) in
    let ranks := getJobRankMap stages in
    let current := default zeroRank (ranks !! Job_Name (job j)) in
    (Spec_Source sp ≠ SourceFromJob → (LintJob j).2 = None)
    ∧ (Spec_Source sp = SourceFromJob →
       ((LintJob j).2 = None ↔
          ∃ r, ranks !! Spec_JobName sp = Some r ∧ rankLtb r current = true)
       ∧ (Spec_JobName sp = Job_Name (job j) → is_Some (LintJob j).2)
       ∧ (NoDup (Job_Name <$> allJobs (workflow j)) →
          ∀ s1 stage1 k1 referred s2 stage2 k2 this,
            stages !! s1 = Some stage1 → Stage_Jobs stage1 !! k1 = Some referred →
            Job_Name referred = Spec_JobName sp →
            stages !! s2 = Some stage2 → Stage_Jobs stage2 !! k2 = Some this →
            Job_Name this = Job_Name (job j) →
            ((s2 < s1)%nat → is_Some (LintJob j).2) ∧
            ((s1 < s2)%nat → (LintJob j).2 = None))).
Proof.
  intros j sp E stages ranks current. subst stages ranks current.
  unfold LintJob. rewrite E. cbn. split.
  - intros Hsrc. by rewrite decide_True.
  - intros Hsrc. rewrite decide_False by tauto.
    remember (getJobRankMap (Workflow_Stages (workflow j))) as ranks eqn:Hranks.
    split; [|split].
    + match goal with |- context [match ?x with _ => _ end] =>
        destruct x as [r|] eqn:Hr end; cbn.
      * unfold rankGeb.
        destruct (rankLtb r (default zeroRank (ranks !! Job_Name (job j)))) eqn:Hlt; cbn.
        -- split; [eauto|done].
        -- split; [done|]. intros (r' & [= <-] & Hr'). congruence.
      * split; [done|]. by intros (r' & [=] & _).
    + intros Hself.
      match goal with |- context [match ?x with _ => _ end] =>
        destruct x as [r|] eqn:Hr end; cbn; [|eauto].
      rewrite <- Hself, Hr. cbn. unfold rankGeb.
      rewrite rankLtb_irrefl. cbn. eauto.
    + intros Hnd s1 stage1 k1 referred s2 stage2 k2 this Hs1 Hk1 Hn1 Hs2 Hk2 Hn2.
      pose proof (getJobRankMap_lookup _ _ _ _ _ Hnd Hs1 Hk1) as Hr1.
      pose proof (getJobRankMap_lookup _ _ _ _ _ Hnd Hs2 Hk2) as Hr2.
      rewrite Hn1 in Hr1. rewrite Hn2 in Hr2.
      rewrite <- Hranks in Hr1, Hr2.
      unfold Rank in *. rewrite Hr1, Hr2.
      unfold rankGeb, rankLtb. cbn [fst snd default from_option id]. split; intros Hlt.
      * replace (s1 <? s2)%nat with false by (symmetry; apply Nat.ltb_ge; lia).
        replace (s1 =? s2)%nat with false by (symmetry; apply Nat.eqb_neq; lia).
        cbn. eauto.
      * replace (s1 <? s2)%nat with true by (symmetry; apply Nat.ltb_lt; lia).
        done.
Qed.

(* --------------------------------------------------------------------- *)
(** ** Output keys *)
(* --------------------------------------------------------------------- *)

(** On a job that is not service-level the key of a suite has two parts,
    the job name and the suite name. *)
Lemma outputJobKey_product j sp testingInfo :
  Spec_TestType sp ≠ ServiceTestType →
  outputJobKey j sp testingInfo = joinDot [Job_Name (job j); Testing_Name testingInfo].
Proof. intros H. unfold outputJobKey. by rewrite decide_False. Qed.

(** On a service-level job with no test configured for any target the key
    keeps its two parts. *)
Lemma pairKey_unmatched (jobName : string) target (testings : list ServiceAndTest) key :
  (∀ testing, testing ∈ testings → ¬ configuredFor target testing) →
  fold_left
    (λ jobKey scanning,
       if decide (SAT_ServiceName scanning ≠ Target_ServiceName target
                  ∨ SAT_ServiceModule scanning ≠ Target_ServiceModule target)
       then jobKey
       else joinDot [jobName; TestModule_Name (SAT_TestModule scanning);
                     Target_ServiceName target; Target_ServiceModule target])
    testings key = key.
Proof.
  revert key. induction testings as [|t testings IH]; intros key Hno; simpl; [done|].
  rewrite decide_True.
  - apply IH. intros testing Hin. apply Hno. by right.
  - pose proof (Hno t ltac:(left)) as Ht. unfold configuredFor in Ht.
    destruct (decide (SAT_ServiceName t = Target_ServiceName target)); [|tauto].
    destruct (decide (SAT_ServiceModule t = Target_ServiceModule target)); tauto.
Qed.

Lemma pairKey_matched (jobName : string) target (testings : list ServiceAndTest) key key' :
  (∃ testing, testing ∈ testings ∧ configuredFor target testing) →
  fold_left
    (λ jobKey scanning,
       if decide (SAT_ServiceName scanning ≠ Target_ServiceName target
                  ∨ SAT_ServiceModule scanning ≠ Target_ServiceModule target)
       then jobKey
       else joinDot [jobName; TestModule_Name (SAT_TestModule scanning);
                     Target_ServiceName target; Target_ServiceModule target])
    testings key
  = fold_left
    (λ jobKey scanning,
       if decide (SAT_ServiceName scanning ≠ Target_ServiceName target
                  ∨ SAT_ServiceModule scanning ≠ Target_ServiceModule target)
       then jobKey
       else joinDot [jobName; TestModule_Name (SAT_TestModule scanning);
                     Target_ServiceName target; Target_ServiceModule target])
    testings key'.
Proof.
  induction testings as [|t testings IH] using rev_ind; intros (testing & Hin & Hc).
  - by apply elem_of_nil in Hin.
  - rewrite !fold_left_app. simpl. case_decide as Ht; [|done].
    apply IH. exists testing. split; [|done].
    apply elem_of_app in Hin as [Hin|Hin]; [done|].
    apply list_elem_of_singleton in Hin as ->. unfold configuredFor in Hc. tauto.
Qed.

(** On a service-level job with a test configured for a target, the key
    [GetOutPuts] computes is the same for every suite: it is the key of the
    last configured (target, test) pair. *)
Lemma outputJobKey_service_ignores_suite j sp testingInfo testingInfo' :
  Spec_TestType sp = ServiceTestType →
  (∃ target testing,
     target ∈ Spec_TargetServices sp ∧ testing ∈ Spec_ServiceAndTests sp ∧
     configuredFor target testing) →
  outputJobKey j sp testingInfo = outputJobKey j sp testingInfo'.
Proof.
  intros Hty. unfold outputJobKey. rewrite !decide_True by done.
  generalize (joinDot [Job_Name (job j); Testing_Name testingInfo]).
  generalize (joinDot [Job_Name (job j); Testing_Name testingInfo']).
  generalize (Spec_TargetServices sp) as targets.
  induction targets as [|t targets IH] using rev_ind;
    intros key key' (target & testing & Hin & Hin' & Hc).
  - by apply elem_of_nil in Hin.
  - rewrite !fold_left_app. simpl.
    assert (Hcases : (∃ testing, testing ∈ Spec_ServiceAndTests sp ∧ configuredFor t testing)
                     ∨ ¬ (∃ testing, testing ∈ Spec_ServiceAndTests sp
                                     ∧ configuredFor t testing)).
    { assert (Hd : ∀ x, Decision (configuredFor t x))
        by (intros x; unfold configuredFor; apply _).
      rewrite <- Exists_exists.
      destruct (decide (Exists (configuredFor t) (Spec_ServiceAndTests sp))); tauto. }
    destruct Hcases as [Hm|Hno].
    + by apply pairKey_matched.
    + rewrite !pairKey_unmatched by (intros ???; apply Hno; eauto).
      apply IH. exists target, testing. split; [|done].
      apply elem_of_app in Hin as [Hin|Hin]; [done|].
      apply list_elem_of_singleton in Hin as ->. exfalso. apply Hno. eauto.
Qed.

End Facts.

(* --------------------------------------------------------------------- *)
(** ** Further properties of the target resolver *)
(* --------------------------------------------------------------------- *)

Section MoreFacts.
Context {M : Models} {D : Dynamic} {S : Settings} {K : @Catalog M D}.

Lemma scanJobs_handled jobName job post :
  Job_Name job = jobName →
  handledType (Job_JobType job) →
  scanJobs jobName (job :: post) = scanJobs jobName [job].
Proof.
  intros Hname Hty. simpl.
  rewrite !(decide_False (P := Job_Name job ≠ jobName)) by tauto.
  unfold handledType in Hty.
  destruct (decide (Job_JobType job = JobZadigBuild)); [done|].
  destruct (decide (Job_JobType job = JobZadigDistributeImage)); [done|].
  destruct (decide (Job_JobType job = JobZadigDeploy)); [done|].
  destruct (decide (Job_JobType job = JobZadigScanning)); [done|].
  exfalso. destruct Hty as [?|[?|[?|?]]]; done.
Qed.

(** X10.  The other branches of [getOriginReferedJobTargets].  When the
    first job of the name whose type the resolver handles is a
    distribute-image job, the result is one target per distribution target;
    when it is a deploy job, one target per module of each service, service
    by service; when it is a scanning job, that job's own target list as it
    stands.  (The types are tried in the order build, distribute, deploy,
    scanning, so each branch needs its constant to differ from the ones
    tried before it.) *)
Theorem resolve_distribute_deploy_scanning :
  ∀ j jobName pre job post,
    allJobs (workflow j) = pre ++ job :: post →
    (∀ other, other ∈ pre → Job_Name other = jobName →
       ¬ handledType (Job_JobType other)) →
    Job_Name job = jobName →
    (∀ distributeSpec,
       Job_JobType job = JobZadigDistributeImage →
       JobZadigDistributeImage ≠ JobZadigBuild →
       IToiDistribute (Job_Spec job) = inr distributeSpec →
       getOriginReferedJobTargets j jobName
       = inr ((λ distribute,
                 mkServiceTestTarget (Distribute_ServiceName distribute)
                   (Distribute_ServiceModule distribute))
                <$> Distribute_Targets distributeSpec))
    ∧ (∀ deploySpec,
       Job_JobType job = JobZadigDeploy →
       JobZadigDeploy ≠ JobZadigBuild →
       JobZadigDeploy ≠ JobZadigDistributeImage →
       IToiDeploy (Job_Spec job) = inr deploySpec →
       getOriginReferedJobTargets j jobName
       = inr (svc ← Deploy_Services deploySpec;
              (λ module,
                 mkServiceTestTarget (Deploy_ServiceName svc)
                   (DeployModule_ServiceModule module))
                <$> Deploy_Modules svc))
    ∧ (∀ scanningSpec,
       Job_JobType job = JobZadigScanning →
       JobZadigScanning ≠ JobZadigBuild →
       JobZadigScanning ≠ JobZadigDistributeImage →
       JobZadigScanning ≠ JobZadigDeploy →
       IToiScanning (Job_Spec job) = inr scanningSpec →
       getOriginReferedJobTargets j jobName
       = inr (Scanning_TargetServices scanningSpec)).
Proof.
  intros j jobName pre job post Hjobs Hpre Hname.
  unfold getOriginReferedJobTargets. rewrite Hjobs, scanJobs_skip by done. simpl.
  rewrite (decide_False (P := Job_Name job ≠ jobName)) by tauto.
  split; [|split].
  - intros distributeSpec Hty Hd Hspec. rewrite Hty.
    rewrite decide_False by done. rewrite decide_True by done. by rewrite Hspec.
  - intros deploySpec Hty Hd1 Hd2 Hspec. rewrite Hty.
    rewrite !decide_False by done. rewrite decide_True by done. rewrite Hspec.
    f_equal. unfold deployTargets.
    induction (Deploy_Services deploySpec) as [|svc svcs IH]; [done|].
    rewrite fmap_cons. cbn [concat]. rewrite IH. done.
  - intros scanningSpec Hty Hd1 Hd2 Hd3 Hspec. rewrite Hty.
    rewrite !decide_False by done. rewrite decide_True by done. by rewrite Hspec.
Qed.

(** X11.  The first job of the name with a handled type decides alone:
    the jobs after it are never looked at, so two workflows that share this
    job resolve to the same result; and when it is a build job whose spec
    does not decode, the decode error is returned as it is, whatever jobs
    follow. *)
Theorem first_handled_job_decides :
  ∀ j jobName pre job post,
    allJobs (workflow j) = pre ++ job :: post →
    (∀ other, other ∈ pre → Job_Name other = jobName →
       ¬ handledType (Job_JobType other)) →
    Job_Name job = jobName →
    handledType (Job_JobType job) →
    (∀ j' pre' post',
       allJobs (workflow j') = pre' ++ job :: post' →
       (∀ other, other ∈ pre' → Job_Name other = jobName →
          ¬ handledType (Job_JobType other)) →
       getOriginReferedJobTargets j' jobName = getOriginReferedJobTargets j jobName)
    ∧ (∀ err,
       Job_JobType job = JobZadigBuild →
       IToiBuild (Job_Spec job) = inl err →
       getOriginReferedJobTargets j jobName = inl err).
Proof.
  intros j jobName pre job post Hjobs Hpre Hname Hty.
  unfold getOriginReferedJobTargets. rewrite Hjobs, scanJobs_skip by done.
  rewrite scanJobs_handled by done. split.
  - intros j' pre' post' Hjobs' Hpre'. rewrite Hjobs', scanJobs_skip by done.
    by rewrite scanJobs_handled.
  - intros err Hb Hspec. simpl. rewrite decide_False by tauto.
    rewrite decide_True by done. by rewrite Hspec.
Qed.

(* --------------------------------------------------------------------- *)
(** ** Further properties of the task assembler *)
(* --------------------------------------------------------------------- *)

(** The scrutinees of the tail of the pipeline: the object storage upload
    of the suite. *)
Ltac upload_cases testingInfo :=
  destruct (Testing_PostTest testingInfo) as [[[upload|]]|];
  [destruct (OSU_Enabled upload); [destruct (findS3 (OSU_ObjectStorageID upload))|]| |].

Ltac find_member :=
  repeat first [apply list_elem_of_here | apply list_elem_of_further].

(** One optional step of the pipeline at a time. *)
Ltac step_cases :=
  repeat match goal with
         | |- Forall _ (_ ++ _) => apply Forall_app; split
         | |- Forall _ (if ?c then _ else _) => destruct c
         | |- Forall _ (match ?x with _ => _ end) => destruct x
         | |- Forall _ (_ :: _) => constructor
         | |- Forall _ [] => constructor
         end.

Lemma assembleSteps_steps j testing testingInfo defaultS3 taskID testType
    serviceName serviceModule jobTask props cacheS3 :
  Forall
    (λ st,
       Step_JobName st = Task_Name jobTask ∧
       (Step_Onfailure st = true →
        isCollector st = true ∧ isCacheUpload st = false
        ∧ Step_Name st ∈ [TestJobHTMLReportStepName; TestJobArchiveResultStepName;
                           TestJobJunitReportStepName]))
    (stepsOf (assembleSteps j testing testingInfo defaultS3 taskID testType serviceName
                serviceModule jobTask props cacheS3)).
Proof.
  unfold assembleSteps, stepsOf. cbn zeta.
  upload_cases testingInfo; cbn [taskOf taskWith Task_Spec Steps];
    step_cases; repeat case_decide; (split; [done|]); cbn; intros; try done;
    repeat split; try done; find_member.
Qed.

(** The compiler reads the name and the error policy of the job and the
    workflow, never the typed copy of the spec. *)
Lemma toJobtask_storeSpec sp j testing defaultS3 taskID testType serviceName
    serviceModule randStr :
  toJobtask (storeSpec sp j) testing defaultS3 taskID testType serviceName serviceModule
    randStr
  = toJobtask j testing defaultS3 taskID testType serviceName serviceModule randStr.
Proof. reflexivity. Qed.

(** The cache policy either stops at the object store or moves on to the
    step pipeline. *)
Lemma renderCache_cases j testing testingInfo defaultS3 taskID testType serviceName
    serviceModule jobTask props cacheS3 :
  (∃ props' err,
     renderCache j testing testingInfo defaultS3 taskID testType serviceName serviceModule
       jobTask props cacheS3
     = Failed (Some (taskWith jobTask props' [])) err)
  ∨ (∃ props' cacheS3',
       renderCache j testing testingInfo defaultS3 taskID testType serviceName
         serviceModule jobTask props cacheS3
       = assembleSteps j testing testingInfo defaultS3 taskID testType serviceName
           serviceModule jobTask props' cacheS3').
Proof.
  unfold renderCache.
  destruct (Props_CacheEnable props); [|right; by eexists _, _].
  cbn zeta. destruct (decide _); [right; by eexists _, _|].
  destruct (decide _); [|right; by eexists _, _].
  destruct (findS3 _); [left|right]; by eexists _, _.
Qed.

(** Whatever [toJobtask] returns is a nil task, a task without steps, or
    the outcome of the step pipeline for the suite the catalog holds. *)
Lemma toJobtask_cases j testing defaultS3 taskID testType serviceName serviceModule
    randStr :
  (∃ err,
     toJobtask j testing defaultS3 taskID testType serviceName serviceModule randStr
     = Failed None err)
  ∨ (∃ jobTask err,
       toJobtask j testing defaultS3 taskID testType serviceName serviceModule randStr
       = Failed (Some jobTask) err
       ∧ Steps (Task_Spec jobTask) = []
       ∧ Task_Key jobTask
         = taskKey j testType (TestModule_Name testing) serviceName serviceModule)
  ∨ (∃ testingInfo jobTask props cacheS3,
       toJobtask j testing defaultS3 taskID testType serviceName serviceModule randStr
       = assembleSteps j testing testingInfo defaultS3 taskID testType serviceName
           serviceModule jobTask props cacheS3
       ∧ findTesting (TestModule_Name testing) = inr testingInfo
       ∧ Task_Key jobTask
         = taskKey j testType (TestModule_Name testing) serviceName serviceModule
       ∧ Task_Infrastructure jobTask = Testing_Infrastructure testingInfo).
Proof.
  remember (toJobtask j testing defaultS3 taskID testType serviceName serviceModule
              randStr) as c eqn:Hc.
  unfold toJobtask in Hc. unfold taskKey.
  destruct (findTesting _) as [err|testingInfo] eqn:E1; [left; by eexists|].
  destruct (findBasicImage _) as [err|basicImage]; [left; by eexists|].
  destruct listRegistryNamespaces as [err|registries]; [left; by eexists|].
  cbn zeta in Hc.
  destruct (getCluster _) as [err|clusterInfo];
    [right; left; eexists _, _; split; [exact Hc|split; reflexivity]|].
  match goal with
  | |- ?G =>
      assert (Hfinish : ∀ jobTask props cacheS3,
                Task_Key jobTask
                = (if decide (testType = ServiceTestType)
                   then joinDot [Job_Name (job j); TestModule_Name testing; serviceName;
                                 serviceModule]
                   else joinDot [Job_Name (job j); TestModule_Name testing]) →
                Task_Infrastructure jobTask = Testing_Infrastructure testingInfo →
                c = renderCache j testing testingInfo defaultS3 taskID testType
                      serviceName serviceModule jobTask props cacheS3 →
                G)
  end.
  { intros jobTask props cacheS3 Hkey Hinfra ->.
    destruct (renderCache_cases j testing testingInfo defaultS3 taskID testType
                serviceName serviceModule jobTask props cacheS3)
      as [(props' & err & ->)|(props' & cacheS3' & ->)].
    - right; left. by eexists _, _.
    - right; right. by eexists _, _, _, _. }
  destruct (decide (_ = JobVMInfrastructure)) in Hc;
    [right; right; eexists _, _, _, _; split; [exact Hc|repeat split; reflexivity]|].
  destruct (decide (_ = "")) in Hc; [by eapply Hfinish; [| |exact Hc]|].
  destruct (decide (_ = ObjectMedium)) in Hc; [|by eapply Hfinish; [| |exact Hc]].
  destruct (findS3 _) in Hc; [|by eapply Hfinish; [| |exact Hc]].
  right; left; eexists _, _; split; [exact Hc|split; reflexivity].
Qed.

(** The pipeline keeps the key of the task it is given. *)
Lemma assembleSteps_Key j testing testingInfo defaultS3 taskID testType serviceName
    serviceModule jobTask props cacheS3 task :
  taskOf (assembleSteps j testing testingInfo defaultS3 taskID testType serviceName
            serviceModule jobTask props cacheS3) = Some task →
  Task_Key task = Task_Key jobTask ∧ Task_Name task = Task_Name jobTask.
Proof.
  unfold assembleSteps. upload_cases testingInfo; cbn; by intros [= <-].
Qed.

(** X12.  Whatever task [toJobtask] hands back, also the partial one that
    comes with an error, every step of it carries the name of that task as
    its job name, and the only steps marked to run after a failure are among
    the three collectors: the HTML report archive, the test result archive
    and the JUnit report.  The cache upload is never one of them. *)
Theorem steps_belong_to_task :
  ∀ j testing defaultS3 taskID testType serviceName serviceModule randStr task st,
    taskOf (toJobtask j testing defaultS3 taskID testType serviceName serviceModule
              randStr) = Some task →
    st ∈ Steps (Task_Spec task) →
    Step_JobName st = Task_Name task
    ∧ (Step_Onfailure st = true →
       isCollector st = true ∧ isCacheUpload st = false
       ∧ Step_Name st ∈ [TestJobHTMLReportStepName; TestJobArchiveResultStepName;
                          TestJobJunitReportStepName]).
Proof.
  intros j testing defaultS3 taskID testType serviceName serviceModule randStr task st
    Htask Hst.
  destruct (toJobtask_cases j testing defaultS3 taskID testType serviceName serviceModule
              randStr)
    as [[err E]|[(jobTask & err & E & Hnil & _)|(testingInfo & jobTask & props & cacheS3
                                                  & E & _)]];
    rewrite E in Htask.
  - done.
  - injection Htask as <-. rewrite Hnil in Hst. by apply elem_of_nil in Hst.
  - destruct (assembleSteps_Key _ _ _ _ _ _ _ _ _ _ _ _ Htask) as [_ ->].
    pose proof (assembleSteps_steps j testing testingInfo defaultS3 taskID testType
                  serviceName serviceModule jobTask props cacheS3) as Hall.
    unfold stepsOf in Hall. rewrite Htask in Hall.
    rewrite Forall_forall in Hall. by apply Hall.
Qed.

(** A compiled task is the outcome of the step pipeline for the suite the
    catalog holds. *)
Lemma toJobtask_compiled j testing defaultS3 taskID testType serviceName serviceModule
    randStr testingInfo task :
  findTesting (TestModule_Name testing) = inr testingInfo →
  toJobtask j testing defaultS3 taskID testType serviceName serviceModule randStr
  = Compiled task →
  ∃ jobTask props cacheS3,
    taskOf (assembleSteps j testing testingInfo defaultS3 taskID testType serviceName
              serviceModule jobTask props cacheS3) = Some task
    ∧ Task_Infrastructure jobTask = Testing_Infrastructure testingInfo.
Proof.
  intros Hfind Htask.
  destruct (toJobtask_cases j testing defaultS3 taskID testType serviceName serviceModule
              randStr)
    as [[err E]|[(jobTask & err & E & _)|(testingInfo' & jobTask & props & cacheS3
                                          & E & Hfind' & _ & Hinfra)]];
    rewrite E in Htask; try done.
  rewrite Hfind in Hfind'. injection Hfind' as <-.
  exists jobTask, props, cacheS3. by rewrite Htask.
Qed.

Lemma filter_none {A} (f : A → bool) (l : list A) :
  Forall (λ x, f x = false) l → List.filter f l = [].
Proof.
  induction 1 as [|x l Hx _ IH]; [done|]. cbn. by rewrite Hx.
Qed.

Lemma filter_cons_false {A} (f : A → bool) x (l : list A) :
  f x = false → List.filter f (x :: l) = List.filter f l.
Proof. intros Hx. cbn. by rewrite Hx. Qed.

Lemma filter_cons_true {A} (f : A → bool) x (l : list A) :
  f x = true → List.filter f (x :: l) = x :: List.filter f l.
Proof. intros Hx. cbn. by rewrite Hx. Qed.

(** The filter is pushed through the pipeline piece by piece: a step that
    is not of the kind filtered for is dropped, an optional piece that
    holds no such step is dropped whole. *)
Ltac filter_pieces :=
  repeat first
    [ rewrite List.filter_app
    | match goal with
      | |- context [List.filter ?f ?l] =>
          lazymatch l with
          | _ ++ _ => fail
          | [] => fail
          | ?x :: ?l' =>
              first [ rewrite (filter_cons_false f x l') by (repeat case_decide; done)
                    | rewrite (filter_cons_true f x l') by done ]
          | _ => rewrite (filter_none f l) by (step_cases; done)
          end
      end ].

Lemma assembleSteps_cache_archive j testing testingInfo defaultS3 taskID testType
    serviceName serviceModule jobTask props cacheS3 task :
  taskOf (assembleSteps j testing testingInfo defaultS3 taskID testType serviceName
            serviceModule jobTask props cacheS3) = Some task →
  let p := Properties (Task_Spec task) in
  let steps := Steps (Task_Spec task) in
  if Props_CacheEnable p && bool_decide (Cache_MediumType (Props_Cache p) = ObjectMedium)
  then ∃ d u da ta,
         List.filter isCacheDownload steps = [d]
         ∧ List.filter isCacheUpload steps = [u]
         ∧ Step_Spec d = DownloadArchiveSpec da
         ∧ Step_Spec u = TarArchiveSpec ta
         ∧ DA_ObjectPath da
           = getTestingJobCacheObjectPath (Workflow_Name (workflow j))
               (TestModule_Name testing)
         ∧ Tar_S3DestDir ta = DA_ObjectPath da
         ∧ Tar_TarDir ta = DA_DestDir da
         ∧ Tar_FileName ta = DA_FileName da
         ∧ Tar_S3Storage ta = Some (DA_S3 da)
  else List.filter isCacheDownload steps = [] ∧ List.filter isCacheUpload steps = [].
Proof.
  unfold assembleSteps. cbn zeta.
  upload_cases testingInfo; cbn [taskOf]; intros [= <-];
    cbn [taskWith Task_Spec Steps Properties setEnvs Props_CacheEnable Props_Cache];
    filter_pieces;
    (destruct (Props_CacheEnable props
               && bool_decide (Cache_MediumType (Props_Cache props) = ObjectMedium));
     cbn; [by eexists _, _, _, _|done]).
Qed.

(** X13.  The object cache is restored and saved as a pair.  A compiled
    task has exactly one cache download step and exactly one cache upload
    step when its properties enable the cache on the object medium, and
    neither otherwise.  The two agree on everything that names the
    archive: the upload writes the directory the download restored, under
    the object path and file name the download read, to the same store; and
    that object path is made of the workflow name and the suite name
    alone. *)
Theorem cache_archive_round_trip :
  ∀ j testing defaultS3 taskID testType serviceName serviceModule randStr task,
    toJobtask j testing defaultS3 taskID testType serviceName serviceModule randStr
    = Compiled task →
    let p := Properties (Task_Spec task) in
    let steps := Steps (Task_Spec task) in
    if Props_CacheEnable p && bool_decide (Cache_MediumType (Props_Cache p) = ObjectMedium)
    then ∃ d u da ta,
           List.filter isCacheDownload steps = [d]
           ∧ List.filter isCacheUpload steps = [u]
           ∧ Step_Spec d = DownloadArchiveSpec da
           ∧ Step_Spec u = TarArchiveSpec ta
           ∧ DA_ObjectPath da
             = getTestingJobCacheObjectPath (Workflow_Name (workflow j))
                 (TestModule_Name testing)
           ∧ Tar_S3DestDir ta = DA_ObjectPath da
           ∧ Tar_TarDir ta = DA_DestDir da
           ∧ Tar_FileName ta = DA_FileName da
           ∧ Tar_S3Storage ta = Some (DA_S3 da)
    else List.filter isCacheDownload steps = [] ∧ List.filter isCacheUpload steps = [].
Proof.
  intros j testing defaultS3 taskID testType serviceName serviceModule randStr task Htask.
  destruct (findTesting (TestModule_Name testing)) as [err|testingInfo] eqn:Hfind.
  { by rewrite (toJobtask_lookup_failure _ _ _ _ _ _ _ _ _ Hfind) in Htask. }
  destruct (toJobtask_compiled _ _ _ _ _ _ _ _ _ _ Hfind Htask)
    as (jobTask & props & cacheS3 & Hsteps & _).
  exact (assembleSteps_cache_archive _ _ _ _ _ _ _ _ _ _ _ _ Hsteps).
Qed.

(** The condition under which the result archive is appended, lines
    552-554. *)
Lemma artifact_condition (first : string) (more : list string) :
  (1 < Datatypes.S (length more))%nat ∨ first ≠ "" ↔ first :: more ≠ [""].
Proof.
  split.
  - intros [Hlen|Hfirst] [= -> ->]; [cbn in Hlen; lia|done].
  - intros Hne. destruct more; [right; by intros ->|left; cbn; lia].
Qed.

Lemma length_pos (s : string) : (0 < String.length s)%nat ↔ s ≠ "".
Proof. destruct s; cbn; split; first [done | lia]. Qed.

Lemma assembleSteps_collectors j testing testingInfo defaultS3 taskID testType
    serviceName serviceModule jobTask props cacheS3 task :
  taskOf (assembleSteps j testing testingInfo defaultS3 taskID testType serviceName
            serviceModule jobTask props cacheS3) = Some task →
  let steps := Steps (Task_Spec task) in
  (Testing_ArtifactPaths testingInfo = [] ∨ Testing_ArtifactPaths testingInfo = [""] →
   List.filter isResultArchive steps = [])
  ∧ (Testing_ArtifactPaths testingInfo ≠ [] → Testing_ArtifactPaths testingInfo ≠ [""] →
     ∃ st ta,
       List.filter isResultArchive steps = [st]
       ∧ Step_Spec st = TarArchiveSpec ta
       ∧ Tar_ResultDirs ta = Testing_ArtifactPaths testingInfo)
  ∧ (Testing_TestResultPath testingInfo = "" → List.filter isJunitReport steps = [])
  ∧ (Testing_TestResultPath testingInfo ≠ "" →
     ∃ st report,
       List.filter isJunitReport steps = [st]
       ∧ Step_Spec st = JunitReportSpec report
       ∧ Junit_ReportDir report = Testing_TestResultPath testingInfo
       ∧ Junit_TestName report = TestModule_Name testing
       ∧ Junit_ServiceName report = serviceName
       ∧ Junit_ServiceModule report = serviceModule).
Proof.
  unfold assembleSteps. cbn zeta.
  upload_cases testingInfo; cbn [taskOf]; intros [= <-];
    cbn [taskWith Task_Spec Steps]; filter_pieces.
  all: destruct (decide (0 < String.length (Testing_TestResultPath testingInfo))%nat)
    as [Hjunit|Hjunit]; rewrite length_pos in Hjunit.
  all: destruct (Testing_ArtifactPaths testingInfo) as [|first more] eqn:Hpaths;
    [|destruct (decide ((1 < Datatypes.S (length more))%nat ∨ first ≠ "")) as [Hart|Hart];
      rewrite artifact_condition in Hart].
  all: cbn; repeat split; intros; try done; try (by eexists _, _);
    try tauto; try (by exfalso; apply Hjunit);
    try (exfalso; match goal with H : _ ∨ _ |- _ => by destruct H end).
Qed.

(** X14.  The collectors follow the paths the suite configures.  A compiled
    task archives test results exactly when the suite's artifact paths are
    neither empty nor the single empty path, and then archives those paths;
    it has a JUnit report step exactly when the suite's result path is not
    empty, and that step is labelled with the suite, the service and the
    module the task was compiled for. *)
Theorem collectors_follow_configured_paths :
  ∀ j testing defaultS3 taskID testType serviceName serviceModule randStr testingInfo task,
    findTesting (TestModule_Name testing) = inr testingInfo →
    toJobtask j testing defaultS3 taskID testType serviceName serviceModule randStr
    = Compiled task →
    let steps := Steps (Task_Spec task) in
    (Testing_ArtifactPaths testingInfo = [] ∨ Testing_ArtifactPaths testingInfo = [""] →
     List.filter isResultArchive steps = [])
    ∧ (Testing_ArtifactPaths testingInfo ≠ [] → Testing_ArtifactPaths testingInfo ≠ [""] →
       ∃ st ta,
         List.filter isResultArchive steps = [st]
         ∧ Step_Spec st = TarArchiveSpec ta
         ∧ Tar_ResultDirs ta = Testing_ArtifactPaths testingInfo)
    ∧ (Testing_TestResultPath testingInfo = "" → List.filter isJunitReport steps = [])
    ∧ (Testing_TestResultPath testingInfo ≠ "" →
       ∃ st report,
         List.filter isJunitReport steps = [st]
         ∧ Step_Spec st = JunitReportSpec report
         ∧ Junit_ReportDir report = Testing_TestResultPath testingInfo
         ∧ Junit_TestName report = TestModule_Name testing
         ∧ Junit_ServiceName report = serviceName
         ∧ Junit_ServiceModule report = serviceModule).
Proof.
  intros j testing defaultS3 taskID testType serviceName serviceModule randStr testingInfo
    task Hfind Htask.
  destruct (toJobtask_compiled _ _ _ _ _ _ _ _ _ _ Hfind Htask)
    as (jobTask & props & cacheS3 & Hsteps & _).
  exact (assembleSteps_collectors _ _ _ _ _ _ _ _ _ _ _ _ Hsteps).
Qed.

(** The search for a step of the pipeline. *)
Ltac find_step :=
  first [ by apply Exists_cons_hd
        | apply Exists_cons_tl; find_step
        | apply Exists_app; left; find_step
        | apply Exists_app; right; find_step ].

Lemma assembleSteps_script j testing testingInfo defaultS3 taskID testType
    serviceName serviceModule jobTask props cacheS3 task :
  taskOf (assembleSteps j testing testingInfo defaultS3 taskID testType serviceName
            serviceModule jobTask props cacheS3) = Some task →
  let steps := Steps (Task_Spec task) in
  let lines :=
    Split (replaceWrapLine (Testing_Scripts testingInfo)) newline
    ++ outputScript (Testing_Outputs testingInfo) (Task_Infrastructure jobTask) in
  (Testing_ScriptType testingInfo = ScriptTypeShell ∨ Testing_ScriptType testingInfo = "" →
   ∃ st, List.filter isScript steps = [st] ∧ Step_Spec st = ShellSpec lines)
  ∧ (Testing_ScriptType testingInfo ≠ ScriptTypeShell →
     Testing_ScriptType testingInfo ≠ "" →
     Testing_ScriptType testingInfo ≠ ScriptTypeBatchFile →
     Testing_ScriptType testingInfo ≠ ScriptTypePowerShell →
     List.filter isScript steps = []
     ∧ Exists (λ st, Step_Name st = "" ∧ Step_StepType st = "" ∧ Step_Spec st = NoSpec
                     ∧ Step_JobName st = Task_Name task) steps).
Proof.
  unfold assembleSteps. cbn zeta.
  upload_cases testingInfo; cbn [taskOf]; intros [= <-];
    cbn [taskWith Task_Spec Steps Task_Name];
    (split;
     [ intros Hshell; rewrite !(decide_True (P := _ ∨ _)) by done;
       filter_pieces; cbn; eexists; split; reflexivity
     | intros H1 H2 H3 H4; rewrite !(decide_False (P := _ ∨ _)) by tauto;
       rewrite !(decide_False (P := Testing_ScriptType testingInfo = ScriptTypeBatchFile))
         by done;
       rewrite !(decide_False (P := Testing_ScriptType testingInfo = ScriptTypePowerShell))
         by done;
       split;
       [ by filter_pieces
       | find_step ] ]).
Qed.

(** X15.  The script step of a compiled task.  A suite whose script type
    is the shell one or empty gets exactly one script step, a shell step
    running the suite's script lines followed by the output script.  A
    suite whose script type is none of the three known ones (nor empty)
    gets no script step at all: in its place the pipeline holds a step with
    no name, no step type and no payload, that still belongs to the
    task. *)
Theorem unknown_script_type_leaves_blank_step :
  ∀ j testing defaultS3 taskID testType serviceName serviceModule randStr testingInfo task,
    findTesting (TestModule_Name testing) = inr testingInfo →
    toJobtask j testing defaultS3 taskID testType serviceName serviceModule randStr
    = Compiled task →
    let steps := Steps (Task_Spec task) in
    let lines :=
      Split (replaceWrapLine (Testing_Scripts testingInfo)) newline
      ++ outputScript (Testing_Outputs testingInfo) (Testing_Infrastructure testingInfo) in
    (Testing_ScriptType testingInfo = ScriptTypeShell
     ∨ Testing_ScriptType testingInfo = "" →
     ∃ st, List.filter isScript steps = [st] ∧ Step_Spec st = ShellSpec lines)
    ∧ (Testing_ScriptType testingInfo ≠ ScriptTypeShell →
       Testing_ScriptType testingInfo ≠ "" →
       Testing_ScriptType testingInfo ≠ ScriptTypeBatchFile →
       Testing_ScriptType testingInfo ≠ ScriptTypePowerShell →
       List.filter isScript steps = []
       ∧ Exists (λ st, Step_Name st = "" ∧ Step_StepType st = "" ∧ Step_Spec st = NoSpec
                       ∧ Step_JobName st = Task_Name task) steps).
Proof.
  intros j testing defaultS3 taskID testType serviceName serviceModule randStr testingInfo
    task Hfind Htask.
  destruct (toJobtask_compiled _ _ _ _ _ _ _ _ _ _ Hfind Htask)
    as (jobTask & props & cacheS3 & Hsteps & <-).
  exact (assembleSteps_script _ _ _ _ _ _ _ _ _ _ _ _ Hsteps).
Qed.

(** The step pipeline leaves the cache settings of the properties as the
    cache policy set them. *)
Lemma assembleSteps_cache_settings j testing testingInfo defaultS3 taskID testType
    serviceName serviceModule jobTask props cacheS3 :
  ∃ task,
    taskOf (assembleSteps j testing testingInfo defaultS3 taskID testType serviceName
              serviceModule jobTask props cacheS3) = Some task
    ∧ Props_Cache (Properties (Task_Spec task)) = Props_Cache props
    ∧ Props_CacheEnable (Properties (Task_Spec task)) = Props_CacheEnable props
    ∧ Props_CacheDirType (Properties (Task_Spec task)) = Props_CacheDirType props
    ∧ Props_CacheUserDir (Properties (Task_Spec task)) = Props_CacheUserDir props.
Proof.
  unfold assembleSteps. upload_cases testingInfo; by eexists.
Qed.

(** X16.  On the VM infrastructure the cache settings of the task are the
    suite's own, taken as they are: the cache is enabled when the suite
    enables it, whatever cache medium the cluster declares, the cache
    directory is not rendered against the environment, and the cluster's
    cache configuration is not copied.  As the cache medium of such a task
    stays empty, it never restores or saves an object cache. *)
Theorem vm_task_keeps_suite_cache_settings :
  ∀ j testing defaultS3 taskID testType serviceName serviceModule randStr
    testingInfo basicImage registries clusterInfo,
    findTesting (TestModule_Name testing) = inr testingInfo →
    findBasicImage (PreTest_ImageID (Testing_PreTest testingInfo)) = inr basicImage →
    listRegistryNamespaces = inr registries →
    getCluster (PreTest_ClusterID (Testing_PreTest testingInfo)) = inr clusterInfo →
    Testing_Infrastructure testingInfo = JobVMInfrastructure →
    ∃ task,
      taskOf (toJobtask j testing defaultS3 taskID testType serviceName serviceModule
                randStr) = Some task
      ∧ Props_Cache (Properties (Task_Spec task)) = emptyCache
      ∧ Props_CacheEnable (Properties (Task_Spec task)) = Testing_CacheEnable testingInfo
      ∧ Props_CacheDirType (Properties (Task_Spec task)) = Testing_CacheDirType testingInfo
      ∧ Props_CacheUserDir (Properties (Task_Spec task)) = Testing_CacheUserDir testingInfo
      ∧ (ObjectMedium ≠ "" →
         List.filter isCacheDownload (Steps (Task_Spec task)) = []
         ∧ List.filter isCacheUpload (Steps (Task_Spec task)) = []).
Proof.
  intros j testing defaultS3 taskID testType serviceName serviceModule randStr
    testingInfo basicImage registries clusterInfo E1 E2 E3 E4 Hinfra.
  unfold toJobtask. rewrite E1, E2, E3, E4. cbn zeta.
  rewrite decide_True by done.
  match goal with
  | |- context [assembleSteps ?j ?t ?ti ?d ?id ?ty ?sn ?sm ?jt ?p ?c] =>
      destruct (assembleSteps_cache_settings j t ti d id ty sn sm jt p c)
        as (task & Htask & Hcache & Henable & Hdir & Huser);
      pose proof (assembleSteps_cache_archive j t ti d id ty sn sm jt p c task Htask)
        as Harchive
  end.
  exists task. split; [exact Htask|]. split; [by rewrite Hcache|].
  split; [by rewrite Henable|]. split; [by rewrite Hdir|]. split; [by rewrite Huser|].
  intros Hmedium. cbn zeta in Harchive. rewrite Hcache in Harchive. cbn in Harchive.
  rewrite bool_decide_false, andb_false_r in Harchive by done. done.
Qed.

(** X17.  On a cluster whose cache medium is the object medium the object
    store of the cache is looked up before the suite's cache flag is
    consulted: when that lookup fails, [toJobtask] fails with the task as
    far as it was built, without a single step, whether or not the suite
    enables the cache. *)
Theorem object_cache_store_is_fetched_eagerly :
  ∀ j testing defaultS3 taskID testType serviceName serviceModule randStr
    testingInfo basicImage registries clusterInfo err,
    findTesting (TestModule_Name testing) = inr testingInfo →
    findBasicImage (PreTest_ImageID (Testing_PreTest testingInfo)) = inr basicImage →
    listRegistryNamespaces = inr registries →
    getCluster (PreTest_ClusterID (Testing_PreTest testingInfo)) = inr clusterInfo →
    Testing_Infrastructure testingInfo ≠ JobVMInfrastructure →
    Cache_MediumType (K8SCluster_Cache clusterInfo) = ObjectMedium →
    ObjectMedium ≠ "" →
    findS3 (Cache_ObjectProperties_ID (K8SCluster_Cache clusterInfo)) = inl err →
    ∃ task,
      toJobtask j testing defaultS3 taskID testType serviceName serviceModule randStr
      = Failed (Some task)
          ("find cache s3 storage: "
             +:+ Cache_ObjectProperties_ID (K8SCluster_Cache clusterInfo)
             +:+ " error: " +:+ err)
      ∧ Steps (Task_Spec task) = []
      ∧ Props_CacheEnable (Properties (Task_Spec task)) = Testing_CacheEnable testingInfo.
Proof.
  intros j testing defaultS3 taskID testType serviceName serviceModule randStr
    testingInfo basicImage registries clusterInfo err E1 E2 E3 E4 Hinfra Hmedium Hne Hs3.
  unfold toJobtask. rewrite E1, E2, E3, E4. cbn zeta.
  rewrite decide_False by done.
  rewrite decide_False by (rewrite Hmedium; done).
  cbn [Props_Cache setCache].
  rewrite decide_True by done. rewrite Hs3. by eexists.
Qed.

(** The key of whatever task [toJobtask] hands back. *)
Lemma toJobtask_Key j testing defaultS3 taskID testType serviceName serviceModule
    randStr task :
  taskOf (toJobtask j testing defaultS3 taskID testType serviceName serviceModule
            randStr) = Some task →
  Task_Key task = taskKey j testType (TestModule_Name testing) serviceName serviceModule.
Proof.
  intros Htask.
  destruct (toJobtask_cases j testing defaultS3 taskID testType serviceName
              serviceModule randStr)
    as [[err E]|[(jobTask & err & E & _ & Hkey)|(testingInfo & jobTask & props & cacheS3
                                                 & E & _ & Hkey & _)]];
    rewrite E in Htask.
  - done.
  - by injection Htask as <-.
  - destruct (assembleSteps_Key _ _ _ _ _ _ _ _ _ _ _ _ Htask) as [-> _]. done.
Qed.

(** X18.  The random suffix reaches only the name and the job info of a
    product-level task.  A service-level compilation does not depend on it
    at all; and at either level the key of whatever task [toJobtask] hands
    back is the job name joined with the suite name (and, at the service
    level, the service name and module), never the suffix. *)
Theorem random_suffix_is_product_level_only :
  ∀ j testing defaultS3 taskID testType serviceName serviceModule randStr,
    (testType = ServiceTestType →
     ∀ randStr',
       toJobtask j testing defaultS3 taskID testType serviceName serviceModule randStr'
       = toJobtask j testing defaultS3 taskID testType serviceName serviceModule randStr)
    ∧ (∀ task,
       taskOf (toJobtask j testing defaultS3 taskID testType serviceName serviceModule
                 randStr) = Some task →
       Task_Key task
       = taskKey j testType (TestModule_Name testing) serviceName serviceModule).
Proof.
  intros j testing defaultS3 taskID testType serviceName serviceModule randStr. split.
  - intros Hty randStr'. unfold toJobtask.
    destruct (findTesting _) as [err|testingInfo]; [done|].
    destruct (findBasicImage _) as [err|basicImage]; [done|].
    destruct listRegistryNamespaces as [err|registries]; [done|].
    cbn zeta. by rewrite !(decide_True (P := testType = ServiceTestType)) by done.
  - intros task. apply toJobtask_Key.
Qed.

(* --------------------------------------------------------------------- *)
(** ** Further properties of [ToJobs] *)
(* --------------------------------------------------------------------- *)

Lemma compileModules_app j defaultS3 taskID pre rest resp :
  compileModules j defaultS3 taskID (pre ++ rest) resp
  = match compileModules j defaultS3 taskID pre resp with
    | (resp', None) => compileModules j defaultS3 taskID rest resp'
    | failed => failed
    end.
Proof.
  revert resp. induction pre as [|testing pre IH]; intros resp; [done|].
  cbn. destruct (toJobtask _ _ _ _ _ _ _ _); [apply IH|done].
Qed.

(** When every module compiles, the loop appends one task per module, in
    the order of the modules. *)
Lemma compileModules_keys j defaultS3 taskID testings resp :
  ServiceTestType ≠ "" →
  (∀ testing, testing ∈ testings → compiles j testing defaultS3 taskID "" "" "") →
  ∃ tasks,
    compileModules j defaultS3 taskID testings resp = (resp ++ tasks, None)
    ∧ Task_Key <$> tasks
      = (λ testing, joinDot [Job_Name (job j); TestModule_Name testing]) <$> testings.
Proof.
  intros Hty. revert resp. induction testings as [|testing testings IH]; intros resp Hall.
  { exists []. by rewrite app_nil_r. }
  destruct (Hall testing (list_elem_of_here _ _) (randString (length resp)))
    as [jobTask Htask].
  destruct (IH (resp ++ [jobTask])) as (tasks & Hrest & Hkeys).
  { intros other Hother. apply Hall. by apply list_elem_of_further. }
  exists (jobTask :: tasks). cbn. rewrite Htask, Hrest, <- app_assoc. split; [done|].
  rewrite Hkeys. f_equal.
  rewrite (toJobtask_Key j testing defaultS3 taskID "" "" "" (randString (length resp)))
    by (by rewrite Htask).
  unfold taskKey. by rewrite decide_False by done.
Qed.

(** X19.  A product-level job that is not quoted from another job and
    whose modules all compile yields exactly one task per test module, in
    the order of the modules, keyed by the job name joined with the module
    name. *)
Theorem product_level_tasks_follow_modules :
  ∀ j taskID sp defaultS3,
    IToi (Job_Spec (job j)) = inr sp →
    findDefaultS3 = inr defaultS3 →
    Spec_TestType sp = ProductTestType →
    ProductTestType ≠ ServiceTestType →
    ServiceTestType ≠ "" →
    Spec_Source sp ≠ SourceFromJob →
    (∀ testing, testing ∈ Spec_TestModules sp →
       compiles j testing defaultS3 taskID "" "" "") →
    ∃ tasks,
      (ToJobs j taskID).2 = (tasks, None)
      ∧ Task_Key <$> tasks
        = (λ testing, joinDot [Job_Name (job j); TestModule_Name testing])
            <$> Spec_TestModules sp.
Proof.
  intros j taskID sp defaultS3 Hdecode Hs3 Hty Hlevels Hservice Hsource Hall.
  unfold ToJobs. rewrite Hdecode, Hs3. cbn zeta.
  rewrite (decide_True (P := Spec_TestType sp = ProductTestType)) by done.
  destruct (compileModules_keys (storeSpec sp j) defaultS3 taskID (Spec_TestModules sp) []
              Hservice) as (tasks & -> & Hkeys).
  { intros testing Hin randStr. rewrite toJobtask_storeSpec. by apply Hall. }
  rewrite decide_False by done. cbn.
  rewrite decide_False by (rewrite Hty; done).
  by exists tasks.
Qed.

(** X20.  When a module of a product-level job fails to compile, [ToJobs]
    stops there: it returns the error of that module together with the
    tasks of the modules before it, and the modules after it are never
    compiled. *)
Theorem product_level_failure_keeps_earlier_tasks :
  ∀ j taskID sp defaultS3 pre testing post err,
    IToi (Job_Spec (job j)) = inr sp →
    findDefaultS3 = inr defaultS3 →
    Spec_TestType sp = ProductTestType →
    ServiceTestType ≠ "" →
    Spec_TestModules sp = pre ++ testing :: post →
    (∀ earlier, earlier ∈ pre → compiles j earlier defaultS3 taskID "" "" "") →
    (∀ randStr, ∃ partial,
       toJobtask j testing defaultS3 taskID "" "" "" randStr = Failed partial err) →
    ∃ tasks,
      (ToJobs j taskID).2 = (tasks, Some err)
      ∧ Task_Key <$> tasks
        = (λ earlier, joinDot [Job_Name (job j); TestModule_Name earlier]) <$> pre.
Proof.
  intros j taskID sp defaultS3 pre testing post err Hdecode Hs3 Hty Hservice Hmodules
    Hpre Hfail.
  unfold ToJobs. rewrite Hdecode, Hs3. cbn zeta.
  rewrite (decide_True (P := Spec_TestType sp = ProductTestType)) by done.
  rewrite Hmodules, compileModules_app.
  destruct (compileModules_keys (storeSpec sp j) defaultS3 taskID pre [] Hservice)
    as (tasks & -> & Hkeys).
  { intros earlier Hin randStr. rewrite toJobtask_storeSpec. by apply Hpre. }
  cbn. rewrite toJobtask_storeSpec.
  destruct (Hfail (randString (length tasks))) as [partial ->].
  by exists tasks.
Qed.

(** The compiler reads nothing of the job but its name, its error policy
    and the workflow. *)
Lemma compileServiceTests_storeSpec sp j defaultS3 taskID testType target testings resp :
  compileServiceTests (storeSpec sp j) defaultS3 taskID testType target testings resp
  = compileServiceTests j defaultS3 taskID testType target testings resp.
Proof.
  revert resp. induction testings as [|testing testings IH]; intros resp; [done|].
  cbn. rewrite IH. destruct (decide _); [done|].
  rewrite toJobtask_storeSpec. destruct (toJobtask _ _ _ _ _ _ _ _); [apply IH|done].
Qed.

Lemma compileTargets_storeSpec sp j defaultS3 taskID testType targets testings resp :
  compileTargets (storeSpec sp j) defaultS3 taskID testType targets testings resp
  = compileTargets j defaultS3 taskID testType targets testings resp.
Proof.
  revert resp. induction targets as [|target targets IH]; intros resp; [done|].
  cbn. rewrite compileServiceTests_storeSpec.
  destruct (compileServiceTests _ _ _ _ _ _ _) as [resp' [err|]]; [done|apply IH].
Qed.

(** The keys of the tasks compiled for one target: one per test configured
    for it, in the order of the tests. *)
Lemma compileServiceTests_keys j defaultS3 taskID target testings resp :
  (∀ testing, testing ∈ testings → configuredFor target testing →
     compiles j (SAT_TestModule testing) defaultS3 taskID ServiceTestType
       (SAT_ServiceName testing) (SAT_ServiceModule testing)) →
  ∃ tasks,
    compileServiceTests j defaultS3 taskID ServiceTestType target testings resp
    = (resp ++ tasks, None)
    ∧ Task_Key <$> tasks
      = (λ testing, joinDot [Job_Name (job j); TestModule_Name (SAT_TestModule testing);
                             SAT_ServiceName testing; SAT_ServiceModule testing])
          <$> filter (λ testing, SAT_ServiceName testing = Target_ServiceName target
                                 ∧ SAT_ServiceModule testing = Target_ServiceModule target)
                testings.
Proof.
  revert resp. induction testings as [|testing testings IH]; intros resp Hall.
  { exists []. by rewrite app_nil_r. }
  rewrite filter_cons. cbn [compileServiceTests].
  destruct (decide (SAT_ServiceName testing ≠ Target_ServiceName target
                    ∨ SAT_ServiceModule testing ≠ Target_ServiceModule target))
    as [Hskip|Hhit].
  - rewrite decide_False by tauto. apply IH.
    intros other Hother. apply Hall. by apply list_elem_of_further.
  - assert (Hconf : configuredFor target testing).
    { unfold configuredFor.
      destruct (decide (SAT_ServiceName testing = Target_ServiceName target));
        destruct (decide (SAT_ServiceModule testing = Target_ServiceModule target));
        tauto. }
    rewrite decide_True by done.
    destruct (Hall testing (list_elem_of_here _ _) Hconf (randString (length resp)))
      as [jobTask Htask].
    destruct (IH (resp ++ [jobTask])) as (tasks & Hrest & Hkeys).
    { intros other Hother. apply Hall. by apply list_elem_of_further. }
    exists (jobTask :: tasks). rewrite Htask, Hrest, <- app_assoc. split; [done|].
    cbn. rewrite Hkeys. f_equal.
    rewrite (toJobtask_Key j (SAT_TestModule testing) defaultS3 taskID ServiceTestType
               (SAT_ServiceName testing) (SAT_ServiceModule testing)
               (randString (length resp))) by (by rewrite Htask).
    unfold taskKey. by rewrite decide_True by done.
Qed.

Lemma compileTargets_keys j defaultS3 taskID targets testings resp :
  (∀ target testing, target ∈ targets → testing ∈ testings →
     configuredFor target testing →
     compiles j (SAT_TestModule testing) defaultS3 taskID ServiceTestType
       (SAT_ServiceName testing) (SAT_ServiceModule testing)) →
  ∃ tasks,
    compileTargets j defaultS3 taskID ServiceTestType targets testings resp
    = (resp ++ tasks, None)
    ∧ Task_Key <$> tasks
      = target ← targets;
        (λ testing, joinDot [Job_Name (job j); TestModule_Name (SAT_TestModule testing);
                             SAT_ServiceName testing; SAT_ServiceModule testing])
          <$> filter (λ testing, SAT_ServiceName testing = Target_ServiceName target
                                 ∧ SAT_ServiceModule testing = Target_ServiceModule target)
                testings.
Proof.
  revert resp. induction targets as [|target targets IH]; intros resp Hall.
  { exists []. by rewrite app_nil_r. }
  destruct (compileServiceTests_keys j defaultS3 taskID target testings resp)
    as (first & Hfirst & Hkeys1).
  { intros testing Hin. apply Hall; [apply list_elem_of_here|done]. }
  destruct (IH (resp ++ first)) as (rest & Hrest & Hkeys2).
  { intros other testing Hother. apply Hall. by apply list_elem_of_further. }
  exists (first ++ rest). cbn [compileTargets]. rewrite Hfirst, Hrest, <- app_assoc.
  split; [done|]. rewrite fmap_app, Hkeys1, Hkeys2. done.
Qed.

(** X21.  A service-level job that is not quoted from another job compiles
    its tasks target by target, and for each target test by test: one task
    for every test configured for the target's service and module, keyed by
    job name, suite, service and module.  A test configured for no target
    is never compiled, so its suite need not even exist; a target listed
    twice is compiled twice. *)
Theorem service_level_tasks_follow_targets :
  ∀ j taskID sp defaultS3,
    IToi (Job_Spec (job j)) = inr sp →
    findDefaultS3 = inr defaultS3 →
    Spec_TestType sp = ServiceTestType →
    ProductTestType ≠ ServiceTestType →
    Spec_Source sp ≠ SourceFromJob →
    (∀ target testing,
       target ∈ Spec_TargetServices sp → testing ∈ Spec_ServiceAndTests sp →
       configuredFor target testing →
       compiles j (SAT_TestModule testing) defaultS3 taskID ServiceTestType
         (SAT_ServiceName testing) (SAT_ServiceModule testing)) →
    ∃ tasks,
      (ToJobs j taskID).2 = (tasks, None)
      ∧ Task_Key <$> tasks
        = target ← Spec_TargetServices sp;
          (λ testing, joinDot [Job_Name (job j); TestModule_Name (SAT_TestModule testing);
                               SAT_ServiceName testing; SAT_ServiceModule testing])
            <$> filter (λ testing,
                          SAT_ServiceName testing = Target_ServiceName target
                          ∧ SAT_ServiceModule testing = Target_ServiceModule target)
                  (Spec_ServiceAndTests sp).
Proof.
  intros j taskID sp defaultS3 Hdecode Hs3 Hty Hlevels Hsource Hall.
  unfold ToJobs. rewrite Hdecode, Hs3. cbn zeta.
  rewrite (decide_False (P := Spec_TestType sp = ProductTestType))
    by (rewrite Hty; done).
  rewrite decide_False by done. cbn.
  rewrite decide_True by done. rewrite Hty, !compileTargets_storeSpec.
  destruct (compileTargets_keys j defaultS3 taskID (Spec_TargetServices sp)
              (Spec_ServiceAndTests sp) [] Hall) as (tasks & -> & Hkeys).
  by exists tasks.
Qed.

(** X22.  A service-level job quoted from another job takes its targets
    from that job alone.  The job it resolves is the origin job name when
    there is one, the job name otherwise; a failure of the resolver is
    returned wrapped, with no task; and on success the targets the spec
    held before are discarded: the spec afterwards holds the resolved
    targets, and the tasks are those of the resolved targets. *)
Theorem quoted_job_replaces_targets :
  ∀ j taskID sp defaultS3,
    IToi (Job_Spec (job j)) = inr sp →
    findDefaultS3 = inr defaultS3 →
    Spec_TestType sp = ServiceTestType →
    ProductTestType ≠ ServiceTestType →
    Spec_Source sp = SourceFromJob →
    let name :=
      if decide (Spec_OriginJobName sp ≠ "") then Spec_OriginJobName sp
      else Spec_JobName sp in
    (∀ err,
       getOriginReferedJobTargets j name = inl err →
       (ToJobs j taskID).2
       = ([], Some ("get origin refered job: " +:+ name +:+ " targets failed, err: "
                      +:+ err)))
    ∧ (∀ targets,
       getOriginReferedJobTargets j name = inr targets →
       Spec_TargetServices (spec (ToJobs j taskID).1) = targets
       ∧ Spec_JobName (spec (ToJobs j taskID).1) = name
       ∧ (ToJobs j taskID).2
         = compileTargets j defaultS3 taskID ServiceTestType targets
             (Spec_ServiceAndTests sp) []).
Proof.
  intros j taskID sp defaultS3 Hdecode Hs3 Hty Hlevels Hsource name.
  assert (Hname :
    Spec_JobName (if decide (Spec_OriginJobName sp ≠ "")
                  then setJobNames (Spec_OriginJobName sp) (Spec_OriginJobName sp) sp
                  else sp) = name).
  { unfold name. by destruct (decide _). }
  unfold ToJobs. rewrite Hdecode, Hs3. cbn zeta.
  rewrite (decide_False (P := Spec_TestType sp = ProductTestType))
    by (rewrite Hty; done).
  rewrite (decide_True (P := Spec_Source sp = SourceFromJob)) by done.
  rewrite Hname.
  change (getOriginReferedJobTargets (storeSpec sp j) name)
    with (getOriginReferedJobTargets j name).
  split.
  - intros err ->. done.
  - intros targets ->. cbn.
    assert (Hty' :
      Spec_TestType (if decide (Spec_OriginJobName sp ≠ "")
                     then setJobNames (Spec_OriginJobName sp) (Spec_OriginJobName sp) sp
                     else sp) = ServiceTestType).
    { by destruct (decide _). }
    assert (Htests :
      Spec_ServiceAndTests
        (if decide (Spec_OriginJobName sp ≠ "")
         then setJobNames (Spec_OriginJobName sp) (Spec_OriginJobName sp) sp
         else sp) = Spec_ServiceAndTests sp).
    { by destruct (decide _). }
    rewrite Hty', decide_True by done. cbn.
    rewrite !compileTargets_storeSpec, Hname, Htests. done.
Qed.

(* --------------------------------------------------------------------- *)
(** ** Further properties of [SetPreset] *)
(* --------------------------------------------------------------------- *)

Lemma SetPreset_targets j sp :
  IToi (Job_Spec (job j)) = inr sp →
  Spec_TestType sp = ServiceTestType →
  Spec_TargetServices (spec (SetPreset j).1.1)
  = filter (λ target,
              serviceKey (Target_ServiceName target) (Target_ServiceModule target)
              ∈ (list_to_set ((λ testing, serviceKey (SAT_ServiceName testing)
                                            (SAT_ServiceModule testing))
                                <$> Spec_ServiceAndTests sp) : gset string))
      (Spec_TargetServices sp).
Proof.
  intros E Hty. unfold SetPreset. rewrite E.
  repeat (case_decide; cbn in * ); first [done | congruence].
Qed.

Lemma append_assoc (a b c : string) : (a +:+ b) +:+ c = a +:+ (b +:+ c).
Proof.
  induction a as [|x a IH]; [done|].
  change (String x ((a +:+ b) +:+ c) = String x (a +:+ (b +:+ c))). by rewrite IH.
Qed.

(** The key of a pair does not tell where the service name ends. *)
Lemma serviceKey_slash a b c :
  serviceKey (a +:+ "/" +:+ b) c = serviceKey a (b +:+ "/" +:+ c).
Proof. unfold serviceKey. by rewrite append_assoc. Qed.

(** X23.  On a service-level job [SetPreset] keeps, in their order, exactly
    the targets whose key, service name and module joined by a slash, is
    the key of some configured test.  The key is all that is compared: a
    target whose service name is [a/b] and whose module is [c] is kept
    when the only test is configured for service [a] and module [b/c]. *)
Theorem preset_keeps_targets_by_key :
  ∀ j sp,
    IToi (Job_Spec (job j)) = inr sp →
    Spec_TestType sp = ServiceTestType →
    let kept := Spec_TargetServices (spec (SetPreset j).1.1) in
    kept `sublist_of` Spec_TargetServices sp
    ∧ (∀ target,
       target ∈ kept ↔
       target ∈ Spec_TargetServices sp
       ∧ ∃ testing,
           testing ∈ Spec_ServiceAndTests sp
           ∧ serviceKey (SAT_ServiceName testing) (SAT_ServiceModule testing)
             = serviceKey (Target_ServiceName target) (Target_ServiceModule target))
    ∧ (∀ a b c testing,
       mkServiceTestTarget (a +:+ "/" +:+ b) c ∈ Spec_TargetServices sp →
       testing ∈ Spec_ServiceAndTests sp →
       SAT_ServiceName testing = a →
       SAT_ServiceModule testing = b +:+ "/" +:+ c →
       mkServiceTestTarget (a +:+ "/" +:+ b) c ∈ kept).
Proof.
  intros j sp E Hty kept.
  assert (Hkept : ∀ target,
    target ∈ kept ↔
    target ∈ Spec_TargetServices sp
    ∧ ∃ testing,
        testing ∈ Spec_ServiceAndTests sp
        ∧ serviceKey (SAT_ServiceName testing) (SAT_ServiceModule testing)
          = serviceKey (Target_ServiceName target) (Target_ServiceModule target)).
  { intros target. unfold kept. rewrite (SetPreset_targets j sp E Hty).
    rewrite list_elem_of_filter, elem_of_list_to_set, list_elem_of_fmap.
    split.
    - intros [(testing & Hkey & Hin) Htarget]. split; [done|]. by exists testing.
    - intros [Htarget (testing & Hin & Hkey)]. split; [|done]. by exists testing. }
  split; [|split].
  - unfold kept. rewrite (SetPreset_targets j sp E Hty). apply sublist_filter.
  - exact Hkept.
  - intros a b c testing Htarget Hin Hname Hmodule. apply Hkept. split; [done|].
    exists testing. split; [done|]. rewrite Hname, Hmodule. symmetry.
    apply serviceKey_slash.
Qed.

Lemma presetModule_Name testing :
  TestModule_Name (presetModule testing).1 = TestModule_Name testing.
Proof. unfold presetModule. by destruct (findTesting _). Qed.

Lemma presetServiceAndTest_names testing :
  SAT_ServiceName (presetServiceAndTest testing).1 = SAT_ServiceName testing
  ∧ SAT_ServiceModule (presetServiceAndTest testing).1 = SAT_ServiceModule testing
  ∧ TestModule_Name (SAT_TestModule (presetServiceAndTest testing).1)
    = TestModule_Name (SAT_TestModule testing).
Proof.
  unfold presetServiceAndTest.
  pose proof (presetModule_Name (SAT_TestModule testing)) as Hname.
  by destruct (presetModule _).
Qed.

(** X24.  What [SetPreset] leaves alone.  Once the spec decodes, the
    payload of the job afterwards is the typed spec; the test type and the
    source are unchanged; the test modules and the service tests keep their
    number, order and names, and the service tests their service and
    module; and the job names are renamed exactly when the job is quoted
    from another one: the job name becomes the origin job name, and the new
    job name is the one the workflow gives for it. *)
Theorem preset_keeps_names :
  ∀ j sp,
    IToi (Job_Spec (job j)) = inr sp →
    let after := spec (SetPreset j).1.1 in
    Job_Spec (job (SetPreset j).1.1) = boxSpec after
    ∧ Spec_TestType after = Spec_TestType sp
    ∧ Spec_Source after = Spec_Source sp
    ∧ TestModule_Name <$> Spec_TestModules after = TestModule_Name <$> Spec_TestModules sp
    ∧ (λ testing, (SAT_ServiceName testing, SAT_ServiceModule testing,
                   TestModule_Name (SAT_TestModule testing)))
        <$> Spec_ServiceAndTests after
      = (λ testing, (SAT_ServiceName testing, SAT_ServiceModule testing,
                     TestModule_Name (SAT_TestModule testing)))
          <$> Spec_ServiceAndTests sp
    ∧ (Spec_JobName after, Spec_OriginJobName after)
      = (if decide (Spec_Source sp = SourceFromJob)
         then (getOriginJobName (workflow j) (Spec_JobName sp), Spec_JobName sp)
         else (Spec_JobName sp, Spec_OriginJobName sp)).
Proof.
  intros j sp E after. unfold after, SetPreset. rewrite E.
  assert (Hmods : TestModule_Name <$> (presetModule <$> Spec_TestModules sp).*1
                  = TestModule_Name <$> Spec_TestModules sp).
  { rewrite <- !list_fmap_compose. apply list_fmap_ext. intros i testing _. cbn.
    apply presetModule_Name. }
  assert (Hsats :
    (λ testing, (SAT_ServiceName testing, SAT_ServiceModule testing,
                 TestModule_Name (SAT_TestModule testing)))
      <$> (presetServiceAndTest <$> Spec_ServiceAndTests sp).*1
    = (λ testing, (SAT_ServiceName testing, SAT_ServiceModule testing,
                   TestModule_Name (SAT_TestModule testing)))
        <$> Spec_ServiceAndTests sp).
  { rewrite <- !list_fmap_compose. apply list_fmap_ext. intros i testing _. cbn.
    by destruct (presetServiceAndTest_names testing) as (-> & -> & ->). }
  repeat (case_decide; cbn in * ); repeat split; first [done | congruence].
Qed.

(* --------------------------------------------------------------------- *)
(** ** The spec resolver *)
(* --------------------------------------------------------------------- *)

Lemma moduleRepos_found testing repo :
  repo ∈ (moduleRepos testing).1 →
  ∃ testingInfo,
    findTesting (TestModule_Name testing) = inr testingInfo
    ∧ repo ∈ mergeRepos (Testing_Repos testingInfo) (TestModule_Repos testing).
Proof.
  unfold moduleRepos. destruct (findTesting _) as [err|testingInfo]; cbn.
  - by intros ?%elem_of_nil.
  - intros Hin. by exists testingInfo.
Qed.

Lemma moduleRepos_logged testing line :
  line ∈ (moduleRepos testing).2 →
  ∃ err,
    findTesting (TestModule_Name testing) = inl err
    ∧ line = "find testing: " +:+ TestModule_Name testing +:+ " error: " +:+ err.
Proof.
  unfold moduleRepos. destruct (findTesting _) as [err|testingInfo]; cbn.
  - intros ->%list_elem_of_singleton. by exists err.
  - by intros ?%elem_of_nil.
Qed.

(** X25.  [GetRepos] never fails once the spec decodes, and does not touch
    the payload of the job.  A suite the catalog does not find is skipped
    with one logged line: every repository returned comes from merging the
    repositories of a suite that was found with those of its test module,
    a product-level module or the module of a service test according to
    the test type; and every line logged names a suite that was not
    found. *)
Theorem get_repos_skips_missing_suites :
  ∀ j sp,
    IToi (Job_Spec (job j)) = inr sp →
    (GetRepos j).2.2 = None
    ∧ job (GetRepos j).1.1 = job j
    ∧ (∀ repo,
       repo ∈ (GetRepos j).2.1 →
       ∃ testing testingInfo,
         (Spec_TestType sp = ProductTestType ∧ testing ∈ Spec_TestModules sp
          ∨ Spec_TestType sp = ServiceTestType
            ∧ testing ∈ SAT_TestModule <$> Spec_ServiceAndTests sp)
         ∧ findTesting (TestModule_Name testing) = inr testingInfo
         ∧ repo ∈ mergeRepos (Testing_Repos testingInfo) (TestModule_Repos testing))
    ∧ (∀ line,
       line ∈ (GetRepos j).1.2 →
       ∃ testing err,
         findTesting (TestModule_Name testing) = inl err
         ∧ line = "find testing: " +:+ TestModule_Name testing +:+ " error: " +:+ err).
Proof.
  intros j sp E. unfold GetRepos. rewrite E. cbn.
  split; [done|]. split; [done|]. split.
  - intros repo [Hin|Hin]%elem_of_app;
      apply elem_of_concat in Hin as (repos & Hrepos & Hin);
      apply list_elem_of_fmap in Hrepos as ([repos' logs] & -> & Hrepos);
      destruct (decide _) as [Hty|Hty]; try (by apply elem_of_nil in Hrepos);
      apply list_elem_of_fmap in Hrepos as (testing & Heq & Hmem);
      cbn in Hin.
    + destruct (moduleRepos_found testing repo) as (testingInfo & Hfind & Hrepo);
        [by rewrite <- Heq|].
      exists testing, testingInfo. split; [by left|done].
    + destruct (moduleRepos_found (SAT_TestModule testing) repo)
        as (testingInfo & Hfind & Hrepo); [by rewrite <- Heq|].
      exists (SAT_TestModule testing), testingInfo. split; [|done].
      right. split; [done|]. apply list_elem_of_fmap. by exists testing.
  - intros line [Hin|Hin]%elem_of_app;
      apply elem_of_concat in Hin as (lines & Hlines & Hin);
      apply list_elem_of_fmap in Hlines as ([repos' logs] & -> & Hlines);
      destruct (decide _) as [Hty|Hty]; try (by apply elem_of_nil in Hlines);
      apply list_elem_of_fmap in Hlines as (testing & Heq & Hmem);
      cbn in Hin.
    + destruct (moduleRepos_logged testing line) as (err & Hfind & Hline);
        [by rewrite <- Heq|].
      by exists testing, err.
    + destruct (moduleRepos_logged (SAT_TestModule testing) line)
        as (err & Hfind & Hline); [by rewrite <- Heq|].
      by exists (SAT_TestModule testing), err.
Qed.

Lemma mergeTestModule_first testing pre override post :
  (∀ other, other ∈ pre → TestModule_Name testing ≠ TestModule_Name other) →
  TestModule_Name testing = TestModule_Name override →
  mergeTestModule testing (pre ++ override :: post) = mergeModule testing override.
Proof.
  intros Hpre Hname. induction pre as [|other pre IH]; cbn.
  - by rewrite decide_True.
  - rewrite decide_False by (apply Hpre, list_elem_of_here).
    apply IH. intros other' Hin. apply Hpre. by apply list_elem_of_further.
Qed.

Lemma mergeTestModule_none testing overrides :
  (∀ other, other ∈ overrides → TestModule_Name testing ≠ TestModule_Name other) →
  mergeTestModule testing overrides = testing.
Proof.
  intros Hall. induction overrides as [|other overrides IH]; cbn; [done|].
  rewrite decide_False by (apply Hall, list_elem_of_here).
  apply IH. intros other' Hin. apply Hall. by apply list_elem_of_further.
Qed.

(** X26.  [MergeArgs] on a product-level job.  Arguments of another job
    name or job type are ignored without even being decoded.  Otherwise
    each test module takes the key-values and repositories of the first
    argument module of the same name, later ones of that name being
    ignored, and a module without a namesake among the arguments is left as
    it is; the target services are not touched. *)
Theorem merge_args_first_namesake_wins :
  ∀ j args,
    (Job_Name (job j) ≠ Job_Name args ∨ Job_JobType (job j) ≠ Job_JobType args →
     MergeArgs j args = (j, None))
    ∧ (∀ sp argsSpec,
       Job_Name (job j) = Job_Name args →
       Job_JobType (job j) = Job_JobType args →
       IToi (Job_Spec (job j)) = inr sp →
       IToi (Job_Spec args) = inr argsSpec →
       Spec_TestType sp = ProductTestType →
       ProductTestType ≠ ServiceTestType →
       let after := spec (MergeArgs j args).1 in
       (MergeArgs j args).2 = None
       ∧ Spec_TargetServices after = Spec_TargetServices sp
       ∧ ∀ i testing,
           Spec_TestModules sp !! i = Some testing →
           ((∀ other, other ∈ Spec_TestModules argsSpec →
               TestModule_Name testing ≠ TestModule_Name other) →
            Spec_TestModules after !! i = Some testing)
           ∧ (∀ pre override post,
                Spec_TestModules argsSpec = pre ++ override :: post →
                (∀ other, other ∈ pre →
                   TestModule_Name testing ≠ TestModule_Name other) →
                TestModule_Name testing = TestModule_Name override →
                Spec_TestModules after !! i = Some (mergeModule testing override))).
Proof.
  intros j args. split.
  - intros Hne. unfold MergeArgs. by rewrite decide_False by tauto.
  - intros sp argsSpec Hname Hjobtype E Eargs Hty Hlevels after.
    unfold after, MergeArgs. rewrite decide_True by done. rewrite E, Eargs. cbn zeta.
    rewrite (decide_True (P := Spec_TestType sp = ProductTestType)) by done.
    rewrite decide_False by (cbn; rewrite Hty; done). cbn.
    split; [done|]. split; [done|].
    intros i testing Hi. rewrite list_lookup_fmap, Hi. cbn. split.
    + intros Hnone. by rewrite mergeTestModule_none.
    + intros pre override post -> Hpre Hsame. by rewrite mergeTestModule_first.
Qed.

Lemma mergeServiceAndTest_first testing pre override post :
  (∀ other, other ∈ pre →
     ¬ (TestModule_Name (SAT_TestModule testing) = TestModule_Name (SAT_TestModule other)
        ∧ SAT_ServiceName testing = SAT_ServiceName other)) →
  TestModule_Name (SAT_TestModule testing) = TestModule_Name (SAT_TestModule override) →
  SAT_ServiceName testing = SAT_ServiceName override →
  mergeServiceAndTest testing (pre ++ override :: post)
  = {| SAT_ServiceName := SAT_ServiceName testing;
       SAT_ServiceModule := SAT_ServiceModule testing;
       SAT_TestModule := mergeModule (SAT_TestModule testing) (SAT_TestModule override) |}.
Proof.
  intros Hpre Hname Hservice. induction pre as [|other pre IH]; cbn.
  - by rewrite decide_True.
  - rewrite decide_False by (apply Hpre, list_elem_of_here).
    apply IH. intros other' Hin. apply Hpre. by apply list_elem_of_further.
Qed.

(** X27.  [MergeArgs] on a service-level job.  The target services of the
    job are replaced by those of the arguments, whatever they were.  A
    service test takes the key-values and repositories of the first
    argument test with the same suite name and the same service name; the
    service module is not compared, so an argument given for another module
    of the service is merged as well, while the test keeps its own
    module. *)
Theorem merge_args_service_level :
  ∀ j args sp argsSpec,
    Job_Name (job j) = Job_Name args →
    Job_JobType (job j) = Job_JobType args →
    IToi (Job_Spec (job j)) = inr sp →
    IToi (Job_Spec args) = inr argsSpec →
    Spec_TestType sp = ServiceTestType →
    ProductTestType ≠ ServiceTestType →
    let after := spec (MergeArgs j args).1 in
    (MergeArgs j args).2 = None
    ∧ Spec_TargetServices after = Spec_TargetServices argsSpec
    ∧ Spec_TestModules after = Spec_TestModules sp
    ∧ ∀ i testing pre override post,
        Spec_ServiceAndTests sp !! i = Some testing →
        Spec_ServiceAndTests argsSpec = pre ++ override :: post →
        (∀ other, other ∈ pre →
           ¬ (TestModule_Name (SAT_TestModule testing)
              = TestModule_Name (SAT_TestModule other)
              ∧ SAT_ServiceName testing = SAT_ServiceName other)) →
        TestModule_Name (SAT_TestModule testing)
        = TestModule_Name (SAT_TestModule override) →
        SAT_ServiceName testing = SAT_ServiceName override →
        ∃ merged,
          Spec_ServiceAndTests after !! i = Some merged
          ∧ SAT_ServiceModule merged = SAT_ServiceModule testing
          ∧ SAT_ServiceName merged = SAT_ServiceName testing
          ∧ SAT_TestModule merged
            = mergeModule (SAT_TestModule testing) (SAT_TestModule override).
Proof.
  intros j args sp argsSpec Hname Hjobtype E Eargs Hty Hlevels after.
  unfold after, MergeArgs. rewrite decide_True by done. rewrite E, Eargs. cbn zeta.
  rewrite (decide_False (P := Spec_TestType sp = ProductTestType))
    by (rewrite Hty; done).
  rewrite decide_True by done. cbn.
  split; [done|]. split; [done|]. split; [done|].
  intros i testing pre override post Hi -> Hpre Hsame Hservice.
  rewrite list_lookup_fmap, Hi. cbn.
  rewrite mergeServiceAndTest_first by done. by eexists.
Qed.

(** X28.  [MergeWebhookRepo] merges the repository into every
    product-level test module and into nothing else, whatever the test
    type of the job: the service tests, the target services and the names
    and key-values of the modules are unchanged, so the tests of a
    service-level job never receive the webhook repository. *)
Theorem webhook_repo_reaches_test_modules_only :
  ∀ j webhookRepo sp,
    IToi (Job_Spec (job j)) = inr sp →
    let after := spec (MergeWebhookRepo j webhookRepo).1 in
    (MergeWebhookRepo j webhookRepo).2 = None
    ∧ Spec_ServiceAndTests after = Spec_ServiceAndTests sp
    ∧ Spec_TargetServices after = Spec_TargetServices sp
    ∧ length (Spec_TestModules after) = length (Spec_TestModules sp)
    ∧ ∀ i testing,
        Spec_TestModules sp !! i = Some testing →
        ∃ merged,
          Spec_TestModules after !! i = Some merged
          ∧ TestModule_Repos merged = mergeRepos (TestModule_Repos testing) [webhookRepo]
          ∧ TestModule_Name merged = TestModule_Name testing
          ∧ TestModule_KeyVals merged = TestModule_KeyVals testing.
Proof.
  intros j webhookRepo sp E after. unfold after, MergeWebhookRepo. rewrite E. cbn.
  split; [done|]. split; [done|]. split; [done|]. split; [by rewrite length_fmap|].
  intros i testing Hi. rewrite list_lookup_fmap, Hi. by eexists.
Qed.

(** X29.  Clearing the selection empties the target services and nothing
    else; so a service-level job that is not quoted from another job
    compiles to no task at all after [ClearSelectionField], whatever tests
    it configures.  (The payload written back must decode to the spec it
    was made from.) *)
Theorem cleared_selection_compiles_nothing :
  ∀ j taskID sp defaultS3,
    IToiYaml (Job_Spec (job j)) = inr sp →
    IToi (boxSpec (setTargetServices [] sp)) = inr (setTargetServices [] sp) →
    findDefaultS3 = inr defaultS3 →
    Spec_TestType sp = ServiceTestType →
    ProductTestType ≠ ServiceTestType →
    Spec_Source sp ≠ SourceFromJob →
    (ClearSelectionField j).2 = None
    ∧ Spec_ServiceAndTests (spec (ClearSelectionField j).1) = Spec_ServiceAndTests sp
    ∧ Spec_TestModules (spec (ClearSelectionField j).1) = Spec_TestModules sp
    ∧ (ToJobs (ClearSelectionField j).1 taskID).2 = ([], None).
Proof.
  intros j taskID sp defaultS3 E Hround Hs3 Hty Hlevels Hsource.
  unfold ClearSelectionField. rewrite E. cbn [fst snd].
  split; [done|]. split; [done|]. split; [done|].
  unfold ToJobs. cbn [storeSpec job Job_Spec]. rewrite Hround, Hs3. cbn zeta.
  rewrite (decide_False (P := Spec_TestType (setTargetServices [] sp) = ProductTestType))
    by (cbn; rewrite Hty; done).
  rewrite decide_False by done. cbn.
  by rewrite decide_True by done.
Qed.

Lemma outputJobKey_no_pair j sp testingInfo :
  Spec_TestType sp ≠ ServiceTestType
  ∨ Spec_TargetServices sp = [] ∨ Spec_ServiceAndTests sp = [] →
  outputJobKey j sp testingInfo = joinDot [Job_Name (job j); Testing_Name testingInfo].
Proof.
  intros Hcase. unfold outputJobKey.
  destruct (decide (Spec_TestType sp = ServiceTestType)) as [Hty|Hty]; [|done].
  destruct Hcase as [Hne|[->| ->]]; [done|done|].
  induction (Spec_TargetServices sp) as [|target targets IH]; [done|]. exact IH.
Qed.

(** X30.  [GetOutPuts] swallows its errors and takes its suites from the
    test modules.  When the spec does not decode, or the catalog cannot
    list the suites, the result is empty.  Otherwise the suites listed are
    those named by the test modules of the spec, also on a service-level
    job; and when the job is not service-level, or has no target service
    or no service test, the outputs of each suite listed are addressed
    under the job name joined with the suite name, suite by suite. *)
Theorem outputs_come_from_test_modules :
  ∀ j,
    (∀ err, IToiYaml (Job_Spec (job j)) = inl err → (GetOutPuts j).2 = [])
    ∧ (∀ sp,
       IToiYaml (Job_Spec (job j)) = inr sp →
       (∀ err,
          listTesting (TestModule_Name <$> Spec_TestModules sp) = inl err →
          (GetOutPuts j).2 = [])
       ∧ (∀ testingInfos,
          listTesting (TestModule_Name <$> Spec_TestModules sp) = inr testingInfos →
          Spec_TestType sp ≠ ServiceTestType
          ∨ Spec_TargetServices sp = [] ∨ Spec_ServiceAndTests sp = [] →
          (GetOutPuts j).2
          = testingInfo ← testingInfos;
            getOutputKey (joinDot [Job_Name (job j); Testing_Name testingInfo])
              (Testing_Outputs testingInfo))).
Proof.
  intros j. unfold GetOutPuts. split.
  - by intros err ->.
  - intros sp ->. cbn zeta. split.
    + by intros err ->.
    + intros testingInfos -> Hcase. cbn [snd].
      induction testingInfos as [|testingInfo testingInfos IH]; [done|].
      rewrite fmap_cons. cbn [concat]. rewrite IH. cbn. f_equal.
      by rewrite outputJobKey_no_pair.
Qed.

End MoreFacts.

(* --------------------------------------------------------------------- *)
(** ** The claims at concrete inputs *)
(* --------------------------------------------------------------------- *)

#[local] Existing Instances demoModels demoDynamic demoSettings demoWorld.

(** The example of the spec: the build job "build1" declares (svcA, modA)
    and (svcB, modB). *)
Example resolve_example :
  getOriginReferedJobTargets
    (demoTestingJob (demoTestSpec "fromjob" "build1")) "build1"
  = inr [mkServiceTestTarget "svcA" "modA"; mkServiceTestTarget "svcB" "modB"].
Proof. vm_compute. reflexivity. Qed.

Lemma resolve_build_targets_witness :
  getOriginReferedJobTargets
    (demoTestingJob (demoTestSpec "fromjob" "build1")) "build1"
  = inr [mkServiceTestTarget "svcA" "modA"; mkServiceTestTarget "svcB" "modB"]
  ∧ getOriginReferedJobTargets
      (demoTestingJob (demoTestSpec "fromjob" "nowhere")) "nowhere"
    = inl "build job nowhere not found".
Proof.
  split.
  - apply (proj1 (resolve_build_targets)
             (demoTestingJob (demoTestSpec "fromjob" "build1")) "build1" []
             (demoJob "build1" "zadig-build" (BuildPayload demoBuildSpec))
             [demoJob "test" "zadig-test" (TestingPayload (demoTestSpec "fromjob" "build1"))]
             demoBuildSpec).
    + reflexivity.
    + intros other Hin. inversion Hin.
    + reflexivity.
    + reflexivity.
    + reflexivity.
  - apply (proj2 (resolve_build_targets)
             (demoTestingJob (demoTestSpec "fromjob" "nowhere")) "nowhere").
    intros job Hin Hname.
    repeat (apply elem_of_cons in Hin as [->|Hin]; [discriminate Hname|]).
    inversion Hin.
Defined.

Lemma cluster_without_cache_medium_disables_cache_witness :
  ∃ jobTask,
    taskOf (toJobtask (demoTestingJob missingSuiteSpec) (demoModule "t1")
              "default-s3" 1%Z "" "" "" "abcde") = Some jobTask ∧
    Props_CacheEnable (Properties (Task_Spec jobTask)) = false.
Proof.
  apply (cluster_without_cache_medium_disables_cache
           (demoTestingJob missingSuiteSpec) (demoModule "t1") "default-s3" 1%Z "" "" ""
           "abcde" (demoSuite "t1" "kubernetes" true ["IMAGE"]) (mkBasicImage "focal") []
           (mkK8SCluster emptyCache)).
  - reflexivity.
  - reflexivity.
  - reflexivity.
  - reflexivity.
  - discriminate.
  - reflexivity.
Defined.

Lemma lint_only_backward_references_witness :
  (LintJob (demoTestingJob (demoTestSpec "fromjob" "build1"))).2 = None
  ∧ is_Some (LintJob (demoTestingJob (demoTestSpec "fromjob" "test"))).2
  ∧ (LintJob (demoTestingJob (demoTestSpec "" "test"))).2 = None.
Proof.
  split; [|split].
  - assert (Hdecode : IToiYaml (Job_Spec (job (demoTestingJob (demoTestSpec "fromjob" "build1"))))
                      = inr (demoTestSpec "fromjob" "build1")) by reflexivity.
    destruct (lint_only_backward_references _ _ Hdecode) as [_ H].
    destruct (H eq_refl) as (_ & _ & Hpos).
    assert (Hnames : NoDup (Job_Name <$> allJobs
                              (workflow (demoTestingJob (demoTestSpec "fromjob" "build1")))))
      by compute_done.
    apply (Hpos Hnames
             0%nat (mkWorkflowStage [demoJob "build1" "zadig-build" (BuildPayload demoBuildSpec)])
             0%nat (demoJob "build1" "zadig-build" (BuildPayload demoBuildSpec))
             1%nat (mkWorkflowStage [demoJob "test" "zadig-test"
                                       (TestingPayload (demoTestSpec "fromjob" "build1"))])
             0%nat (demoJob "test" "zadig-test"
                      (TestingPayload (demoTestSpec "fromjob" "build1")))
             eq_refl eq_refl eq_refl eq_refl eq_refl eq_refl).
    lia.
  - assert (Hdecode : IToiYaml (Job_Spec (job (demoTestingJob (demoTestSpec "fromjob" "test"))))
                      = inr (demoTestSpec "fromjob" "test")) by reflexivity.
    destruct (lint_only_backward_references _ _ Hdecode) as [_ H].
    destruct (H eq_refl) as (_ & Hself & _). apply Hself. reflexivity.
  - assert (Hdecode : IToiYaml (Job_Spec (job (demoTestingJob (demoTestSpec "" "test"))))
                      = inr (demoTestSpec "" "test")) by reflexivity.
    destruct (lint_only_backward_references _ _ Hdecode) as [H _].
    apply H. discriminate.
Defined.

Lemma lookup_failure_policy_witness :
  (SetPreset (demoTestingJob missingSuiteSpec)).2 = None
  ∧ ∃ resp err, (ToJobs (demoTestingJob missingSuiteSpec) 1%Z).2 = (resp, Some err).
Proof.
  split.
  - assert (Hdecode : IToi (Job_Spec (job (demoTestingJob missingSuiteSpec)))
                      = inr missingSuiteSpec) by reflexivity.
    destruct (proj1 lookup_failure_policy _ _ Hdecode) as [H _]. exact H.
  - apply (proj1 (proj2 (proj2 lookup_failure_policy))
             (demoTestingJob missingSuiteSpec) 1%Z missingSuiteSpec "default-s3"
             (demoModule "gone") "mongo: no documents in result").
    + reflexivity.
    + reflexivity.
    + reflexivity.
    + apply list_elem_of_further, list_elem_of_here.
    + reflexivity.
Defined.

(** The preview keeps going where compilation stops: [SetPreset] logs the
    suite it did not find and returns no error; [ToJobs] returns the task
    of the first suite and the error of the second. *)
Example preset_and_compile_example :
  (SetPreset (demoTestingJob missingSuiteSpec)).1.2
  = ["find testing: gone error: mongo: no documents in result"]
  ∧ (SetPreset (demoTestingJob missingSuiteSpec)).2 = None
  ∧ Task_Key <$> (ToJobs (demoTestingJob missingSuiteSpec) 1%Z).2.1 = ["test.t1"]
  ∧ (ToJobs (demoTestingJob missingSuiteSpec) 1%Z).2.2
    = Some "find testing: gone error: mongo: no documents in result".
Proof. repeat split; vm_compute; reflexivity. Qed.

(** C7, at a failing input: a service-level job with the suites t1 (output
    IMAGE) and t2 (output REPORT) both configured for (svcA, modA).
    [ToJobs] compiles one task per suite, keyed test.t1.svcA.modA and
    test.t2.svcA.modA; [GetOutPuts] addresses the outputs of both suites
    under the key of the last pair, test.t2.svcA.modA, so the output of t1
    is not returned under the key of its own task.  With no target chosen
    the same job gets the two-part keys of a product-level job. *)
Theorem GetOutPuts_service_key_of_last_pair :
  (GetOutPuts (demoTestingJob twoSuitesSpec)).2
  = [ GetJobOutputKey "test.t2.svcA.modA" "IMAGE";
      GetJobOutputKey "test.t2.svcA.modA" "REPORT" ]
  ∧ Task_Key <$> (ToJobs (demoTestingJob twoSuitesSpec) 1%Z).2.1
    = ["test.t1.svcA.modA"; "test.t2.svcA.modA"]
  ∧ (GetOutPuts
       (demoTestingJob (setTargetServices [] twoSuitesSpec))).2
    = [ GetJobOutputKey "test.t1" "IMAGE";
        GetJobOutputKey "test.t2" "REPORT" ].
Proof. repeat split; vm_compute; reflexivity. Qed.

(* --------------------------------------------------------------------- *)
(** ** The further properties at concrete inputs *)
(* --------------------------------------------------------------------- *)

(** The three other job types, in a workflow whose first job named "push"
    is a plugin job the resolver passes over. *)
Lemma resolve_distribute_deploy_scanning_witness :
  getOriginReferedJobTargets (K:=typedWorld) typedTestingJob "push"
  = inr [mkServiceTestTarget "svcA" "modA"]
  ∧ getOriginReferedJobTargets (K:=typedWorld) typedTestingJob "roll"
    = inr [mkServiceTestTarget "svcA" "modA"; mkServiceTestTarget "svcA" "modB";
           mkServiceTestTarget "svcB" "modC"]
  ∧ getOriginReferedJobTargets (K:=typedWorld) typedTestingJob "scan"
    = inr [mkServiceTestTarget "svcB" "modB"].
Proof.
  split; [|split].
  - refine (proj1 (resolve_distribute_deploy_scanning (K:=typedWorld) typedTestingJob
                     "push" [typedJob "push" "plugin" (mkTypedPayload None None None None)]
                     distributeJob _ eq_refl _ eq_refl)
              (mkZadigDistributeImageJobSpec [mkDistributeTarget "svcA" "modA"])
              eq_refl _ eq_refl).
    + intros other ->%list_elem_of_singleton _ [H|[H|[H|H]]]; discriminate H.
    + discriminate.
  - refine (proj1 (proj2 (resolve_distribute_deploy_scanning (K:=typedWorld)
                            typedTestingJob "roll"
                            [typedJob "push" "plugin" (mkTypedPayload None None None None);
                             distributeJob]
                            deployJob _ eq_refl _ eq_refl))
              _ eq_refl _ _ eq_refl).
    + intros other Hin Hname.
      repeat (apply elem_of_cons in Hin as [->|Hin]; [discriminate Hname|]).
      inversion Hin.
    + discriminate.
    + discriminate.
  - refine (proj2 (proj2 (resolve_distribute_deploy_scanning (K:=typedWorld)
                            typedTestingJob "scan"
                            [typedJob "push" "plugin" (mkTypedPayload None None None None);
                             distributeJob; deployJob]
                            scanningJob _ eq_refl _ eq_refl))
              _ eq_refl _ _ _ eq_refl).
    + intros other Hin Hname.
      repeat (apply elem_of_cons in Hin as [->|Hin]; [discriminate Hname|]).
      inversion Hin.
    + discriminate.
    + discriminate.
    + discriminate.
Defined.

(** Two build jobs named "build1": the first does not decode, and the
    sound one behind it is never reached. *)
Lemma first_handled_job_decides_witness :
  getOriginReferedJobTargets brokenBuildJob "build1" = inl "cannot decode the job spec".
Proof.
  refine (proj2 (first_handled_job_decides brokenBuildJob "build1" []
                   (demoJob "build1" "zadig-build" OtherPayload) _ eq_refl _ eq_refl _)
            _ eq_refl eq_refl).
  - intros other Hin. inversion Hin.
  - left. reflexivity.
Defined.

(** The task of the suite "full" on the cluster with the object cache. *)
Lemma steps_belong_to_task_witness :
  ∃ task,
    toJobtask (K:=objectWorld) richJob (demoModule "full") "default-s3" 1%Z "" "" "" "abcde"
    = Compiled task
    ∧ Forall (λ st, Step_JobName st = Task_Name task) (Steps (Task_Spec task)).
Proof.
  evar (task : @JobTask demoModels).
  assert (Htask : toJobtask (K:=objectWorld) richJob (demoModule "full") "default-s3" 1%Z
                    "" "" "" "abcde" = Compiled task)
    by (subst task; vm_compute; reflexivity).
  exists task. split; [exact Htask|].
  apply Forall_forall. intros st Hst.
  refine (proj1 (steps_belong_to_task (K:=objectWorld) richJob (demoModule "full")
                   "default-s3" 1%Z "" "" "" "abcde" task st _ Hst)).
  by rewrite Htask.
Defined.

Lemma cache_archive_round_trip_witness :
  ∃ task d u,
    toJobtask (K:=objectWorld) richJob (demoModule "full") "default-s3" 1%Z "" "" "" "abcde"
    = Compiled task
    ∧ List.filter isCacheDownload (Steps (Task_Spec task)) = [d]
    ∧ List.filter isCacheUpload (Steps (Task_Spec task)) = [u].
Proof.
  evar (task : @JobTask demoModels).
  assert (Htask : toJobtask (K:=objectWorld) richJob (demoModule "full") "default-s3" 1%Z
                    "" "" "" "abcde" = Compiled task)
    by (subst task; vm_compute; reflexivity).
  pose proof (cache_archive_round_trip (K:=objectWorld) richJob (demoModule "full")
                "default-s3" 1%Z "" "" "" "abcde" task Htask) as Hpair.
  cbn zeta in Hpair.
  assert (Hon : Props_CacheEnable (Properties (Task_Spec task))
                && bool_decide (Cache_MediumType (Props_Cache (Properties (Task_Spec task)))
                                = ObjectMedium) = true)
    by (subst task; vm_compute; reflexivity).
  rewrite Hon in Hpair. destruct Hpair as (d & u & da & ta & Hd & Hu & _).
  exists task, d, u. repeat split; done.
Defined.

(** The suite "full" configures two artifact paths and a result path; the
    suite "odd" configures the single empty artifact path and no result
    path. *)
Lemma collectors_follow_configured_paths_witness :
  (∃ task archive report,
     toJobtask (K:=objectWorld) richJob (demoModule "full") "default-s3" 1%Z "" "" ""
       "abcde" = Compiled task
     ∧ List.filter isResultArchive (Steps (Task_Spec task)) = [archive]
     ∧ List.filter isJunitReport (Steps (Task_Spec task)) = [report])
  ∧ (∃ task,
     toJobtask (K:=objectWorld) richJob (demoModule "odd") "default-s3" 1%Z "" "" ""
       "abcde" = Compiled task
     ∧ List.filter isResultArchive (Steps (Task_Spec task)) = []
     ∧ List.filter isJunitReport (Steps (Task_Spec task)) = []).
Proof.
  split.
  - evar (task : @JobTask demoModels).
    assert (Htask : toJobtask (K:=objectWorld) richJob (demoModule "full") "default-s3"
                      1%Z "" "" "" "abcde" = Compiled task)
      by (subst task; vm_compute; reflexivity).
    assert (Hfind : findTesting (Catalog:=objectWorld) (TestModule_Name (demoModule "full"))
                    = inr (richSuite "full" "kubernetes" "shell" ["out"; "logs"] "results"
                             (Some (mkObjectStorageUpload true "upload-store"
                                      [mkUpload "dist" "releases"]))))
      by reflexivity.
    destruct (collectors_follow_configured_paths (K:=objectWorld) richJob
                (demoModule "full") "default-s3" 1%Z "" "" "" "abcde" _ task Hfind Htask)
      as (_ & Harchive & _ & Hreport).
    destruct Harchive as (archive & ta & Harchive & _); [discriminate|discriminate|].
    destruct Hreport as (report & spec & Hreport & _); [discriminate|].
    by exists task, archive, report.
  - evar (task : @JobTask demoModels).
    assert (Htask : toJobtask (K:=objectWorld) richJob (demoModule "odd") "default-s3"
                      1%Z "" "" "" "abcde" = Compiled task)
      by (subst task; vm_compute; reflexivity).
    assert (Hfind : findTesting (Catalog:=objectWorld) (TestModule_Name (demoModule "odd"))
                    = inr (richSuite "odd" "kubernetes" "python" [""] "" None))
      by reflexivity.
    destruct (collectors_follow_configured_paths (K:=objectWorld) richJob
                (demoModule "odd") "default-s3" 1%Z "" "" "" "abcde" _ task Hfind Htask)
      as (Harchive & _ & Hreport & _).
    exists task. split; [exact Htask|]. split.
    + apply Harchive. by right.
    + by apply Hreport.
Defined.

(** The suite "odd" declares the script type "python". *)
Lemma unknown_script_type_leaves_blank_step_witness :
  ∃ task,
    toJobtask (K:=objectWorld) richJob (demoModule "odd") "default-s3" 1%Z "" "" ""
      "abcde" = Compiled task
    ∧ List.filter isScript (Steps (Task_Spec task)) = []
    ∧ Exists (λ st, Step_Name st = "" ∧ Step_StepType st = "" ∧ Step_Spec st = NoSpec
                    ∧ Step_JobName st = Task_Name task)
        (Steps (Task_Spec task)).
Proof.
  evar (task : @JobTask demoModels).
  assert (Htask : toJobtask (K:=objectWorld) richJob (demoModule "odd") "default-s3"
                    1%Z "" "" "" "abcde" = Compiled task)
    by (subst task; vm_compute; reflexivity).
  assert (Hfind : findTesting (Catalog:=objectWorld) (TestModule_Name (demoModule "odd"))
                  = inr (richSuite "odd" "kubernetes" "python" [""] "" None))
    by reflexivity.
  exists task. split; [exact Htask|].
  apply (proj2 (unknown_script_type_leaves_blank_step (K:=objectWorld) richJob
                  (demoModule "odd") "default-s3" 1%Z "" "" "" "abcde" _ task Hfind Htask));
    discriminate.
Defined.

(** The suite "onvm" runs on the VM infrastructure, on a cluster that
    declares the object cache. *)
Lemma vm_task_keeps_suite_cache_settings_witness :
  ∃ task,
    taskOf (toJobtask (K:=objectWorld) richJob (demoModule "onvm") "default-s3" 1%Z
              "" "" "" "abcde") = Some task
    ∧ Props_Cache (Properties (Task_Spec task)) = emptyCache
    ∧ Props_CacheEnable (Properties (Task_Spec task)) = true
    ∧ Props_CacheUserDir (Properties (Task_Spec task)) = "/cache"
    ∧ List.filter isCacheDownload (Steps (Task_Spec task)) = [].
Proof.
  destruct (vm_task_keeps_suite_cache_settings (K:=objectWorld) richJob (demoModule "onvm")
              "default-s3" 1%Z "" "" "" "abcde" (richSuite "onvm" "vm" "" [] "" None)
              (mkBasicImage "focal") [] (mkK8SCluster objectCache))
    as (task & Htask & Hcache & Henable & _ & Huser & Hsteps); [reflexivity..|].
  exists task. repeat split; try done. apply Hsteps. discriminate.
Defined.

(** The suite "full" on the cluster with the object cache, when the object
    store collection finds nothing. *)
Lemma object_cache_store_is_fetched_eagerly_witness :
  ∃ task,
    toJobtask (K:=storelessWorld) richJob (demoModule "full") "default-s3" 1%Z "" "" ""
      "abcde"
    = Failed (Some task)
        "find cache s3 storage: cache-store error: mongo: no documents in result"
    ∧ Steps (Task_Spec task) = [].
Proof.
  destruct (object_cache_store_is_fetched_eagerly (K:=storelessWorld) richJob
              (demoModule "full") "default-s3" 1%Z "" "" "" "abcde"
              (richSuite "full" "kubernetes" "shell" ["out"; "logs"] "results"
                 (Some (mkObjectStorageUpload true "upload-store"
                          [mkUpload "dist" "releases"])))
              (mkBasicImage "focal") [] (mkK8SCluster objectCache)
              "mongo: no documents in result")
    as (task & Htask & Hsteps & _);
    [reflexivity|reflexivity|reflexivity|reflexivity|discriminate|reflexivity
    |discriminate|reflexivity|].
  by exists task.
Defined.

Lemma random_suffix_is_product_level_only_witness :
  toJobtask (demoTestingJob twoSuitesSpec) (demoModule "t1") "default-s3" 1%Z
    "service_test" "svcA" "modA" "fghij"
  = toJobtask (demoTestingJob twoSuitesSpec) (demoModule "t1") "default-s3" 1%Z
      "service_test" "svcA" "modA" "abcde".
Proof.
  apply (proj1 (random_suffix_is_product_level_only (demoTestingJob twoSuitesSpec)
                  (demoModule "t1") "default-s3" 1%Z "service_test" "svcA" "modA" "abcde")).
  reflexivity.
Defined.

(** The three suites of [richJob] all compile. *)
Lemma product_level_tasks_follow_modules_witness :
  ∃ tasks,
    (ToJobs (K:=objectWorld) richJob 1%Z).2 = (tasks, None)
    ∧ Task_Key <$> tasks = ["test.full"; "test.odd"; "test.onvm"].
Proof.
  apply (product_level_tasks_follow_modules (K:=objectWorld) richJob 1%Z
           (mkZadigTestingJobSpec "" "" "" "" []
              [demoModule "full"; demoModule "odd"; demoModule "onvm"] [])
           "default-s3").
  - reflexivity.
  - reflexivity.
  - reflexivity.
  - discriminate.
  - discriminate.
  - discriminate.
  - intros testing Hin randStr.
    repeat (apply elem_of_cons in Hin as [->|Hin];
            [eexists; vm_compute; reflexivity|]).
    inversion Hin.
Defined.

(** The second suite of [missingSuiteSpec] is not in the catalog. *)
Lemma product_level_failure_keeps_earlier_tasks_witness :
  ∃ tasks,
    (ToJobs (demoTestingJob missingSuiteSpec) 1%Z).2
    = (tasks, Some "find testing: gone error: mongo: no documents in result")
    ∧ Task_Key <$> tasks = ["test.t1"].
Proof.
  apply (product_level_failure_keeps_earlier_tasks (demoTestingJob missingSuiteSpec) 1%Z
           missingSuiteSpec "default-s3" [demoModule "t1"] (demoModule "gone") []).
  - reflexivity.
  - reflexivity.
  - reflexivity.
  - discriminate.
  - reflexivity.
  - intros testing ->%list_elem_of_singleton randStr. eexists. vm_compute. reflexivity.
  - intros randStr. eexists. vm_compute. reflexivity.
Defined.

(** The two suites of [twoSuitesSpec] are both configured for the one
    target. *)
Lemma service_level_tasks_follow_targets_witness :
  ∃ tasks,
    (ToJobs (demoTestingJob twoSuitesSpec) 1%Z).2 = (tasks, None)
    ∧ Task_Key <$> tasks = ["test.t1.svcA.modA"; "test.t2.svcA.modA"].
Proof.
  apply (service_level_tasks_follow_targets (demoTestingJob twoSuitesSpec) 1%Z
           twoSuitesSpec "default-s3").
  - reflexivity.
  - reflexivity.
  - reflexivity.
  - discriminate.
  - discriminate.
  - intros target testing _ Hin _ randStr.
    repeat (apply elem_of_cons in Hin as [->|Hin];
            [eexists; vm_compute; reflexivity|]).
    inversion Hin.
Defined.

(** The stale target of [quotedServiceSpec] gives way to the two pairs the
    build job "build1" declares; and a job quoted from a job that is not in
    the workflow fails with the wrapped error of the resolver. *)
Lemma quoted_job_replaces_targets_witness :
  Spec_TargetServices (spec (ToJobs (demoTestingJob quotedServiceSpec) 1%Z).1)
  = [mkServiceTestTarget "svcA" "modA"; mkServiceTestTarget "svcB" "modB"]
  ∧ (ToJobs (demoTestingJob (setJobNames "older" "nowhere" quotedServiceSpec)) 1%Z).2
    = ([], Some "get origin refered job: nowhere targets failed, err: build job nowhere not found").
Proof.
  split.
  - refine (proj1 (proj2 (quoted_job_replaces_targets (demoTestingJob quotedServiceSpec)
                            1%Z quotedServiceSpec "default-s3" _ _ _ _ _) _ _)).
    + reflexivity.
    + reflexivity.
    + reflexivity.
    + discriminate.
    + reflexivity.
    + reflexivity.
  - refine (proj1 (quoted_job_replaces_targets
                     (demoTestingJob (setJobNames "older" "nowhere" quotedServiceSpec))
                     1%Z (setJobNames "older" "nowhere" quotedServiceSpec) "default-s3"
                     _ _ _ _ _) "build job nowhere not found" _).
    + reflexivity.
    + reflexivity.
    + reflexivity.
    + discriminate.
    + reflexivity.
    + reflexivity.
Defined.

(** The target ("a/b", "c") survives on the strength of the test
    configured for ("a", "b/c"); the target ("a", "b") does not. *)
Lemma preset_keeps_targets_by_key_witness :
  mkServiceTestTarget "a/b" "c"
    ∈ Spec_TargetServices (spec (SetPreset (demoTestingJob slashSpec)).1.1)
  ∧ mkServiceTestTarget "a" "b"
      ∉ Spec_TargetServices (spec (SetPreset (demoTestingJob slashSpec)).1.1).
Proof.
  assert (Hdecode : IToi (Job_Spec (job (demoTestingJob slashSpec))) = inr slashSpec)
    by reflexivity.
  assert (Hty : Spec_TestType slashSpec = ServiceTestType) by reflexivity.
  destruct (preset_keeps_targets_by_key (demoTestingJob slashSpec) slashSpec Hdecode Hty)
    as (_ & Hkept & Hslash).
  split.
  - apply (Hslash "a" "b" "c" (mkServiceAndTest "a" "b/c" (demoModule "t1"))).
    + apply list_elem_of_here.
    + apply list_elem_of_here.
    + reflexivity.
    + reflexivity.
  - intros Hin. apply Hkept in Hin as (_ & testing & Htest & Hkey).
    apply list_elem_of_singleton in Htest as ->. discriminate Hkey.
Defined.

Lemma preset_keeps_names_witness :
  Spec_JobName (spec (SetPreset (demoTestingJob quotedServiceSpec)).1.1) = "older"
  ∧ Spec_OriginJobName (spec (SetPreset (demoTestingJob quotedServiceSpec)).1.1) = "older"
  ∧ Spec_Source (spec (SetPreset (demoTestingJob quotedServiceSpec)).1.1) = "fromjob".
Proof.
  assert (Hdecode : IToi (Job_Spec (job (demoTestingJob quotedServiceSpec)))
                    = inr quotedServiceSpec) by reflexivity.
  destruct (preset_keeps_names (demoTestingJob quotedServiceSpec) quotedServiceSpec
              Hdecode) as (_ & _ & Hsource & _ & _ & Hnames).
  split; [exact (f_equal fst Hnames)|]. split; [exact (f_equal snd Hnames)|].
  exact Hsource.
Defined.

(** Of the two suites of [missingSuiteSpec] one is missing: [GetRepos]
    returns no error. *)
Lemma get_repos_skips_missing_suites_witness :
  (GetRepos (demoTestingJob missingSuiteSpec)).2.2 = None.
Proof.
  assert (Hdecode : IToi (Job_Spec (job (demoTestingJob missingSuiteSpec)))
                    = inr missingSuiteSpec) by reflexivity.
  exact (proj1 (get_repos_skips_missing_suites (demoTestingJob missingSuiteSpec)
                  missingSuiteSpec Hdecode)).
Defined.

(** Of the two overrides named t1 the first, "one", is merged; arguments
    for a job of another name change nothing. *)
Lemma merge_args_first_namesake_wins_witness :
  Spec_TestModules (spec (MergeArgs (demoTestingJob (demoTestSpec "" "")) productArgs).1)
    !! 0%nat
  = Some (mergeModule (demoModule "t1") (overrideModule "t1" "one"))
  ∧ MergeArgs (demoTestingJob (demoTestSpec "" ""))
      (demoJob "other" "zadig-test" OtherPayload)
    = (demoTestingJob (demoTestSpec "" ""), None).
Proof.
  split.
  - refine (proj2 (proj2 (proj2 (proj2 (merge_args_first_namesake_wins
                                          (demoTestingJob (demoTestSpec "" "")) productArgs)
                                   (demoTestSpec "" "")
                                   (mkZadigTestingJobSpec "" "" "" "" []
                                      [overrideModule "t2" "zero"; overrideModule "t1" "one";
                                       overrideModule "t1" "two"] [])
                                   _ _ _ _ _ _))
                     0%nat (demoModule "t1") _)
              [overrideModule "t2" "zero"] (overrideModule "t1" "one")
              [overrideModule "t1" "two"] _ _ _).
    + reflexivity.
    + reflexivity.
    + reflexivity.
    + reflexivity.
    + reflexivity.
    + discriminate.
    + reflexivity.
    + reflexivity.
    + intros other ->%list_elem_of_singleton. discriminate.
    + reflexivity.
  - apply (proj1 (merge_args_first_namesake_wins (demoTestingJob (demoTestSpec "" ""))
                    (demoJob "other" "zadig-test" OtherPayload))).
    left. discriminate.
Defined.

(** The override is given for another module of svcA; it is merged into
    the test of module modA all the same, and the targets become those of
    the arguments. *)
Lemma merge_args_service_level_witness :
  Spec_TargetServices (spec (MergeArgs (demoTestingJob twoSuitesSpec) serviceArgs).1)
  = [mkServiceTestTarget "svcB" "modB"]
  ∧ ∃ merged,
      Spec_ServiceAndTests (spec (MergeArgs (demoTestingJob twoSuitesSpec) serviceArgs).1)
        !! 0%nat = Some merged
      ∧ SAT_ServiceModule merged = "modA"
      ∧ SAT_TestModule merged = mergeModule (demoModule "t1") (overrideModule "t1" "one").
Proof.
  edestruct (merge_args_service_level (demoTestingJob twoSuitesSpec) serviceArgs
               twoSuitesSpec
               (mkZadigTestingJobSpec "service_test" "" "" ""
                  [mkServiceTestTarget "svcB" "modB"] []
                  [mkServiceAndTest "svcA" "other-module" (overrideModule "t1" "one")]))
    as (_ & Htargets & _ & Htests);
    [reflexivity|reflexivity|reflexivity|reflexivity|reflexivity|discriminate|].
  split; [exact Htargets|].
  destruct (Htests 0%nat (mkServiceAndTest "svcA" "modA" (demoModule "t1")) []
              (mkServiceAndTest "svcA" "other-module" (overrideModule "t1" "one")) [])
    as (merged & Hmerged & Hmodule & _ & Hmodule');
    [reflexivity|reflexivity|by intros other ?%elem_of_nil|reflexivity|reflexivity|].
  by exists merged.
Defined.

(** On the service-level job [twoSuitesSpec] the webhook repository
    reaches the two product-level modules and none of the service tests. *)
Lemma webhook_repo_reaches_test_modules_only_witness :
  Spec_ServiceAndTests
    (spec (MergeWebhookRepo (demoTestingJob twoSuitesSpec) "hook").1)
  = Spec_ServiceAndTests twoSuitesSpec
  ∧ TestModule_Repos
      <$> Spec_TestModules (spec (MergeWebhookRepo (demoTestingJob twoSuitesSpec) "hook").1)
    = [["hook"]; ["hook"]].
Proof.
  assert (Hdecode : IToi (Job_Spec (job (demoTestingJob twoSuitesSpec))) = inr twoSuitesSpec)
    by reflexivity.
  destruct (webhook_repo_reaches_test_modules_only (demoTestingJob twoSuitesSpec) "hook"
              twoSuitesSpec Hdecode) as (_ & Htests & _ & _ & _).
  split; [exact Htests|reflexivity].
Defined.

Lemma cleared_selection_compiles_nothing_witness :
  (ToJobs (ClearSelectionField (demoTestingJob twoSuitesSpec)).1 1%Z).2 = ([], None).
Proof.
  apply (cleared_selection_compiles_nothing (demoTestingJob twoSuitesSpec) 1%Z
           twoSuitesSpec "default-s3").
  - reflexivity.
  - reflexivity.
  - reflexivity.
  - reflexivity.
  - discriminate.
  - discriminate.
Defined.

(** A payload that does not decode gives no outputs; the product-level
    job over t1 addresses the output of t1 under test.t1. *)
Lemma outputs_come_from_test_modules_witness :
  (GetOutPuts brokenBuildJob).2 = []
  ∧ (GetOutPuts (demoTestingJob (demoTestSpec "" ""))).2
    = [GetJobOutputKey "test.t1" "IMAGE"].
Proof.
  split.
  - apply (proj1 (outputs_come_from_test_modules brokenBuildJob)
             "cannot decode the job spec").
    reflexivity.
  - refine (proj2 (proj2 (outputs_come_from_test_modules
                            (demoTestingJob (demoTestSpec "" "")))
                     (demoTestSpec "" "") _)
              [demoSuite "t1" "kubernetes" true ["IMAGE"]] _ _).
    + reflexivity.
    + reflexivity.
    + left. discriminate.
Defined.

End TestingFacts.
